(** * KORA rent reclaimer: scanner, safety gate, store and reclaim engine

    A shallow embedding of the TypeScript sources
      - [src/src/database.ts]   (DatabaseManager),
      - [src/src/scanner.ts]    (Scanner, ConfigManager),
      - [src/unnamed/part_003]  (SafetyManager),
      - [src/src/reclaim.ts]    (ReclaimEngine),
      - [src/unnamed/part_002]  (KoraParser: import of keys),
      - [src/src/index.ts]      (the scheduled run),
    followed by the properties of the design document that concern them.

    Conventions of the embedding.
      - Public keys are their base58 strings.
      - A DATETIME column holds the text SQLite writes, 'YYYY-MM-DD HH:MM:SS'
        in UTC and to the second. Such a text is represented by the epoch
        milliseconds of its reading taken as UTC ([Z]); what [new Date(text)]
        makes of it depends on the time zone of the host and is given by
        [parseDate]. [created_at] is never interpreted and stays text.
      - JavaScript numbers holding lamports are integers ([Z]). The run
        limit is computed in binary64 arithmetic, as the code does
        ([lamports / 1e9] and the sums and products around it are operations
        on [float]); the number of days between two instants is an exact
        rational ([Q]), which compares with a number of days as the double
        does for the times and day counts of this program.
      - The RPC node, the clock, the time zone and the SPL token decoder are
        collaborators: they appear as fields of the world the program runs
        in.
      - Messages with interpolated numbers are constructors of [Reason] /
        [SkipReason] carrying the interpolated values.
      - Statements on the store always succeed: failures of sql.js or of
        the file system are not modelled. *)

From Stdlib Require Import ZArith QArith String List Bool Lia Permutation Floats.
From stdpp Require Import gmap strings list.

Import ListNotations.
Local Open Scope string_scope.
Local Open Scope Z_scope.
Local Open Scope list_scope.

(** ** Data model *)

(** [SponsoredAccount['status']] and the CHECK constraint of the table. *)
Inductive Status := active | closed | reclaimed | skipped.

(** Row of [sponsored_accounts] (database.ts, interface SponsoredAccount).
    The autoincrement [id] is never read by the program and is left out. *)
Module SponsoredAccount.
Record t := mk {
  pubkey : string;
  programOwner : option string;
  sponsorSignature : option string;
  lamports : Z;
  createdAt : string;
  lastChecked : option Z;
  status : Status;
  reclaimableSince : option Z;
  closeAuthority : option string;
  operatorCanClose : bool
}.
End SponsoredAccount.

Inductive HistoryStatus := h_success | h_failed | h_skipped.

(** Messages carried by safety denials and failed outcome records. *)
Inductive Reason :=
| OperatorNotCloseAuthority   (* 'Operator is not the close authority' *)
| AccountIsWhitelisted        (* 'Account is whitelisted' *)
| ExecutableProgramAccount    (* 'Executable program account' *)
| AccountAlreadyClosed        (* 'Account already closed' *)
| NotYetReclaimableState      (* 'Account not yet in idle/reclaimable state' *)
| ReclaimableForDays (daysReclaimable : Q) (minIdle : Z)
                              (* `Account reclaimable for ${d} days (min: ${m})` *)
| WouldExceedLimit (maxSol : float)
                              (* `Would exceed max reclaim limit (${max} SOL per run)` *)
| CouldNotCreateCloseInstruction
                              (* 'Could not create close instruction' *)
| TransactionFailed           (* 'Transaction failed' *)
| CheckedDaysAgo (daysSinceCheck : Q) (minIdle : Z)
                              (* `Account checked ${d} days ago (min: ${m})` *)
| ErrorMessage (msg : string) (* err.message of a caught exception *).

(** Row of [reclaim_history]; [timestamp] is CURRENT_TIMESTAMP at insert,
    a text of the same form as [datetime('now')]. *)
Module ReclaimHistoryEntry.
Record t := mk {
  pubkey : string;
  lamportsReclaimed : Z;
  status : HistoryStatus;
  reason : option Reason;
  txSignature : option string;
  timestamp : Z
}.
End ReclaimHistoryEntry.

Module WhitelistEntry.
Record t := mk { reason : option string; addedAt : Z }.
End WhitelistEntry.

(** The three tables of the sql.js database. [pubkey] is UNIQUE in
    [sponsored_accounts] and [whitelist], so both are maps keyed by it. *)
Module Db.
Record t := mk {
  sponsored_accounts : gmap string SponsoredAccount.t;
  reclaim_history : list ReclaimHistoryEntry.t;
  whitelist : gmap string WhitelistEntry.t
}.
End Db.

(** scanner.ts, interface AccountStatus. [skipReason] is kept apart from
    [Reason]: the two families of messages never mix. *)
Inductive SkipReason :=
| SkipAlreadyClosed           (* 'Account already closed' *)
| SkipWhitelisted             (* 'Account is whitelisted' *)
| SkipExecutable              (* 'Executable program account' *)
| SkipActiveWithin (days : Z) (* `Account active within last ${n} days` *)
| SkipSystemAccount           (* 'System account - operator cannot close ...' *)
| SkipNotCloseAuthority (authority : string)
                              (* `Operator is not close authority (authority: ...)` *)
| SkipDecodeFailed            (* 'Failed to decode token account' *)
| SkipProgramOwned            (* 'Program-owned account (manual review needed)' *)
| SkipFetchFailed             (* 'Failed to fetch account info' *).

Module AccountStatus.
Record t := mk {
  pubkey : string;
  exists_ : bool;
  lamports : Z;
  owner : option string;
  dataLength : Z;
  executable : bool;
  isTokenAccount : bool;
  isReclaimable : bool;
  skipReason : option SkipReason;
  closeAuthority : option string;
  operatorCanClose : bool
}.
End AccountStatus.

(** The fields of the SPL token [AccountLayout] the scanner reads. *)
Module RawAccount.
Record t := mk {
  owner : string;
  amount : Z;
  closeAuthorityOption : Z;
  closeAuthority : string
}.
End RawAccount.

(** web3.js [AccountInfo<Buffer>]. The buffer is represented by its length
    and by what [AccountLayout.decode] yields on it ([None]: decode throws);
    the decoder itself belongs to @solana/spl-token. *)
Module AccountInfo.
Record t := mk {
  lamports : Z;
  owner : string;
  dataLength : Z;
  decoded : option RawAccount.t;
  executable : bool
}.
End AccountInfo.

(** Program ids (base58 of [SystemProgram.programId] and [TOKEN_PROGRAM_ID]). *)
Definition SYSTEM_PROGRAM_ID : string := "11111111111111111111111111111111".
Definition TOKEN_PROGRAM_ID : string := "TokenkegQfeZyiNwAJbNbGKPFXCWuBvf9Ss623VQ5DA".

(** scanner.ts (second half), interface Config, restricted to the fields
    the modelled components read. [operatorKeypair] is the outcome of
    [loadOperatorKeypair]: the operator's public key, or the message of the
    error it throws. [maxReclaimSolPerRun] is the double that [parseFloat]
    made of MAX_RECLAIM_SOL_PER_RUN. [whitelist] is ConfigManager's private
    set. *)
Module Config.
Record t := mk {
  treasuryAddress : string;
  operatorKeypair : string + string;
  minIdleDays : Z;
  maxReclaimSolPerRun : float;
  batchSize : Z;
  dryRun : bool;
  mainnet : bool;
  whitelist : gset string
}.
End Config.

(** part_003: SafetyCheckResult, SafetyConfig and the SafetyManager object. *)
Module SafetyCheckResult.
Record t := mk { allowed : bool; reason : option Reason }.
End SafetyCheckResult.

Module SafetyConfig.
Record t := mk {
  minIdleDays : Z;
  maxReclaimSolPerRun : float;
  requireConfirmation : bool
}.
End SafetyConfig.

Module SafetyManager.
Record t := mk { totalReclaimedThisRun : Z; config : SafetyConfig.t }.
End SafetyManager.

(** reclaim.ts: instructions, outcome records. *)
Inductive Instruction :=
| CloseAccount (account destination authority : string)
| SystemTransfer (fromPubkey toPubkey : string) (lamports : Z).

Module ReclaimResult.
Record t := mk {
  pubkey : string;
  success : bool;
  lamportsReclaimed : Z;
  txSignature : option string;
  error : option Reason
}.
End ReclaimResult.

Module BatchReclaimResult.
Record t := mk {
  successful : list ReclaimResult.t;
  failed : list ReclaimResult.t;
  totalLamportsReclaimed : Z
}.
End BatchReclaimResult.

(** part_005, interface ReclaimLogEntry. *)
Inductive LogStatus := log_reclaimed | log_skipped | log_failed.

Module ReclaimLogEntry.
Record t := mk {
  pubkey : string;
  status : LogStatus;
  lamports : Z;
  reason : option Reason;
  txSignature : option string
}.
End ReclaimLogEntry.

(** ** The RPC node *)

(** What [getAccount] of @solana/spl-token does for a key. *)
Inductive TokenLookup :=
| TokenAmount (amount : Z)
| TokenAccountNotFound
| LookupFailed (msg : string).

(** What [sendAndConfirmTransaction] does. *)
Inductive SendOutcome :=
| Confirmed (signature : string)
| Rejected (msg : string).

(** What lies outside the program: the node, web3.js and the host.
    Answers of the node may depend on how many transactions were submitted
    before ([nat] argument). [validKey] tells whether [new PublicKey(s)]
    accepts [s], and [keyError s] is the message of the error it throws
    when it does not ('Invalid public key input' for a string of the wrong
    length, 'Non-base58 character' for one outside the alphabet).
    [localOffset] is the time zone of the host: the offset, in
    milliseconds, of local time from UTC at a local date and time given as
    the epoch milliseconds of its reading taken as UTC (zero on a host in
    UTC, nine hours in Asia/Tokyo). *)
Module Rpc.
Record t := mk {
  getAccount : nat -> string -> TokenLookup;
  sendAndConfirm : nat -> list Instruction -> SendOutcome;
  validKey : string -> bool;
  keyError : string -> string;
  localOffset : Z -> Z
}.
End Rpc.

(** ** The world *)

(** Everything the singletons [config], [database], [safety], [logger]
    hold, the node, the clock, and a trace of what was sent and slept. *)
Module World.
Record t := mk {
  cfg : Config.t;
  db : Db.t;
  safety : SafetyManager.t;
  rpc : Rpc.t;
  now : Z;
  submitted : list (list Instruction);
  slept : list Z;
  logEntries : list ReclaimLogEntry.t
}.
End World.

(** ** DatabaseManager (database.ts) *)

Module DatabaseManager.

Definition on_accounts
    (f : gmap string SponsoredAccount.t -> gmap string SponsoredAccount.t)
    (d : Db.t) : Db.t :=
  Db.mk (f (Db.sponsored_accounts d)) (Db.reclaim_history d) (Db.whitelist d).

(** [INSERT OR REPLACE INTO sponsored_accounts (... ten columns ...)]:
    a row with the same [pubkey] is deleted and the new one is stored,
    every column taken from the argument. *)
Definition addAccount (account : SponsoredAccount.t) (d : Db.t) : Db.t :=
  on_accounts (insert (SponsoredAccount.pubkey account) account) d.

(** The same statement, once per element, in order. *)
Definition addAccountsBatch (accounts : list SponsoredAccount.t) (d : Db.t) : Db.t :=
  fold_left (fun d account => addAccount account d) accounts d.

Definition getAccount (pubkey : string) (d : Db.t) : option SponsoredAccount.t :=
  Db.sponsored_accounts d !! pubkey.

(** [datetime('now')] and CURRENT_TIMESTAMP when the clock shows [now]
    (epoch milliseconds): the UTC date and time, the fraction of the second
    dropped. *)
Definition datetime (now : Z) : Z := now / 1000 * 1000.
Arguments datetime : simpl never.

(** [UPDATE ... SET status = ?, [lamports = ?,] last_checked = datetime('now')
    WHERE pubkey = ?]; [now] is the clock at the time of the call. *)
Definition updateAccountStatus (now : Z) (pubkey : string) (status : Status)
    (lamports : option Z) (d : Db.t) : Db.t :=
  on_accounts (alter (fun r =>
    SponsoredAccount.mk
      (SponsoredAccount.pubkey r) (SponsoredAccount.programOwner r)
      (SponsoredAccount.sponsorSignature r)
      (match lamports with Some l => l | None => SponsoredAccount.lamports r end)
      (SponsoredAccount.createdAt r)
      (Some (datetime now))
      status
      (SponsoredAccount.reclaimableSince r) (SponsoredAccount.closeAuthority r)
      (SponsoredAccount.operatorCanClose r)) pubkey) d.

(** [UPDATE ... SET close_authority = ?, operator_can_close = ? WHERE pubkey = ?]. *)
Definition updateAccountAuthority (pubkey : string) (closeAuthority : option string)
    (operatorCanClose : bool) (d : Db.t) : Db.t :=
  on_accounts (alter (fun r =>
    SponsoredAccount.mk
      (SponsoredAccount.pubkey r) (SponsoredAccount.programOwner r)
      (SponsoredAccount.sponsorSignature r) (SponsoredAccount.lamports r)
      (SponsoredAccount.createdAt r) (SponsoredAccount.lastChecked r)
      (SponsoredAccount.status r) (SponsoredAccount.reclaimableSince r)
      closeAuthority operatorCanClose) pubkey) d.

Definition set_reclaimableSince (v : option Z) (r : SponsoredAccount.t) : SponsoredAccount.t :=
  SponsoredAccount.mk
    (SponsoredAccount.pubkey r) (SponsoredAccount.programOwner r)
    (SponsoredAccount.sponsorSignature r) (SponsoredAccount.lamports r)
    (SponsoredAccount.createdAt r) (SponsoredAccount.lastChecked r)
    (SponsoredAccount.status r) v
    (SponsoredAccount.closeAuthority r) (SponsoredAccount.operatorCanClose r).

(** [UPDATE ... SET reclaimable_since = datetime('now')
    WHERE pubkey = ? AND reclaimable_since IS NULL]. *)
Definition markAsReclaimable (now : Z) (pubkey : string) (d : Db.t) : Db.t :=
  on_accounts (alter (fun r =>
    match SponsoredAccount.reclaimableSince r with
    | None => set_reclaimableSince (Some (datetime now)) r
    | Some _ => r
    end) pubkey) d.

(** [UPDATE ... SET reclaimable_since = NULL WHERE pubkey = ?]. *)
Definition clearReclaimableState (pubkey : string) (d : Db.t) : Db.t :=
  on_accounts (alter (set_reclaimableSince None) pubkey) d.

(** [INSERT INTO reclaim_history (pubkey, lamports_reclaimed, status,
    reason, tx_signature)]; the timestamp column defaults to now. *)
Definition addReclaimHistory (now : Z) (pubkey : string) (lamportsReclaimed : Z)
    (status : HistoryStatus) (reason : option Reason) (txSignature : option string)
    (d : Db.t) : Db.t :=
  Db.mk (Db.sponsored_accounts d)
        (Db.reclaim_history d ++
           [ReclaimHistoryEntry.mk pubkey lamportsReclaimed status reason txSignature
              (datetime now)])
        (Db.whitelist d).

(** [SELECT 1 FROM whitelist WHERE pubkey = '...'] returned a row. *)
Definition isWhitelisted (pubkey : string) (d : Db.t) : bool :=
  bool_decide (is_Some (Db.whitelist d !! pubkey)).

(** [SELECT * FROM sponsored_accounts]: every stored row. The rows come in
    the order of the table; only membership and counts are used below. *)
Definition getAllAccounts (d : Db.t) : list SponsoredAccount.t :=
  map snd (map_to_list (Db.sponsored_accounts d)).

(** [status = '...'] on a row. *)
Definition statusIs (s : Status) (r : SponsoredAccount.t) : bool :=
  match SponsoredAccount.status r, s with
  | active, active | closed, closed | reclaimed, reclaimed | skipped, skipped => true
  | _, _ => false
  end.

(** [SELECT * FROM sponsored_accounts WHERE status = 'active']. *)
Definition getActiveAccounts (d : Db.t) : list SponsoredAccount.t :=
  List.filter (statusIs active) (getAllAccounts d).

(** [SELECT COUNT( * ) FROM sponsored_accounts WHERE status = '...']. *)
Definition countStatus (s : Status) (d : Db.t) : nat :=
  length (List.filter (statusIs s) (getAllAccounts d)).

(** [getAccountCount]: total, active, closed, reclaimed. *)
Record AccountCount := mkCount {
  total : nat;
  activeCount : nat;
  closedCount : nat;
  reclaimedCount : nat
}.

Definition getAccountCount (d : Db.t) : AccountCount :=
  mkCount (length (getAllAccounts d)) (countStatus active d) (countStatus closed d)
          (countStatus reclaimed d).

(** [SELECT SUM(lamports_reclaimed) FROM reclaim_history WHERE status =
    'success'], read through [Number(...) || 0]. *)
Definition getTotalReclaimed (d : Db.t) : Z :=
  fold_right Z.add 0
    (map ReclaimHistoryEntry.lamportsReclaimed
       (List.filter (fun e => match ReclaimHistoryEntry.status e with
                              | h_success => true
                              | _ => false
                              end)
          (Db.reclaim_history d))).

(** [reason || null]. *)
Definition reasonOrNull (reason : option string) : option string :=
  match reason with
  | Some r => if bool_decide (r = "") then None else Some r
  | None => None
  end.

(** [INSERT OR IGNORE INTO whitelist (pubkey, reason) VALUES (?, ?)]: a key
    already listed keeps its entry; [added_at] defaults to
    CURRENT_TIMESTAMP. *)
Definition addToWhitelist (now : Z) (pubkey : string) (reason : option string) (d : Db.t)
    : Db.t :=
  match Db.whitelist d !! pubkey with
  | Some _ => d
  | None =>
      Db.mk (Db.sponsored_accounts d) (Db.reclaim_history d)
            (<[pubkey := WhitelistEntry.mk (reasonOrNull reason) (datetime now)]>
               (Db.whitelist d))
  end.

(** [DELETE FROM whitelist WHERE pubkey = ?]. *)
Definition removeFromWhitelist (pubkey : string) (d : Db.t) : Db.t :=
  Db.mk (Db.sponsored_accounts d) (Db.reclaim_history d) (delete pubkey (Db.whitelist d)).

(** [SELECT * FROM whitelist], as [(pubkey, entry)] pairs. *)
Definition getWhitelist (d : Db.t) : list (string * WhitelistEntry.t) :=
  map_to_list (Db.whitelist d).

(** The single quote, character 39. *)
Definition QUOTE : Ascii.ascii := Ascii.Ascii true true true false false true false false.

(** [str.replace(/'/g, "''")]: every single quote is doubled. *)
Fixpoint escapeString (str : string) : string :=
  match str with
  | EmptyString => EmptyString
  | String c rest =>
      if Ascii.eqb c QUOTE
      then String QUOTE (String QUOTE (escapeString rest))
      else String c (escapeString rest)
  end.

End DatabaseManager.

(** ** ConfigManager (scanner.ts, second half) *)

Module ConfigManager.

Definition isWhitelisted (pubkey : string) (c : Config.t) : bool :=
  bool_decide (pubkey ∈ Config.whitelist c).

(** [loadOperatorKeypair().publicKey], when the wallet can be read. *)
Definition operatorPublicKey (c : Config.t) : option string :=
  match Config.operatorKeypair c with
  | inr pk => Some pk
  | inl _ => None
  end.

Definition with_whitelist (whitelist : gset string) (c : Config.t) : Config.t :=
  Config.mk (Config.treasuryAddress c) (Config.operatorKeypair c) (Config.minIdleDays c)
            (Config.maxReclaimSolPerRun c) (Config.batchSize c) (Config.dryRun c)
            (Config.mainnet c) whitelist.

(** [this.whitelist.add(pubkey)]. *)
Definition addToWhitelist (pubkey : string) (c : Config.t) : Config.t :=
  with_whitelist ({[pubkey]} ∪ Config.whitelist c) c.

(** [this.whitelist.delete(pubkey)]. *)
Definition removeFromWhitelist (pubkey : string) (c : Config.t) : Config.t :=
  with_whitelist (Config.whitelist c ∖ {[pubkey]}) c.

(** [Array.from(this.whitelist)]. *)
Definition getWhitelist (c : Config.t) : list string := elements (Config.whitelist c).

(** [setDryRun]. *)
Definition setDryRun (val : bool) (c : Config.t) : Config.t :=
  Config.mk (Config.treasuryAddress c) (Config.operatorKeypair c) (Config.minIdleDays c)
            (Config.maxReclaimSolPerRun c) (Config.batchSize c) val
            (Config.mainnet c) (Config.whitelist c).

(** [validate]: the list of errors; [validKey] tells whether
    [new PublicKey(s)] accepts [s]. *)
Definition validationErrors (validKey : string -> bool) (c : Config.t) : list string :=
  (if bool_decide (Config.treasuryAddress c = "")
   then ["TREASURY_ADDRESS is required"]
   else if validKey (Config.treasuryAddress c) then []
        else ["TREASURY_ADDRESS is not a valid Solana public key"])
  ++ (if Config.mainnet c && bool_decide (Config.treasuryAddress c = "")
      then ["Treasury address must be set for mainnet operations"]
      else []).

Definition validate (validKey : string -> bool) (c : Config.t) : bool * list string :=
  let errors := validationErrors validKey c in
  ((length errors =? 0)%nat, errors).

End ConfigManager.

(** ** Arithmetic of JavaScript numbers used below *)

Definition MS_PER_DAY : Z := 1000 * 60 * 60 * 24.
Definition LAMPORTS_PER_SOL : Z := 1000000000.

(** [x < y] on rationals. *)
Definition Qlt_bool (x y : Q) : bool := negb (Qle_bool y x).

(** [(Date.now() - t.getTime()) / (1000 * 60 * 60 * 24)]. *)
Definition daysBetween (now t : Z) : Q := (inject_Z (now - t) / inject_Z MS_PER_DAY)%Q.

(** [new Date(text).getTime()] for a text written by [datetime('now')]:
    the text carries no zone designator and the engine reads it as local
    time, so the instant it yields is the UTC reading of the text less the
    offset of the host's zone. *)
Definition parseDate (rpc : Rpc.t) (text : Z) : Z := text - Rpc.localOffset rpc text.
Arguments parseDate : simpl never.

(** A JavaScript number that holds the integer [z], as a double: [z]
    itself below 2^53 in absolute value (the nearest double up to 63
    bits). *)
Definition number (z : Z) : float :=
  if z <? 0 then (- PrimFloat.of_uint63 (Uint63.of_Z (- z)))%float
  else PrimFloat.of_uint63 (Uint63.of_Z z).

(** [Math.max(0, x)]: NaN when [x] is NaN, [+0] for both zeros. *)
Definition max0 (x : float) : float :=
  if PrimFloat.is_nan x then x else if (0 <? x)%float then x else 0%float.

(** ** SafetyManager (part_003) *)

Module Safety.

Definition allow : SafetyCheckResult.t := SafetyCheckResult.mk true None.
Definition deny (r : Reason) : SafetyCheckResult.t := SafetyCheckResult.mk false (Some r).

(** The constructor copies the limits out of the configuration. *)
Definition create (c : Config.t) : SafetyManager.t :=
  SafetyManager.mk 0
    (SafetyConfig.mk (Config.minIdleDays c) (Config.maxReclaimSolPerRun c) (Config.mainnet c)).

Definition resetRunState (s : SafetyManager.t) : SafetyManager.t :=
  SafetyManager.mk 0 (SafetyManager.config s).

Definition isWhitelisted (w : World.t) (pubkey : string) : bool :=
  DatabaseManager.isWhitelisted pubkey (World.db w)
  || ConfigManager.isWhitelisted pubkey (World.cfg w).

(** Uses [reclaimableSince] of the stored row, read through [new Date];
    an untracked key passes. *)
Definition checkIdleDuration (w : World.t) (pubkey : string) : SafetyCheckResult.t :=
  match DatabaseManager.getAccount pubkey (World.db w) with
  | None => allow
  | Some account =>
      match SponsoredAccount.reclaimableSince account with
      | None => deny NotYetReclaimableState
      | Some text =>
          let reclaimableSince := parseDate (World.rpc w) text in
          let daysReclaimable := daysBetween (World.now w) reclaimableSince in
          let minIdleDays := SafetyConfig.minIdleDays (SafetyManager.config (World.safety w)) in
          if Qlt_bool daysReclaimable (inject_Z minIdleDays)
          then deny (ReclaimableForDays daysReclaimable minIdleDays)
          else allow
      end
  end.

(** [potentialTotal > maxReclaimSolPerRun], in doubles. *)
Definition checkReclaimLimit (s : SafetyManager.t) (lamports : Z) : SafetyCheckResult.t :=
  let solAmount := (number lamports / 1e9)%float in
  let potentialTotal :=
    (number (SafetyManager.totalReclaimedThisRun s) / 1e9 + solAmount)%float in
  let maxSol := SafetyConfig.maxReclaimSolPerRun (SafetyManager.config s) in
  if (maxSol <? potentialTotal)%float
  then deny (WouldExceedLimit maxSol)
  else allow.

(** The main check: authority, whitelist, executable, existence, idle
    time, run limit, in that order; the first failing one answers. *)
Definition checkAccount (w : World.t) (account : AccountStatus.t) : SafetyCheckResult.t :=
  if negb (AccountStatus.operatorCanClose account) then deny OperatorNotCloseAuthority
  else if isWhitelisted w (AccountStatus.pubkey account) then deny AccountIsWhitelisted
  else if AccountStatus.executable account then deny ExecutableProgramAccount
  else if negb (AccountStatus.exists_ account) then deny AccountAlreadyClosed
  else
    let idleCheck := checkIdleDuration w (AccountStatus.pubkey account) in
    if negb (SafetyCheckResult.allowed idleCheck) then idleCheck
    else
      let limitCheck := checkReclaimLimit (World.safety w) (AccountStatus.lamports account) in
      if negb (SafetyCheckResult.allowed limitCheck) then limitCheck
      else allow.

Definition recordReclaim (lamports : Z) (s : SafetyManager.t) : SafetyManager.t :=
  SafetyManager.mk (SafetyManager.totalReclaimedThisRun s + lamports) (SafetyManager.config s).

(** [Math.max(0, maxReclaimSolPerRun * 1e9 - totalReclaimedThisRun)], in
    doubles. *)
Definition getRemainingBudget (s : SafetyManager.t) : float :=
  let maxLamports := (SafetyConfig.maxReclaimSolPerRun (SafetyManager.config s) * 1e9)%float in
  max0 (maxLamports - number (SafetyManager.totalReclaimedThisRun s))%float.

(** [filterSafeAccounts]: the accounts the check allows, in order. *)
Definition filterSafeAccounts (w : World.t) (accounts : list AccountStatus.t)
    : list AccountStatus.t * list (AccountStatus.t * option Reason) :=
  fold_left (fun '(safe, filtered) account =>
      let check := checkAccount w account in
      if SafetyCheckResult.allowed check then (safe ++ [account], filtered)
      else (safe, filtered ++ [(account, SafetyCheckResult.reason check)]))
    accounts ([], []).

Definition with_db (f : Db.t -> Db.t) (w : World.t) : World.t :=
  World.mk (World.cfg w) (f (World.db w)) (World.safety w) (World.rpc w) (World.now w)
           (World.submitted w) (World.slept w) (World.logEntries w).

Definition with_cfg (f : Config.t -> Config.t) (w : World.t) : World.t :=
  World.mk (f (World.cfg w)) (World.db w) (World.safety w) (World.rpc w) (World.now w)
           (World.submitted w) (World.slept w) (World.logEntries w).

(** [addToWhitelist]: the table first, then the configuration's set. *)
Definition addToWhitelist (pubkey : string) (reason : option string) (w : World.t) : World.t :=
  with_cfg (ConfigManager.addToWhitelist pubkey)
    (with_db (DatabaseManager.addToWhitelist (World.now w) pubkey reason) w).

Definition removeFromWhitelist (pubkey : string) (w : World.t) : World.t :=
  with_cfg (ConfigManager.removeFromWhitelist pubkey)
    (with_db (DatabaseManager.removeFromWhitelist pubkey) w).

(** [[...new Set(xs)]]: the first occurrence of each element, in order. *)
Definition dedupe (xs : list string) : list string :=
  fold_left (fun seen x => if bool_decide (x ∈ seen) then seen else seen ++ [x]) xs [].

(** [getWhitelist]: the keys of the table, then those of the configuration,
    merged without repetition. *)
Definition getWhitelist (w : World.t) : list string :=
  dedupe (map fst (DatabaseManager.getWhitelist (World.db w))
          ++ ConfigManager.getWhitelist (World.cfg w)).

(** [requiresConfirmation]. *)
Definition requiresConfirmation (w : World.t) : bool :=
  SafetyConfig.requireConfirmation (SafetyManager.config (World.safety w))
  && negb (Config.dryRun (World.cfg w)).

End Safety.

(** ** The earlier SafetyManager (part_002, lines 424-563)

    The repository also carries an older copy of the class, behind the
    Kora parser and the alert manager in one file. It has no authority
    check and times idleness from [lastChecked]. It is kept here under its
    own name so that the difference with part_003 can be stated. *)

Module LegacySafety.

Definition checkIdleDuration (w : World.t) (pubkey : string) : SafetyCheckResult.t :=
  match DatabaseManager.getAccount pubkey (World.db w) with
  | None => Safety.allow
  | Some account =>
      match SponsoredAccount.lastChecked account with
      | None => Safety.allow
      | Some text =>
          let lastChecked := parseDate (World.rpc w) text in
          let daysSinceCheck := daysBetween (World.now w) lastChecked in
          let minIdleDays := SafetyConfig.minIdleDays (SafetyManager.config (World.safety w)) in
          if Qlt_bool daysSinceCheck (inject_Z minIdleDays)
          then Safety.deny (CheckedDaysAgo daysSinceCheck minIdleDays)
          else Safety.allow
      end
  end.

Definition checkAccount (w : World.t) (account : AccountStatus.t) : SafetyCheckResult.t :=
  if Safety.isWhitelisted w (AccountStatus.pubkey account) then Safety.deny AccountIsWhitelisted
  else if AccountStatus.executable account then Safety.deny ExecutableProgramAccount
  else if negb (AccountStatus.exists_ account) then Safety.deny AccountAlreadyClosed
  else
    let idleCheck := checkIdleDuration w (AccountStatus.pubkey account) in
    if negb (SafetyCheckResult.allowed idleCheck) then idleCheck
    else
      let limitCheck :=
        Safety.checkReclaimLimit (World.safety w) (AccountStatus.lamports account) in
      if negb (SafetyCheckResult.allowed limitCheck) then limitCheck
      else Safety.allow.

End LegacySafety.

(** ** Scanner (scanner.ts) *)

Module Scanner.

Definition with_db (f : Db.t -> Db.t) (w : World.t) : World.t :=
  World.mk (World.cfg w) (f (World.db w)) (World.safety w) (World.rpc w) (World.now w)
           (World.submitted w) (World.slept w) (World.logEntries w).

(** The scanner's own pre-check. Its third rule reads [lastChecked],
    through [new Date]. *)
Definition checkSafetyRules (w : World.t) (pubkey : string) (info : AccountInfo.t)
    : option SkipReason :=
  if DatabaseManager.isWhitelisted pubkey (World.db w)
     || ConfigManager.isWhitelisted pubkey (World.cfg w)
  then Some SkipWhitelisted
  else if AccountInfo.executable info then Some SkipExecutable
  else
    match DatabaseManager.getAccount pubkey (World.db w) with
    | Some account =>
        match SponsoredAccount.lastChecked account with
        | Some text =>
            let lastChecked := parseDate (World.rpc w) text in
            let daysSinceCheck := daysBetween (World.now w) lastChecked in
            if Qlt_bool daysSinceCheck (inject_Z (Config.minIdleDays (World.cfg w)))
            then Some (SkipActiveWithin (Config.minIdleDays (World.cfg w)))
            else None
        | None => None
        end
    | None => None
    end.

(** The status object as first built: nothing reclaimable yet. *)
Definition initialStatus (pubkey : string) (info : option AccountInfo.t) : AccountStatus.t :=
  AccountStatus.mk pubkey
    (bool_decide (is_Some info))
    (from_option AccountInfo.lamports 0 info)
    (AccountInfo.owner <$> info)
    (from_option AccountInfo.dataLength 0 info)
    (from_option AccountInfo.executable false info)
    false false None None false.

Definition set_skip (r : SkipReason) (s : AccountStatus.t) : AccountStatus.t :=
  AccountStatus.mk (AccountStatus.pubkey s) (AccountStatus.exists_ s) (AccountStatus.lamports s)
    (AccountStatus.owner s) (AccountStatus.dataLength s) (AccountStatus.executable s)
    (AccountStatus.isTokenAccount s) (AccountStatus.isReclaimable s) (Some r)
    (AccountStatus.closeAuthority s) (AccountStatus.operatorCanClose s).

Definition set_isTokenAccount (b : bool) (s : AccountStatus.t) : AccountStatus.t :=
  AccountStatus.mk (AccountStatus.pubkey s) (AccountStatus.exists_ s) (AccountStatus.lamports s)
    (AccountStatus.owner s) (AccountStatus.dataLength s) (AccountStatus.executable s)
    b (AccountStatus.isReclaimable s) (AccountStatus.skipReason s)
    (AccountStatus.closeAuthority s) (AccountStatus.operatorCanClose s).

(** Sets [closeAuthority], [operatorCanClose] and [isReclaimable] together,
    as both arms of the authority comparison do. *)
Definition set_authority (closeAuthority : string) (can : bool) (s : AccountStatus.t)
    : AccountStatus.t :=
  AccountStatus.mk (AccountStatus.pubkey s) (AccountStatus.exists_ s) (AccountStatus.lamports s)
    (AccountStatus.owner s) (AccountStatus.dataLength s) (AccountStatus.executable s)
    (AccountStatus.isTokenAccount s) can (AccountStatus.skipReason s)
    (Some closeAuthority) can.

(** [closeAuthorityOption === 1 ? closeAuthority : owner]. *)
Definition decodedCloseAuthority (d : RawAccount.t) : string :=
  if RawAccount.closeAuthorityOption d =? 1
  then RawAccount.closeAuthority d
  else RawAccount.owner d.

Definition analyzeAccount (pubkey : string) (info : option AccountInfo.t) (w : World.t)
    : AccountStatus.t * World.t :=
  let operatorPubkey := ConfigManager.operatorPublicKey (World.cfg w) in
  let status := initialStatus pubkey info in
  match info with
  | None =>
      (set_skip SkipAlreadyClosed status,
       with_db (DatabaseManager.updateAccountStatus (World.now w) pubkey closed (Some 0)) w)
  | Some info =>
      let status :=
        set_isTokenAccount (bool_decide (AccountInfo.owner info = TOKEN_PROGRAM_ID)) status in
      match checkSafetyRules w pubkey info with
      | Some skipReason => (set_skip skipReason status, w)
      | None =>
          if bool_decide (AccountInfo.owner info = SYSTEM_PROGRAM_ID) then
            (set_skip SkipSystemAccount status, w)
          else if AccountStatus.isTokenAccount status then
            match AccountInfo.decoded info with
            | Some decoded =>
                let closeAuthority := decodedCloseAuthority decoded in
                if bool_decide (operatorPubkey = Some closeAuthority) then
                  (set_authority closeAuthority true status,
                   with_db (fun d =>
                     DatabaseManager.updateAccountAuthority pubkey (Some closeAuthority) true
                       (DatabaseManager.markAsReclaimable (World.now w) pubkey d)) w)
                else
                  (set_skip (SkipNotCloseAuthority (substring 0 8 closeAuthority))
                     (set_authority closeAuthority false status),
                   with_db (fun d =>
                     DatabaseManager.updateAccountAuthority pubkey (Some closeAuthority) false
                       (DatabaseManager.clearReclaimableState pubkey d)) w)
            | None => (set_skip SkipDecodeFailed status, w)
            end
          else (set_skip SkipProgramOwned status, w)
      end
  end.

(** One step of [scanBatch]'s loop: analyse, then store status and balance
    (which also stamps [last_checked]). *)
Definition scanOne (pubkey : string) (info : option AccountInfo.t) (w : World.t)
    : AccountStatus.t * World.t :=
  let '(status, w1) := analyzeAccount pubkey info w in
  (status,
   with_db (match info with
            | None => DatabaseManager.updateAccountStatus (World.now w1) pubkey closed (Some 0)
            | Some i => DatabaseManager.updateAccountStatus (World.now w1) pubkey active
                          (Some (AccountInfo.lamports i))
            end) w1).

End Scanner.

(** ** Effects of the reclaim engine

    An [async] method is a function from the world to an outcome and a new
    world. A thrown exception keeps the effects made before it, which is
    what a [catch] block observes. *)

Inductive Outcome (A : Type) :=
| Returned (a : A)
| Threw (msg : string).
Arguments Returned {A} a.
Arguments Threw {A} msg.

Definition M (A : Type) : Type := World.t -> Outcome A * World.t.

Definition ret {A} (a : A) : M A := fun w => (Returned a, w).

Definition bind {A B} (m : M A) (k : A -> M B) : M B :=
  fun w =>
    match m w with
    | (Returned a, w') => k a w'
    | (Threw e, w') => (Threw e, w')
    end.

Definition throw {A} (msg : string) : M A := fun w => (Threw msg, w).

(** [try { m } catch (err) { h(err.message) }]. *)
Definition try_catch {A} (m : M A) (h : string -> M A) : M A :=
  fun w =>
    match m w with
    | (Returned a, w') => (Returned a, w')
    | (Threw e, w') => h e w'
    end.

Definition gets {A} (f : World.t -> A) : M A := fun w => (Returned (f w), w).
Definition modify (f : World.t -> World.t) : M unit := fun w => (Returned tt, f w).

Notation "x <- m ;; k" := (bind m (fun x => k))
  (at level 100, m at next level, right associativity).
Notation "m ;;; k" := (bind m (fun _ => k))
  (at level 100, right associativity).

(** ** ReclaimEngine (reclaim.ts) *)

Module Reclaim.

Definition MAX_RETRIES : Z := 3.
Definition RETRY_DELAY : Z := 1000.
Definition MAX_INSTRUCTIONS : nat := 10.

(** What [executeWithRetry] resolves to. *)
Record TxResult := mkTx {
  tx_success : bool;
  tx_signature : option string;
  tx_error : option string
}.

Definition with_safety (f : SafetyManager.t -> SafetyManager.t) (w : World.t) : World.t :=
  World.mk (World.cfg w) (World.db w) (f (World.safety w)) (World.rpc w) (World.now w)
           (World.submitted w) (World.slept w) (World.logEntries w).

(** [getOperatorKeypair]: throws what [loadOperatorKeypair] throws. *)
Definition getOperatorKeypair : M string :=
  fun w =>
    match Config.operatorKeypair (World.cfg w) with
    | inr pk => (Returned pk, w)
    | inl msg => (Threw msg, w)
    end.

(** [await this.delay(ms)]: time passes; the pause is remembered. *)
Definition delay (ms : Z) : M unit :=
  modify (fun w =>
    World.mk (World.cfg w) (World.db w) (World.safety w) (World.rpc w) (World.now w + ms)
             (World.submitted w) (World.slept w ++ [ms]) (World.logEntries w)).

Definition logEntry (pubkey : string) (status : LogStatus) (lamports : Z)
    (reason : option Reason) (txSig : option string) : M unit :=
  modify (fun w =>
    World.mk (World.cfg w) (World.db w) (World.safety w) (World.rpc w) (World.now w)
             (World.submitted w) (World.slept w)
             (World.logEntries w ++ [ReclaimLogEntry.mk pubkey status lamports reason txSig])).

(** [new PublicKey(s)]: throws on malformed input. *)
Definition newPublicKey (s : string) : M string :=
  fun w =>
    if Rpc.validKey (World.rpc w) s then (Returned s, w)
    else (Threw (Rpc.keyError (World.rpc w) s), w).

(** [sendAndConfirmTransaction]: the node answers; the attempt is recorded. *)
Definition sendAndConfirmTransaction (instructions : list Instruction) : M SendOutcome :=
  fun w =>
    (Returned (Rpc.sendAndConfirm (World.rpc w) (length (World.submitted w)) instructions),
     World.mk (World.cfg w) (World.db w) (World.safety w) (World.rpc w) (World.now w)
              (World.submitted w ++ [instructions]) (World.slept w) (World.logEntries w)).

Definition createCloseInstruction (account : AccountStatus.t) (authority destination : string)
    : M (option Instruction) :=
  accountPubkey <- newPublicKey (AccountStatus.pubkey account) ;;
  if AccountStatus.isTokenAccount account then
    tokenAccount <- gets (fun w =>
      Rpc.getAccount (World.rpc w) (length (World.submitted w)) accountPubkey) ;;
    match tokenAccount with
    | TokenAmount amount =>
        if 0 <? amount then ret None
        else ret (Some (CloseAccount accountPubkey destination authority))
    | TokenAccountNotFound => ret None
    | LookupFailed msg => throw msg
    end
  else if bool_decide (AccountStatus.owner account = Some SYSTEM_PROGRAM_ID) then
    ret (Some (SystemTransfer accountPubkey destination (AccountStatus.lamports account)))
  else ret None.

(** The [for (attempt = 1; attempt <= MAX_RETRIES; attempt++)] loop;
    [remaining] counts the iterations left. *)
Fixpoint retryLoop (remaining : nat) (attempt : Z) (instructions : list Instruction)
    : M TxResult :=
  match remaining with
  | O => ret (mkTx false None (Some "Max retries exceeded"))
  | S remaining' =>
      outcome <- sendAndConfirmTransaction instructions ;;
      match outcome with
      | Confirmed signature => ret (mkTx true (Some signature) None)
      | Rejected errMsg =>
          if attempt <? MAX_RETRIES then
            delay (RETRY_DELAY * 2 ^ (attempt - 1)) ;;;
            retryLoop remaining' (attempt + 1) instructions
          else ret (mkTx false None (Some errMsg))
      end
  end.

Definition executeWithRetry (instructions : list Instruction) : M TxResult :=
  retryLoop (Z.to_nat MAX_RETRIES) 1 instructions.

(** [accounts.slice(i, Math.min(i + maxPerBatch, accounts.length))] for
    [i = 0, maxPerBatch, 2 * maxPerBatch, ...] while [i < accounts.length]. *)
Fixpoint createBatchesFrom (fuel : nat) (accounts : list AccountStatus.t)
    (maxPerBatch i : nat) : list (list AccountStatus.t) :=
  match fuel with
  | O => []
  | S fuel' =>
      if (i <? length accounts)%nat then
        take (Nat.min (i + maxPerBatch) (length accounts) - i) (drop i accounts)
          :: createBatchesFrom fuel' accounts maxPerBatch (i + maxPerBatch)
      else []
  end.

Definition createBatches (accounts : list AccountStatus.t) (maxPerBatch : nat)
    : list (list AccountStatus.t) :=
  createBatchesFrom (length accounts) accounts maxPerBatch 0.

Definition emptyResult : BatchReclaimResult.t := BatchReclaimResult.mk [] [] 0.

Definition failure (pubkey : string) (error : option Reason) : ReclaimResult.t :=
  ReclaimResult.mk pubkey false 0 None error.

Definition push_failed (r : ReclaimResult.t) (result : BatchReclaimResult.t)
    : BatchReclaimResult.t :=
  BatchReclaimResult.mk (BatchReclaimResult.successful result)
    (BatchReclaimResult.failed result ++ [r])
    (BatchReclaimResult.totalLamportsReclaimed result).

(** [result.successful.push(r); result.totalLamportsReclaimed += lamports]. *)
Definition push_successful (r : ReclaimResult.t) (result : BatchReclaimResult.t)
    : BatchReclaimResult.t :=
  BatchReclaimResult.mk (BatchReclaimResult.successful result ++ [r])
    (BatchReclaimResult.failed result)
    (BatchReclaimResult.totalLamportsReclaimed result + ReclaimResult.lamportsReclaimed r).

(** The instruction list and the accounts that got one. *)
Record Pending := mkPending {
  instructions : list Instruction;
  accountsInTx : list AccountStatus.t
}.

(** Body of the first loop of [processBatch]: safety re-check, then one
    instruction for the account; an exception of [createCloseInstruction]
    is caught here, per account. *)
Definition buildStep (account : AccountStatus.t) (operator treasury : string)
    (result : BatchReclaimResult.t) (p : Pending) : M (BatchReclaimResult.t * Pending) :=
  safetyCheck <- gets (fun w => Safety.checkAccount w account) ;;
  if negb (SafetyCheckResult.allowed safetyCheck) then
    logEntry (AccountStatus.pubkey account) log_skipped 0
             (SafetyCheckResult.reason safetyCheck) None ;;;
    ret (push_failed (failure (AccountStatus.pubkey account)
                              (SafetyCheckResult.reason safetyCheck)) result, p)
  else
    try_catch
      (ix <- createCloseInstruction account operator treasury ;;
       match ix with
       | Some ix =>
           ret (result, mkPending (instructions p ++ [ix]) (accountsInTx p ++ [account]))
       | None =>
           ret (push_failed (failure (AccountStatus.pubkey account)
                                     (Some CouldNotCreateCloseInstruction)) result, p)
       end)
      (fun errMsg =>
         ret (push_failed (failure (AccountStatus.pubkey account)
                                   (Some (ErrorMessage errMsg))) result, p)).

(** [for (var account of accounts) { ... }]. *)
Fixpoint buildLoop (accounts : list AccountStatus.t) (operator treasury : string)
    (result : BatchReclaimResult.t) (p : Pending) : M (BatchReclaimResult.t * Pending) :=
  match accounts with
  | [] => ret (result, p)
  | account :: rest =>
      step <- buildStep account operator treasury result p ;;
      buildLoop rest operator treasury (fst step) (snd step)
  end.

(** Dry run: report, log with the 'DRY_RUN' marker, touch nothing else. *)
Fixpoint dryRunLoop (accs : list AccountStatus.t) (result : BatchReclaimResult.t)
    : M BatchReclaimResult.t :=
  match accs with
  | [] => ret result
  | acc :: rest =>
      logEntry (AccountStatus.pubkey acc) log_reclaimed (AccountStatus.lamports acc)
               None (Some "DRY_RUN") ;;;
      dryRunLoop rest
        (push_successful
           (ReclaimResult.mk (AccountStatus.pubkey acc) true (AccountStatus.lamports acc)
                             None None) result)
  end.

(** [txResult.signature || null]. *)
Definition orNull (s : option string) : option string :=
  match s with
  | Some v => if bool_decide (v = "") then None else Some v
  | None => None
  end.

(** After a confirmed transaction. *)
Fixpoint successLoop (accs : list AccountStatus.t) (signature : option string)
    (result : BatchReclaimResult.t) : M BatchReclaimResult.t :=
  match accs with
  | [] => ret result
  | acc :: rest =>
      modify (with_safety (Safety.recordReclaim (AccountStatus.lamports acc))) ;;;
      modify (fun w => Scanner.with_db
        (DatabaseManager.updateAccountStatus (World.now w) (AccountStatus.pubkey acc)
           reclaimed None) w) ;;;
      modify (fun w => Scanner.with_db
        (DatabaseManager.addReclaimHistory (World.now w) (AccountStatus.pubkey acc)
           (AccountStatus.lamports acc) h_success None (orNull signature)) w) ;;;
      logEntry (AccountStatus.pubkey acc) log_reclaimed (AccountStatus.lamports acc)
               None signature ;;;
      successLoop rest signature
        (push_successful
           (ReclaimResult.mk (AccountStatus.pubkey acc) true (AccountStatus.lamports acc)
                             signature None) result)
  end.

(** [txResult.error || 'Transaction failed']. *)
Definition historyReason (error : option string) : Reason :=
  match error with
  | Some e => if bool_decide (e = "") then TransactionFailed else ErrorMessage e
  | None => TransactionFailed
  end.

(** After the retries were exhausted. *)
Fixpoint failureLoop (accs : list AccountStatus.t) (error : option string)
    (result : BatchReclaimResult.t) : M BatchReclaimResult.t :=
  match accs with
  | [] => ret result
  | acc :: rest =>
      modify (fun w => Scanner.with_db
        (DatabaseManager.addReclaimHistory (World.now w) (AccountStatus.pubkey acc)
           0 h_failed (Some (historyReason error)) None) w) ;;;
      logEntry (AccountStatus.pubkey acc) log_failed 0 (ErrorMessage <$> error) None ;;;
      failureLoop rest error
        (push_failed (failure (AccountStatus.pubkey acc) (ErrorMessage <$> error)) result)
  end.

Definition processBatch (accounts : list AccountStatus.t) (treasury : string) (dryRun : bool)
    : M BatchReclaimResult.t :=
  operator <- getOperatorKeypair ;;
  built <- buildLoop accounts operator treasury emptyResult (mkPending [] []) ;;
  let '(result, p) := built in
  if (length (instructions p) =? 0)%nat then ret result
  else if dryRun then dryRunLoop (accountsInTx p) result
  else
    txResult <- executeWithRetry (instructions p) ;;
    if tx_success txResult
    then successLoop (accountsInTx p) (tx_signature txResult) result
    else failureLoop (accountsInTx p) (tx_error txResult) result.

(** [result.successful.push(...b.successful)], and so on. *)
Definition merge (result b : BatchReclaimResult.t) : BatchReclaimResult.t :=
  BatchReclaimResult.mk
    (BatchReclaimResult.successful result ++ BatchReclaimResult.successful b)
    (BatchReclaimResult.failed result ++ BatchReclaimResult.failed b)
    (BatchReclaimResult.totalLamportsReclaimed result
     + BatchReclaimResult.totalLamportsReclaimed b).

(** The [catch] arm of the batch loop: every account of the batch failed. *)
Definition failBatch (batch : list AccountStatus.t) (errorMsg : string)
    (result : BatchReclaimResult.t) : BatchReclaimResult.t :=
  BatchReclaimResult.mk (BatchReclaimResult.successful result)
    (BatchReclaimResult.failed result
     ++ map (fun account =>
               failure (AccountStatus.pubkey account) (Some (ErrorMessage errorMsg))) batch)
    (BatchReclaimResult.totalLamportsReclaimed result).

(** The loop over batches, with its [break] when the budget is used up. *)
Fixpoint batchesLoop (batches : list (list AccountStatus.t)) (treasury : string)
    (dryRun : bool) (result : BatchReclaimResult.t) : M BatchReclaimResult.t :=
  match batches with
  | [] => ret result
  | batch :: rest =>
      result' <- try_catch
        (batchResult <- processBatch batch treasury dryRun ;; ret (merge result batchResult))
        (fun errorMsg => ret (failBatch batch errorMsg result)) ;;
      remaining <- gets (fun w => Safety.getRemainingBudget (World.safety w)) ;;
      if (remaining <=? 0)%float then ret result'
      else batchesLoop rest treasury dryRun result'
  end.

Definition reclaimAccounts (accounts : list AccountStatus.t) : M BatchReclaimResult.t :=
  if (length accounts =? 0)%nat then ret emptyResult
  else
    dryRun <- gets (fun w => Config.dryRun (World.cfg w)) ;;
    treasuryAddr <- gets (fun w => Config.treasuryAddress (World.cfg w)) ;;
    if bool_decide (treasuryAddr = "") then throw "Treasury address not configured"
    else
      treasury <- newPublicKey treasuryAddr ;;
      batchesLoop (createBatches accounts MAX_INSTRUCTIONS) treasury dryRun emptyResult.

(** The status object [reclaimSingle] makes up. The literal has no
    [operatorCanClose] (read as falsy by the safety check), no
    [closeAuthority] and no [skipReason]. *)
Definition syntheticStatus (pubkey : string) : AccountStatus.t :=
  AccountStatus.mk pubkey true 0 None 0 false false true None None false.

Definition reclaimSingle (pubkey : string) : M ReclaimResult.t :=
  result <- reclaimAccounts [syntheticStatus pubkey] ;;
  match BatchReclaimResult.successful result with
  | r :: _ => ret r
  | [] =>
      match BatchReclaimResult.failed result with
      | r :: _ => ret r
      | [] => ret (ReclaimResult.mk pubkey false 0 None (Some (ErrorMessage "No result")))
      end
  end.

End Reclaim.

(** ** Dashboard (database.ts, second half) *)

Module Dashboard.

(** [getAuthorityBreakdown]: among the active rows, how many the operator
    can close and how many it cannot. *)
Definition getAuthorityBreakdown (d : Db.t) : nat * nat :=
  fold_left (fun '(canClose, cannotClose) acc =>
      match SponsoredAccount.status acc with
      | active =>
          if SponsoredAccount.operatorCanClose acc
          then (S canClose, cannotClose)
          else (canClose, S cannotClose)
      | _ => (canClose, cannotClose)
      end)
    (DatabaseManager.getAllAccounts d) (0%nat, 0%nat).

End Dashboard.

(** ** The node as the scanner reads it

    [config.connection]: what [getAccountInfo] and
    [getMultipleAccountsInfo] answer, [inl msg] standing for a rejected
    promise. One scan asks about each list of keys once, so the answers are
    taken as functions of the request. *)
Module Connection.
Record t := mk {
  getAccountInfo : string -> string + option AccountInfo.t;
  getMultipleAccountsInfo : list string -> string + list (option AccountInfo.t)
}.
End Connection.

(** scanner.ts, interface ScanResult. *)
Module ScanResult.
Record t := mk {
  total : nat;
  reclaimable : list AccountStatus.t;
  skipped : list AccountStatus.t;
  errors : list string
}.
End ScanResult.

(** ** Scanner (scanner.ts): the scan run *)

Module Scan.

(** The two private fields of the Scanner object, copied from
    [config.rpcDelayMs] and [config.batchSize] when it is built. *)
Record Self := mkSelf { rateLimitDelay : Z; batchSize : Z }.

(** The status pushed when an account could not be fetched. *)
Definition failedStatus (pubkey : string) : AccountStatus.t :=
  AccountStatus.mk pubkey false 0 None 0 false false false (Some SkipFetchFailed) None false.

Definition analyzeAccount (pubkey : string) (info : option AccountInfo.t) : M AccountStatus.t :=
  fun w => let '(status, w') := Scanner.analyzeAccount pubkey info w in (Returned status, w').

Definition getAccountInfo (conn : Connection.t) (publicKey : string)
    : M (option AccountInfo.t) :=
  fun w =>
    match Connection.getAccountInfo conn publicKey with
    | inr info => (Returned info, w)
    | inl msg => (Threw msg, w)
    end.

Definition getMultipleAccountsInfo (conn : Connection.t) (pubkeys : list string)
    : M (list (option AccountInfo.t)) :=
  fun w =>
    match Connection.getMultipleAccountsInfo conn pubkeys with
    | inr infos => (Returned infos, w)
    | inl msg => (Threw msg, w)
    end.

(** [this.delay(ms)]; [setTimeout] takes a negative delay as none. *)
Definition delay (ms : Z) : M unit := Reclaim.delay (Z.max 0 ms).

(** [scanSingleAccount]: whatever goes wrong is caught and reported as a
    failed status. *)
Definition scanSingleAccount (conn : Connection.t) (pubkey : string) : M AccountStatus.t :=
  try_catch
    (publicKey <- Reclaim.newPublicKey pubkey ;;
     info <- getAccountInfo conn publicKey ;;
     analyzeAccount pubkey info)
    (fun _ => ret (failedStatus pubkey)).

(** [accounts.map(a => new PublicKey(a.pubkey))]. *)
Fixpoint newPublicKeys (keys : list string) : M (list string) :=
  match keys with
  | [] => ret []
  | key :: rest =>
      publicKey <- Reclaim.newPublicKey key ;;
      publicKeys <- newPublicKeys rest ;;
      ret (publicKey :: publicKeys)
  end.

Definition set_exists (b : bool) (s : AccountStatus.t) : AccountStatus.t :=
  AccountStatus.mk (AccountStatus.pubkey s) b (AccountStatus.lamports s)
    (AccountStatus.owner s) (AccountStatus.dataLength s) (AccountStatus.executable s)
    (AccountStatus.isTokenAccount s) (AccountStatus.isReclaimable s) (AccountStatus.skipReason s)
    (AccountStatus.closeAuthority s) (AccountStatus.operatorCanClose s).

(** One iteration of the loop over a fetched batch, for [accountInfos[i]].
    An index past the end of the answer reads [undefined], which
    [analyzeAccount] and the update that follows treat as [null], except
    that [info !== null] holds of it. *)
Definition scanEntry (pubkey : string) (info : option (option AccountInfo.t))
    : M AccountStatus.t :=
  fun w =>
    match info with
    | Some info =>
        let '(status, w') := Scanner.scanOne pubkey info w in (Returned status, w')
    | None =>
        let '(status, w') := Scanner.scanOne pubkey None w in
        (Returned (set_exists true status), w')
    end.

(** [for (let i = 0; i < accounts.length; i++)] over the fetched batch. *)
Fixpoint bulkLoop (accounts : list SponsoredAccount.t)
    (accountInfos : list (option AccountInfo.t)) (i : nat) (statuses : list AccountStatus.t)
    : M (list AccountStatus.t) :=
  match accounts with
  | [] => ret statuses
  | account :: rest =>
      status <- scanEntry (SponsoredAccount.pubkey account) (accountInfos !! i) ;;
      bulkLoop rest accountInfos (S i) (statuses ++ [status])
  end.

(** The fallback to single fetches. *)
Fixpoint fallbackLoop (conn : Connection.t) (accounts : list SponsoredAccount.t)
    (statuses : list AccountStatus.t) : M (list AccountStatus.t) :=
  match accounts with
  | [] => ret statuses
  | account :: rest =>
      status <- try_catch (scanSingleAccount conn (SponsoredAccount.pubkey account))
                  (fun _ => ret (failedStatus (SponsoredAccount.pubkey account))) ;;
      fallbackLoop conn rest (statuses ++ [status])
  end.

(** [scanBatch]. The keys are converted before the [try]; the only step of
    the [try] block that can fail is the fetch, before any status was
    pushed, so the fallback starts from the empty list. *)
Definition scanBatch (conn : Connection.t) (accounts : list SponsoredAccount.t)
    : M (list AccountStatus.t) :=
  pubkeys <- newPublicKeys (map SponsoredAccount.pubkey accounts) ;;
  try_catch
    (accountInfos <- getMultipleAccountsInfo conn pubkeys ;;
     bulkLoop accounts accountInfos 0 [])
    (fun _ => fallbackLoop conn accounts []).

(** [Array.prototype.slice(start, end)], negative indices counting from
    the end. *)
Definition slice {A} (start end_ : Z) (l : list A) : list A :=
  let len := Z.of_nat (length l) in
  let k := if start <? 0 then Z.max (len + start) 0 else Z.min start len in
  let final := if end_ <? 0 then Z.max (len + end_) 0 else Z.min end_ len in
  take (Z.to_nat (final - k)) (drop (Z.to_nat k) l).

Definition push_status (status : AccountStatus.t) (result : ScanResult.t) : ScanResult.t :=
  if AccountStatus.isReclaimable status
  then ScanResult.mk (ScanResult.total result) (ScanResult.reclaimable result ++ [status])
         (ScanResult.skipped result) (ScanResult.errors result)
  else ScanResult.mk (ScanResult.total result) (ScanResult.reclaimable result)
         (ScanResult.skipped result ++ [status]) (ScanResult.errors result).

(** [for (var status of batchResults) { ... }]. *)
Definition classify (batchResults : list AccountStatus.t) (result : ScanResult.t)
    : ScanResult.t :=
  fold_left (fun result status => push_status status result) batchResults result.

Definition push_error (msg : string) (result : ScanResult.t) : ScanResult.t :=
  ScanResult.mk (ScanResult.total result) (ScanResult.reclaimable result)
    (ScanResult.skipped result) (ScanResult.errors result ++ [msg]).

(** The loop of [scanAccounts], [for (let i = 0; i < accounts.length;
    i += this.batchSize)]. [fuel] bounds the number of iterations; [None]
    is returned when it is used up before the loop condition fails. *)
Fixpoint scanLoop (fuel : nat) (self : Self) (conn : Connection.t)
    (accounts : list SponsoredAccount.t) (i : Z) (result : ScanResult.t)
    : M (option ScanResult.t) :=
  if i <? Z.of_nat (length accounts) then
    match fuel with
    | O => ret None
    | S fuel' =>
        let batch :=
          slice i (Z.min (i + batchSize self) (Z.of_nat (length accounts))) accounts in
        result' <- try_catch
          (batchResults <- scanBatch conn batch ;; ret (classify batchResults result))
          (fun errorMsg => ret (push_error (String.append "Batch error: " errorMsg) result)) ;;
        delay (rateLimitDelay self) ;;;
        scanLoop fuel' self conn accounts (i + batchSize self) result'
    end
  else ret (Some result).

Definition scanAccounts (fuel : nat) (self : Self) (conn : Connection.t)
    : M (option ScanResult.t) :=
  accounts <- gets (fun w => DatabaseManager.getActiveAccounts (World.db w)) ;;
  scanLoop fuel self conn accounts 0 (ScanResult.mk (length accounts) [] [] []).

End Scan.

(** ** KoraParser (part_002, first part) *)

(** An entry of the imported JSON array (interface ImportedAccount); a
    field that is absent is [None]. *)
(** An object of the imported array. A field is a string, or is absent
    or null ([None]); a field holding a JSON value of another type is not
    represented. *)
Module ImportedAccount.
Record t := mk {
  pubkey : option string;
  programOwner : option string;
  sponsorSignature : option string;
  createdAt : option string
}.
End ImportedAccount.

(** An entry of the imported array: [null], a value that is not an object
    with fields of its own (a boolean, a number, a string, an array), or an
    object. *)
Inductive JsonEntry :=
| EntryNull
| EntryScalar
| EntryObject (item : ImportedAccount.t).

(** What [importFromFile] finds at the path it is given. *)
Inductive ImportFile :=
| FileMissing (absolutePath : string)
| FileNotJson
| FileNotArray
| FileArray (data : list JsonEntry).

Module Kora.

(** The row built for a key that enters the store by import, by discovery
    or by hand. *)
Definition newRow (pubkey : string) (programOwner sponsorSignature : option string)
    (lamports : Z) (createdAt : string) : SponsoredAccount.t :=
  SponsoredAccount.mk pubkey programOwner sponsorSignature lamports createdAt None active
    None None false.

(** [item.createdAt || now]. *)
Definition orElse (s : option string) (default : string) : string :=
  match s with
  | Some v => if bool_decide (v = "") then default else v
  | None => default
  end.

(** [item.pubkey] where [item] is [null]: a TypeError, with the message
    of the engine. *)
Definition NULL_ENTRY : string := "Cannot read properties of null (reading 'pubkey')".

(** The loop of [importFromFile] over the entries; [nowIso] is
    [new Date().toISOString()]. Reading [item.pubkey] is outside any [try]:
    on a [null] entry the loop is left by the TypeError. On a value that is
    not an object the property is [undefined] and the entry is skipped. *)
Fixpoint importLoop (data : list JsonEntry) (nowIso : string)
    (accounts : list SponsoredAccount.t) : M (list SponsoredAccount.t) :=
  match data with
  | [] => ret accounts
  | EntryNull :: _ => throw NULL_ENTRY
  | EntryScalar :: rest => importLoop rest nowIso accounts
  | EntryObject item :: rest =>
      match Reclaim.orNull (ImportedAccount.pubkey item) with
      | None => importLoop rest nowIso accounts
      | Some pubkey =>
          valid <- try_catch (Reclaim.newPublicKey pubkey ;;; ret true)
                     (fun _ => ret false) ;;
          if valid : bool then
            importLoop rest nowIso
              (accounts ++ [newRow pubkey
                              (Reclaim.orNull (ImportedAccount.programOwner item))
                              (Reclaim.orNull (ImportedAccount.sponsorSignature item))
                              0 (orElse (ImportedAccount.createdAt item) nowIso)])
          else importLoop rest nowIso accounts
      end
  end.

Definition importFromFile (file : ImportFile) (nowIso : string) : M nat :=
  match file with
  | FileMissing absolutePath => throw (String.append "File not found: " absolutePath)
  | FileNotJson => throw "Invalid JSON file format"
  | FileNotArray => throw "JSON file must contain an array of accounts"
  | FileArray data =>
      accounts <- importLoop data nowIso [] ;;
      (if (0 <? length accounts)%nat
       then modify (Scanner.with_db (DatabaseManager.addAccountsBatch accounts))
       else ret tt) ;;;
      ret (length accounts)
  end.

(** [addAccount]: one key, added by hand. *)
Definition addAccount (pubkey : string) (programOwner sponsorSig : option string)
    (nowIso : string) : M unit :=
  try_catch (Reclaim.newPublicKey pubkey ;;; ret tt)
    (fun _ => throw (String.append "Invalid pubkey format: " pubkey)) ;;;
  modify (Scanner.with_db
    (DatabaseManager.addAccount
       (newRow pubkey (Reclaim.orNull programOwner) (Reclaim.orNull sponsorSig) 0 nowIso))).

(** [getStats]: the counts and the balance over all rows. *)
Definition getStats (d : Db.t) : DatabaseManager.AccountCount * Z :=
  (DatabaseManager.getAccountCount d,
   fold_left (fun sum a => sum + SponsoredAccount.lamports a)
     (DatabaseManager.getAllAccounts d) 0).

End Kora.

(** ** The scheduled run (index.ts, command [cron]) *)

Module Cli.

(** The callback of [cron.schedule]: reset the run counter, scan, filter
    the reclaimable accounts through the gate and hand the safe ones to
    the engine; any exception is caught and reported. The alerts sent at
    the end go to Telegram and are left out. [fuel] bounds the loop of the
    scan; [None] tells that it was used up. *)
Definition scheduledRun (fuel : nat) (self : Scan.Self) (conn : Connection.t)
    : M (option unit) :=
  modify (Reclaim.with_safety Safety.resetRunState) ;;;
  try_catch
    (scanResult <- Scan.scanAccounts fuel self conn ;;
     match scanResult with
     | None => ret None
     | Some scanResult =>
         safe <- gets (fun w =>
           fst (Safety.filterSafeAccounts w (ScanResult.reclaimable scanResult))) ;;
         if (0 <? length safe)%nat then
           Reclaim.reclaimAccounts safe ;;; ret (Some tt)
         else ret (Some tt)
     end)
    (fun _ => ret (Some tt)).

End Cli.

(** ** Vocabulary of the statements *)

(** Two worlds that differ at most in the reclaim log of the logger. *)
Definition same_but_log (w w' : World.t) : Prop :=
  World.cfg w' = World.cfg w /\ World.db w' = World.db w
  /\ World.safety w' = World.safety w /\ World.rpc w' = World.rpc w
  /\ World.now w' = World.now w /\ World.submitted w' = World.submitted w
  /\ World.slept w' = World.slept w.

(** Total of the observed balances of a list of accounts. *)
Definition sumLamports (accs : list AccountStatus.t) : Z :=
  fold_right Z.add 0 (map AccountStatus.lamports accs).

(** The success record of an account, with the signature it carries. *)
Definition reclaimedRecord (signature : option string) (acc : AccountStatus.t)
    : ReclaimResult.t :=
  ReclaimResult.mk (AccountStatus.pubkey acc) true (AccountStatus.lamports acc) signature None.

(** The failure record of an account after the retries ran out. *)
Definition failedRecord (error : option string) (acc : AccountStatus.t) : ReclaimResult.t :=
  Reclaim.failure (AccountStatus.pubkey acc) (ErrorMessage <$> error).

(** Public keys of all outcome records of a result. *)
Definition recordedKeys (res : BatchReclaimResult.t) : list string :=
  map ReclaimResult.pubkey (BatchReclaimResult.successful res ++ BatchReclaimResult.failed res).

(** The world after one submission, and after one pause. *)
Definition after_submit (instructions : list Instruction) (w : World.t) : World.t :=
  World.mk (World.cfg w) (World.db w) (World.safety w) (World.rpc w) (World.now w)
           (World.submitted w ++ [instructions]) (World.slept w) (World.logEntries w).

Definition after_delay (ms : Z) (w : World.t) : World.t :=
  World.mk (World.cfg w) (World.db w) (World.safety w) (World.rpc w) (World.now w + ms)
           (World.submitted w) (World.slept w ++ [ms]) (World.logEntries w).

(** Shape of the two kinds of outcome record. *)
Definition success_record (x : ReclaimResult.t) : Prop :=
  ReclaimResult.success x = true /\ ReclaimResult.error x = None.

Definition failure_record (x : ReclaimResult.t) : Prop :=
  ReclaimResult.success x = false /\ ReclaimResult.lamportsReclaimed x = 0
  /\ is_Some (ReclaimResult.error x).

Definition well_formed_result (res : BatchReclaimResult.t) : Prop :=
  Forall success_record (BatchReclaimResult.successful res)
  /\ Forall failure_record (BatchReclaimResult.failed res).

(** ** Sample worlds

    Concrete configurations, stores and nodes on which the statements
    below are exercised. *)

Module Sample.

Definition operator : string := "OperatorKey".
Definition stranger : string := "StrangerKey".
Definition treasury : string := "TreasuryKey".

Definition sol (n : Z) : Z := n * LAMPORTS_PER_SOL.

(** Day 20000 after the epoch, in milliseconds. *)
Definition today : Z := 20000 * MS_PER_DAY.

(** MIN_IDLE_DAYS=7, MAX_RECLAIM_SOL_PER_RUN=10, devnet. *)
Definition config (dryRun : bool) : Config.t :=
  Config.mk treasury (inr operator) 7 10%float 100 dryRun false ∅.

(** The same with MAX_RECLAIM_SOL_PER_RUN=0.3, of which [parseFloat]
    makes the double nearest to three tenths. *)
Definition tightConfig : Config.t :=
  Config.mk treasury (inr operator) 7 0x1.3333333333333p-2 100 false false ∅.

(** The same as [config false], TREASURY_ADDRESS left unset. *)
Definition unconfigured : Config.t :=
  Config.mk "" (inr operator) 7 10%float 100 false false ∅.

Definition emptyDb : Db.t := Db.mk ∅ [] ∅.

(** A tracked row, as imported and then scanned. *)
Definition row (pubkey : string) (lastChecked reclaimableSince : option Z) (can : bool)
    : SponsoredAccount.t :=
  SponsoredAccount.mk pubkey None None 0 "2024-01-01T00:00:00.000Z" lastChecked active
    reclaimableSince (Some operator) can.

Definition dbWith (r : SponsoredAccount.t) : Db.t :=
  Db.mk {[ SponsoredAccount.pubkey r := r ]} [] ∅.

(** The message of [new PublicKey] for a string of the wrong length. *)
Definition keyError (s : string) : string := "Invalid public key input".

(** The zone of a host in UTC, of one in Asia/Tokyo (nine hours ahead)
    and of one in America/Bogota (five hours behind). *)
Definition utc (local : Z) : Z := 0.

(** A node on which every token account is empty and every submission
    is confirmed at once, seen from a host in the given zone. *)
Definition goodNodeIn (zone : Z -> Z) : Rpc.t :=
  Rpc.mk (fun _ _ => TokenAmount 0) (fun _ _ => Confirmed "sig-1") (fun _ => true)
         keyError zone.

Definition goodNode : Rpc.t := goodNodeIn utc.


(** A node that rejects everything. *)
Definition deadNode : Rpc.t :=
  Rpc.mk (fun _ _ => TokenAmount 0)
         (fun n _ => match n with
                     | O => Rejected "timeout"
                     | S O => Rejected "blockhash expired"
                     | _ => Rejected "node is behind"
                     end)
         (fun _ => true) keyError utc.

Definition world (c : Config.t) (d : Db.t) (node : Rpc.t) : World.t :=
  World.mk c d (Safety.create c) node today [] [] [].


(** An empty token account the operator may close. *)
Definition token (pubkey : string) (lamports : Z) : AccountStatus.t :=
  AccountStatus.mk pubkey true lamports (Some TOKEN_PROGRAM_ID) 165 false true true None
    (Some operator) true.

(** The same, closable by somebody else only. *)
Definition foreign (pubkey : string) (lamports : Z) : AccountStatus.t :=
  AccountStatus.mk pubkey true lamports (Some TOKEN_PROGRAM_ID) 165 false true false None
    (Some stranger) false.

(** Token account data whose close authority is set to [authority]. *)
Definition tokenInfo (authority : string) : AccountInfo.t :=
  AccountInfo.mk 2039280 TOKEN_PROGRAM_ID 165
    (Some (RawAccount.mk stranger 0 1 authority)) false.

(** Token account data without close authority, owned by [owner]. *)
Definition tokenInfoNoAuthority (owner : string) : AccountInfo.t :=
  AccountInfo.mk 2039280 TOKEN_PROGRAM_ID 165
    (Some (RawAccount.mk owner 0 0 "")) false.

Definition eleven : list AccountStatus.t :=
  map (fun pk => token pk (sol 1))
    ["a01"; "a02"; "a03"; "a04"; "a05"; "a06"; "a07"; "a08"; "a09"; "a10"; "a11"].

End Sample.

(** Total of the amounts credited by a list of outcome records. *)
Definition sumReclaimed (records : list ReclaimResult.t) : Z :=
  fold_right Z.add 0 (map ReclaimResult.lamportsReclaimed records).

(** The record carries the signature of a confirmed transaction. *)
Definition signed_record (x : ReclaimResult.t) : Prop :=
  is_Some (ReclaimResult.txSignature x).

(** How SQLite reads the body of a string literal, from just after the
    opening quote: up to the first single quote that is not followed by
    another one, a doubled quote standing for one quote. The result is the
    value of the literal and the text after its closing quote; [None] when
    the literal is not closed. *)
Fixpoint readLiteral (s : string) : option (string * string) :=
  match s with
  | EmptyString => None
  | String c rest =>
      if Ascii.eqb c DatabaseManager.QUOTE then
        match rest with
        | String c' rest' =>
            if Ascii.eqb c' DatabaseManager.QUOTE
            then match readLiteral rest' with
                 | Some (v, tail) => Some (String DatabaseManager.QUOTE v, tail)
                 | None => None
                 end
            else Some (EmptyString, rest)
        | EmptyString => Some (EmptyString, EmptyString)
        end
      else match readLiteral rest with
           | Some (v, tail) => Some (String c v, tail)
           | None => None
           end
  end.

(** The string holds no single quote. *)
Fixpoint quoteFree (s : string) : bool :=
  match s with
  | EmptyString => true
  | String c rest => negb (Ascii.eqb c DatabaseManager.QUOTE) && quoteFree rest
  end.

(** The instruction [createCloseInstruction] builds for an account: a
    token-program close for a token account, a transfer of the whole
    balance for an account of the system program. *)
Definition instructionFor (operator treasury : string) (account : AccountStatus.t)
    (ix : Instruction) : Prop :=
  (AccountStatus.isTokenAccount account = true
   /\ ix = CloseAccount (AccountStatus.pubkey account) treasury operator)
  \/ (AccountStatus.isTokenAccount account = false
      /\ AccountStatus.owner account = Some SYSTEM_PROGRAM_ID
      /\ ix = SystemTransfer (AccountStatus.pubkey account) treasury
                (AccountStatus.lamports account)).

(** A row after [updateAccountStatus(pubkey, 'reclaimed')] at time [now]. *)
Definition reclaimedRow (now : Z) (r : SponsoredAccount.t) : SponsoredAccount.t :=
  SponsoredAccount.mk
    (SponsoredAccount.pubkey r) (SponsoredAccount.programOwner r)
    (SponsoredAccount.sponsorSignature r) (SponsoredAccount.lamports r)
    (SponsoredAccount.createdAt r) (Some (DatabaseManager.datetime now)) reclaimed
    (SponsoredAccount.reclaimableSince r) (SponsoredAccount.closeAuthority r)
    (SponsoredAccount.operatorCanClose r).

(** Every row is stored under its own [pubkey] column. *)
Definition keyed_by_pubkey (d : Db.t) : Prop :=
  forall k r, DatabaseManager.getAccount k d = Some r -> SponsoredAccount.pubkey r = k.

(** What the first loop of [processBatch] is to make of one account of a
    batch, in a world [w] and for the keys [operator] and [treasury]: the
    instruction, when the gate allows the account and
    [createCloseInstruction] returns one. *)
Definition buildable (w : World.t) (operator treasury : string) (account : AccountStatus.t)
    : option Instruction :=
  if SafetyCheckResult.allowed (Safety.checkAccount w account) then
    match fst (Reclaim.createCloseInstruction account operator treasury w) with
    | Returned (Some ix) => Some ix
    | _ => None
    end
  else None.

Definition isBuildable (w : World.t) (operator treasury : string) (account : AccountStatus.t)
    : bool :=
  match buildable w operator treasury account with Some _ => true | None => false end.

(** The failure record of an account that gets no instruction: the reason
    of the gate when it denies, the message of the exception when
    [createCloseInstruction] throws, 'Could not create close instruction'
    when it returns null. *)
Definition buildFailure (w : World.t) (operator treasury : string)
    (account : AccountStatus.t) : ReclaimResult.t :=
  Reclaim.failure (AccountStatus.pubkey account)
    (if SafetyCheckResult.allowed (Safety.checkAccount w account) then
       match fst (Reclaim.createCloseInstruction account operator treasury w) with
       | Threw errMsg => Some (ErrorMessage errMsg)
       | Returned _ => Some CouldNotCreateCloseInstruction
       end
     else SafetyCheckResult.reason (Safety.checkAccount w account)).

(** The log line of an account the gate denies. *)
Definition skippedLine (w : World.t) (account : AccountStatus.t) : ReclaimLogEntry.t :=
  ReclaimLogEntry.mk (AccountStatus.pubkey account) log_skipped 0
    (SafetyCheckResult.reason (Safety.checkAccount w account)) None.

(** The log line of an account reported by a dry run. *)
Definition dryRunLine (account : AccountStatus.t) : ReclaimLogEntry.t :=
  ReclaimLogEntry.mk (AccountStatus.pubkey account) log_reclaimed
    (AccountStatus.lamports account) None (Some "DRY_RUN").

(** The accounts of a batch that get an instruction, their instructions,
    the failure records of the others and the log lines of the denied
    ones, each in the order of the batch. *)
Definition builtAccounts (w : World.t) (operator treasury : string)
    (batch : list AccountStatus.t) : list AccountStatus.t :=
  List.filter (isBuildable w operator treasury) batch.

Definition builtInstructions (w : World.t) (operator treasury : string)
    (batch : list AccountStatus.t) : list Instruction :=
  omap (buildable w operator treasury) batch.

Definition buildFailures (w : World.t) (operator treasury : string)
    (batch : list AccountStatus.t) : list ReclaimResult.t :=
  map (buildFailure w operator treasury)
    (List.filter (fun account => negb (isBuildable w operator treasury account)) batch).

Definition skippedLines (w : World.t) (batch : list AccountStatus.t)
    : list ReclaimLogEntry.t :=
  map (skippedLine w)
    (List.filter (fun account =>
                    negb (SafetyCheckResult.allowed (Safety.checkAccount w account))) batch).

(** What links an account of the transaction to its instruction. *)
Definition built_in (w : World.t) (operator treasury : string)
    (batch : list AccountStatus.t) (a : AccountStatus.t) (ix : Instruction) : Prop :=
  In a batch
  /\ SafetyCheckResult.allowed (Safety.checkAccount w a) = true
  /\ fst (Reclaim.createCloseInstruction a operator treasury w) = Returned (Some ix).

(** What a run of the reclaim engine leaves as it was between two of its
    states: the configuration, the node, the limits of the safety manager,
    the whitelist and the idle clock of every row; time does not go
    back. *)
Definition run_frame (w w' : World.t) : Prop :=
  World.cfg w' = World.cfg w
  /\ World.rpc w' = World.rpc w
  /\ SafetyManager.config (World.safety w') = SafetyManager.config (World.safety w)
  /\ Db.whitelist (World.db w') = Db.whitelist (World.db w)
  /\ (forall k, SponsoredAccount.reclaimableSince <$> DatabaseManager.getAccount k (World.db w')
                = SponsoredAccount.reclaimableSince <$> DatabaseManager.getAccount k (World.db w))
  /\ World.now w <= World.now w'.

(** [ix] was built for an account of [accounts] that the gate allowed, in
    a state [wb] of the run that began in [w0], at a time not after
    [tmax]. *)
Definition sent_for (w0 : World.t) (treasury : string) (accounts : list AccountStatus.t)
    (tmax : Z) (ix : Instruction) : Prop :=
  exists a wb operator,
    In a accounts
    /\ run_frame w0 wb
    /\ World.now wb <= tmax
    /\ Config.operatorKeypair (World.cfg wb) = inr operator
    /\ SafetyCheckResult.allowed (Safety.checkAccount wb a) = true
    /\ fst (Reclaim.createCloseInstruction a operator treasury wb) = Returned (Some ix).

(** An instruction the engine may submit for [accounts] from world [w]:
    it closes one of the accounts, by the operator and towards the
    treasury, and that account has the operator as close authority, is not
    whitelisted, is not a program, exists, has a well-formed key, and, when
    it is a token account, was reported by the node with a zero token
    balance. *)
Definition approved_instruction (w : World.t) (accounts : list AccountStatus.t)
    (ix : Instruction) : Prop :=
  exists a operator,
    In a accounts
    /\ Config.operatorKeypair (World.cfg w) = inr operator
    /\ instructionFor operator (Config.treasuryAddress (World.cfg w)) a ix
    /\ AccountStatus.operatorCanClose a = true
    /\ Safety.isWhitelisted w (AccountStatus.pubkey a) = false
    /\ AccountStatus.executable a = false
    /\ AccountStatus.exists_ a = true
    /\ Rpc.validKey (World.rpc w) (AccountStatus.pubkey a) = true
    /\ (AccountStatus.isTokenAccount a = true ->
        exists n amount,
          Rpc.getAccount (World.rpc w) n (AccountStatus.pubkey a) = TokenAmount amount
          /\ amount <= 0).

(** The row of [pubkey], if there is one, has its idle clock set, and at
    time [tmax] the minimum idle time has passed since the instant the
    host reads from the stamp. *)
Definition idle_long_enough (w : World.t) (tmax : Z) (pubkey : string) : Prop :=
  match DatabaseManager.getAccount pubkey (World.db w) with
  | None => True
  | Some r =>
      exists since,
        SponsoredAccount.reclaimableSince r = Some since
        /\ parseDate (World.rpc w) since
           + SafetyConfig.minIdleDays (SafetyManager.config (World.safety w)) * MS_PER_DAY
           <= tmax
  end.

(** The first key of the list that [new PublicKey] refuses. *)
Definition firstRefused (rpc : Rpc.t) (keys : list string) : option string :=
  List.find (fun key => negb (Rpc.validKey rpc key)) keys.

(** The zone of the host is one of the zones in use: from twelve hours
    behind UTC to fourteen hours ahead. *)
Definition real_zone (rpc : Rpc.t) : Prop :=
  forall text, - (12 * 3600000) <= Rpc.localOffset rpc text <= 14 * 3600000.

(** The transactions submitted between two states. *)
Definition submitted_since (w w' : World.t) : list (list Instruction) :=
  drop (length (World.submitted w)) (World.submitted w').

(** The world with its clock set to [t]. *)
Definition at_time (t : Z) (w : World.t) : World.t :=
  World.mk (World.cfg w) (World.db w) (World.safety w) (World.rpc w) t
           (World.submitted w) (World.slept w) (World.logEntries w).

(** Successive visits of one key by the scanner's loop: at each of the
    given times, one [scanOne] with what the node answers then. *)
Fixpoint scansAt (pubkey : string) (visits : list (Z * option AccountInfo.t)) (w : World.t)
    : list AccountStatus.t * World.t :=
  match visits with
  | [] => ([], w)
  | (t, info) :: rest =>
      let '(status, w1) := Scanner.scanOne pubkey info (at_time t w) in
      let '(statuses, w2) := scansAt pubkey rest w1 in
      (status :: statuses, w2)
  end.

(** Each scan comes less than [limit] after the instant the host reads
    from the stamp that the scan before it left, [stamp] being the one the
    first scan finds. *)
Fixpoint closely_spaced (rpc : Rpc.t) (limit stamp : Z) (times : list Z) : Prop :=
  match times with
  | [] => True
  | t :: rest =>
      t - parseDate rpc stamp < limit
      /\ closely_spaced rpc limit (DatabaseManager.datetime t) rest
  end.

(** The node answered [i] for [pubkey], to a single fetch or as the entry
    of a bulk fetch that stands at the place of [pubkey]. *)
Definition reported (conn : Connection.t) (pubkey : string) (i : AccountInfo.t) : Prop :=
  Connection.getAccountInfo conn pubkey = inr (Some i)
  \/ exists keys infos idx,
       Connection.getMultipleAccountsInfo conn keys = inr infos
       /\ keys !! idx = Some pubkey
       /\ infos !! idx = Some (Some i).

(** What every status made by the scanner for [pubkey] satisfies, in a
    world with the configuration and the whitelists of [w]: when it is
    reclaimable, the node reported for the key the data of a token account
    whose close authority is the operator's key. *)
Definition scanned (conn : Connection.t) (w : World.t) (pubkey : string)
    (s : AccountStatus.t) : Prop :=
  AccountStatus.pubkey s = pubkey
  /\ AccountStatus.isReclaimable s = AccountStatus.operatorCanClose s
  /\ (AccountStatus.isReclaimable s = true ->
      AccountStatus.exists_ s = true
      /\ AccountStatus.executable s = false
      /\ AccountStatus.isTokenAccount s = true
      /\ is_Some (AccountStatus.closeAuthority s)
      /\ AccountStatus.closeAuthority s = ConfigManager.operatorPublicKey (World.cfg w)
      /\ Safety.isWhitelisted w pubkey = false)
  /\ (AccountStatus.isReclaimable s = false -> is_Some (AccountStatus.skipReason s))
  /\ (AccountStatus.isReclaimable s = true ->
      exists i decoded,
        reported conn pubkey i
        /\ AccountInfo.owner i = TOKEN_PROGRAM_ID
        /\ AccountInfo.decoded i = Some decoded
        /\ ConfigManager.operatorPublicKey (World.cfg w)
           = Some (Scanner.decodedCloseAuthority decoded)
        /\ AccountStatus.lamports s = AccountInfo.lamports i).

(** What scanning leaves as it was: everything but the clock, the pauses
    and the rows of the keys in [keys]; no row is added or removed, time
    does not go back, an idle clock found after the scan was in the row
    before it or was set to a time of the scan, to the second, and rows
    stay under their own key. *)
Definition scan_frame (keys : list string) (w w' : World.t) : Prop :=
  World.cfg w' = World.cfg w /\ World.safety w' = World.safety w
  /\ World.rpc w' = World.rpc w /\ World.submitted w' = World.submitted w
  /\ World.logEntries w' = World.logEntries w
  /\ Db.reclaim_history (World.db w') = Db.reclaim_history (World.db w)
  /\ Db.whitelist (World.db w') = Db.whitelist (World.db w)
  /\ (forall k, is_Some (DatabaseManager.getAccount k (World.db w'))
                <-> is_Some (DatabaseManager.getAccount k (World.db w)))
  /\ (forall k, ~ In k keys ->
        DatabaseManager.getAccount k (World.db w') = DatabaseManager.getAccount k (World.db w))
  /\ World.now w <= World.now w'
  /\ (forall k since,
        SponsoredAccount.reclaimableSince <$> DatabaseManager.getAccount k (World.db w')
        = Some (Some since) ->
        SponsoredAccount.reclaimableSince <$> DatabaseManager.getAccount k (World.db w)
        = Some (Some since)
        \/ DatabaseManager.datetime (World.now w) <= since <= World.now w')
  /\ (keyed_by_pubkey (World.db w) -> keyed_by_pubkey (World.db w')).

(** The array holds no [null]. *)
Definition nullFree (data : list JsonEntry) : bool :=
  forallb (fun entry => match entry with EntryNull => false | _ => true end) data.

(** A fresh row: active, with no balance, no stamp, no idle clock and no
    authority. *)
Definition fresh_row (r : SponsoredAccount.t) : Prop :=
  SponsoredAccount.status r = active /\ SponsoredAccount.lamports r = 0
  /\ SponsoredAccount.lastChecked r = None /\ SponsoredAccount.reclaimableSince r = None
  /\ SponsoredAccount.closeAuthority r = None /\ SponsoredAccount.operatorCanClose r = false.


(** ** A sample scan *)

Module SampleRun.

(** A node that answers every fetch with the data of an empty token
    account whose close authority is the operator. *)
Definition connection : Connection.t :=
  Connection.mk
    (fun _ => inr (Some (Sample.tokenInfo Sample.operator)))
    (fun keys => inr (map (fun _ => Some (Sample.tokenInfo Sample.operator)) keys)).

(** RPC_DELAY_MS=100, BATCH_SIZE=100. *)
Definition scanner : Scan.Self := Scan.mkSelf 100 100.

(** One tracked account, last scanned [checked] days ago, whose idle
    clock was set [idle] days ago. *)
Definition world (checked idle : Z) : World.t :=
  Sample.world (Sample.config false)
    (Sample.dbWith (Sample.row "A" (Some (Sample.today - checked * MS_PER_DAY))
                      (Some (Sample.today - idle * MS_PER_DAY)) true))
    Sample.goodNode.

End SampleRun.

(** ** Proof automation *)

(** Unfolds the operations of [M] and the elementary effects. *)
Ltac run_monad :=
  unfold bind, ret, gets, modify, throw, try_catch, Reclaim.logEntry, Reclaim.delay,
         Reclaim.newPublicKey, Reclaim.sendAndConfirmTransaction in *; simpl in *.

(** * Properties *)

(** ** Rational comparisons against integer bounds *)

Lemma Qle_bool_inject_div (m x d : Z) :
  0 < d ->
  Qle_bool (inject_Z m) (inject_Z x / inject_Z d) = true <-> m * d <= x.
Proof.
  intros Hd. rewrite Qle_bool_iff.
  destruct d as [|d|d]; try lia.
  unfold Qle, Qdiv, Qmult, Qinv, inject_Z. simpl.
  rewrite !Z.mul_1_r. rewrite Pos.mul_1_l. reflexivity.
Qed.

Lemma Qlt_bool_days (now t m : Z) :
  Qlt_bool (daysBetween now t) (inject_Z m) = true <-> now - t < m * MS_PER_DAY.
Proof.
  unfold Qlt_bool, daysBetween. rewrite negb_true_iff, <- not_true_iff_false.
  rewrite Qle_bool_inject_div by reflexivity. lia.
Qed.

Lemma Qlt_bool_days_false (now t m : Z) :
  Qlt_bool (daysBetween now t) (inject_Z m) = false <-> m * MS_PER_DAY <= now - t.
Proof.
  rewrite <- not_true_iff_false, Qlt_bool_days. lia.
Qed.

(** ** The run limit *)


Lemma checkReclaimLimit_denied (s : SafetyManager.t) (lamports : Z) :
  SafetyCheckResult.allowed (Safety.checkReclaimLimit s lamports) = false ->
  Safety.checkReclaimLimit s lamports
  = Safety.deny (WouldExceedLimit (SafetyConfig.maxReclaimSolPerRun (SafetyManager.config s))).
Proof.
  unfold Safety.checkReclaimLimit. destruct (PrimFloat.ltb _ _); [reflexivity | discriminate].
Qed.

(** ** The safety gate *)

Lemma checkIdleDuration_denied_reason (w : World.t) (pubkey : string) :
  SafetyCheckResult.allowed (Safety.checkIdleDuration w pubkey) = false ->
  exists r, Safety.checkIdleDuration w pubkey = Safety.deny r.
Proof.
  unfold Safety.checkIdleDuration.
  destruct (DatabaseManager.getAccount _ _) as [account|]; [|discriminate].
  destruct (SponsoredAccount.reclaimableSince account) as [since|]; [|eauto].
  destruct (Qlt_bool _ _); [eauto | discriminate].
Qed.

(** A denial always names its reason. *)
Lemma checkAccount_denied_reason (w : World.t) (account : AccountStatus.t) :
  SafetyCheckResult.allowed (Safety.checkAccount w account) = false ->
  exists r, Safety.checkAccount w account = Safety.deny r.
Proof.
  unfold Safety.checkAccount.
  destruct (negb (AccountStatus.operatorCanClose account)); [eauto|].
  destruct (Safety.isWhitelisted _ _); [eauto|].
  destruct (AccountStatus.executable account); [eauto|].
  destruct (negb (AccountStatus.exists_ account)); [eauto|].
  destruct (SafetyCheckResult.allowed (Safety.checkIdleDuration _ _)) eqn:Hidle; simpl.
  - destruct (SafetyCheckResult.allowed (Safety.checkReclaimLimit _ _)) eqn:Hlim; simpl.
    + discriminate.
    + intros _. rewrite (checkReclaimLimit_denied _ _ Hlim). eauto.
  - intros _. apply checkIdleDuration_denied_reason. exact Hidle.
Qed.

(** The check reads the store, the configuration, the manager, the
    clock and the time zone, and nothing else of the world. *)
Lemma checkAccount_ext (w1 w2 : World.t) (account : AccountStatus.t) :
  World.db w1 = World.db w2 -> World.cfg w1 = World.cfg w2 ->
  World.safety w1 = World.safety w2 -> World.now w1 = World.now w2 ->
  World.rpc w1 = World.rpc w2 ->
  Safety.checkAccount w1 account = Safety.checkAccount w2 account.
Proof.
  intros Hdb Hcfg Hs Hnow Hrpc.
  unfold Safety.checkAccount, Safety.checkIdleDuration, Safety.isWhitelisted.
  rewrite Hdb, Hcfg, Hs, Hnow, Hrpc. reflexivity.
Qed.

Lemma filterSafeAccounts_fold (w : World.t) (accounts safe : list AccountStatus.t)
    (filtered : list (AccountStatus.t * option Reason)) :
  fst (fold_left (fun '(safe, filtered) account =>
        let check := Safety.checkAccount w account in
        if SafetyCheckResult.allowed check then (safe ++ [account], filtered)
        else (safe, filtered ++ [(account, SafetyCheckResult.reason check)]))
      accounts (safe, filtered))
  = safe ++ List.filter (fun a => SafetyCheckResult.allowed (Safety.checkAccount w a)) accounts.
Proof.
  revert safe filtered.
  induction accounts as [|a accounts IH]; intros safe filtered; simpl.
  - symmetry. apply app_nil_r.
  - destruct (SafetyCheckResult.allowed (Safety.checkAccount w a)).
    + rewrite IH, <- app_assoc. reflexivity.
    + apply IH.
Qed.

(** [filterSafeAccounts] keeps exactly the accounts the check allows. *)
Lemma filterSafeAccounts_safe (w : World.t) (accounts : list AccountStatus.t) :
  fst (Safety.filterSafeAccounts w accounts)
  = List.filter (fun a => SafetyCheckResult.allowed (Safety.checkAccount w a)) accounts.
Proof.
  unfold Safety.filterSafeAccounts. apply filterSafeAccounts_fold.
Qed.

(** Without authority the first test answers. *)
Lemma checkAccount_no_authority (w : World.t) (account : AccountStatus.t) :
  AccountStatus.operatorCanClose account = false ->
  Safety.checkAccount w account = Safety.deny OperatorNotCloseAuthority.
Proof.
  intros Hauth. unfold Safety.checkAccount. rewrite Hauth. reflexivity.
Qed.

(** C1: an account whose [operatorCanClose] is false is denied by
    [SafetyManager.checkAccount] in every world, that is, whatever the
    whitelists, the idle clock and the run budget say. The answer is the
    authority denial itself, so the authority test comes before every other
    one, and [filterSafeAccounts] never lets such an account through. *)
Theorem checkAccount_authority_first (w : World.t) (account : AccountStatus.t) :
  AccountStatus.operatorCanClose account = false ->
  Safety.checkAccount w account = Safety.deny OperatorNotCloseAuthority
  /\ SafetyCheckResult.allowed (Safety.checkAccount w account) = false
  /\ forall accounts, ~ In account (fst (Safety.filterSafeAccounts w accounts)).
Proof.
  intros Hauth.
  pose proof (checkAccount_no_authority w account Hauth) as Hdeny.
  split; [exact Hdeny|]. split; [rewrite Hdeny; reflexivity|].
  intros accounts Hin. rewrite filterSafeAccounts_safe in Hin.
  apply filter_In in Hin. destruct Hin as [_ Hallowed].
  rewrite Hdeny in Hallowed. discriminate.
Qed.

(** The gate allows exactly when its six conditions hold. *)
Lemma checkAccount_allowed_iff (w : World.t) (account : AccountStatus.t) :
  SafetyCheckResult.allowed (Safety.checkAccount w account) = true <->
  AccountStatus.operatorCanClose account = true
  /\ Safety.isWhitelisted w (AccountStatus.pubkey account) = false
  /\ AccountStatus.executable account = false
  /\ AccountStatus.exists_ account = true
  /\ SafetyCheckResult.allowed (Safety.checkIdleDuration w (AccountStatus.pubkey account)) = true
  /\ SafetyCheckResult.allowed
       (Safety.checkReclaimLimit (World.safety w) (AccountStatus.lamports account)) = true.
Proof.
  unfold Safety.checkAccount.
  destruct (AccountStatus.operatorCanClose account); simpl; [|intuition discriminate].
  destruct (Safety.isWhitelisted _ _); simpl; [intuition discriminate|].
  destruct (AccountStatus.executable account); simpl; [intuition discriminate|].
  destruct (AccountStatus.exists_ account); simpl; [|intuition discriminate].
  destruct (SafetyCheckResult.allowed (Safety.checkIdleDuration _ _)) eqn:Hidle; simpl;
    [|rewrite Hidle; intuition discriminate].
  destruct (SafetyCheckResult.allowed (Safety.checkReclaimLimit _ _)) eqn:Hlim; simpl;
    [intuition reflexivity | rewrite Hlim; intuition discriminate].
Qed.







(** The stamp written when the clock shows [now] is the second of [now]. *)
Lemma datetime_bounds (now : Z) : now - 1000 < DatabaseManager.datetime now <= now.
Proof.
  unfold DatabaseManager.datetime.
  pose proof (Z.div_mod now 1000 ltac:(lia)) as Hdiv.
  pose proof (Z.mod_pos_bound now 1000 ltac:(lia)) as Hmod. lia.
Qed.

Lemma datetime_mono (a b : Z) :
  a <= b -> DatabaseManager.datetime a <= DatabaseManager.datetime b.
Proof.
  intros Hle. unfold DatabaseManager.datetime.
  apply Z.mul_le_mono_nonneg_r; [lia|]. apply Z.div_le_mono; lia.
Qed.

(** ** The store *)

Lemma getAccount_alter_eq (f : SponsoredAccount.t -> SponsoredAccount.t)
    (pubkey : string) (d : Db.t) :
  DatabaseManager.getAccount pubkey (DatabaseManager.on_accounts (alter f pubkey) d)
  = f <$> DatabaseManager.getAccount pubkey d.
Proof.
  unfold DatabaseManager.getAccount, DatabaseManager.on_accounts. simpl.
  apply lookup_alter_eq.
Qed.










Lemma getAccount_addAccount (account : SponsoredAccount.t) (d : Db.t) :
  DatabaseManager.getAccount (SponsoredAccount.pubkey account)
    (DatabaseManager.addAccount account d) = Some account.
Proof.
  unfold DatabaseManager.getAccount, DatabaseManager.addAccount, DatabaseManager.on_accounts.
  simpl. apply lookup_insert_eq.
Qed.

Lemma getAccount_addAccount_ne (account : SponsoredAccount.t) (d : Db.t) (other : string) :
  other <> SponsoredAccount.pubkey account ->
  DatabaseManager.getAccount other (DatabaseManager.addAccount account d)
  = DatabaseManager.getAccount other d.
Proof.
  intros Hne.
  unfold DatabaseManager.getAccount, DatabaseManager.addAccount, DatabaseManager.on_accounts.
  simpl. apply lookup_insert_ne. congruence.
Qed.

Lemma addAccount_overwrites (a b : SponsoredAccount.t) (d : Db.t) :
  SponsoredAccount.pubkey a = SponsoredAccount.pubkey b ->
  DatabaseManager.addAccount b (DatabaseManager.addAccount a d) = DatabaseManager.addAccount b d.
Proof.
  intros Hpk. destruct d as [accounts history wl].
  unfold DatabaseManager.addAccount, DatabaseManager.on_accounts. simpl.
  rewrite Hpk, insert_insert_eq. reflexivity.
Qed.

Lemma addAccountsBatch_app (xs ys : list SponsoredAccount.t) (d : Db.t) :
  DatabaseManager.addAccountsBatch (xs ++ ys) d
  = DatabaseManager.addAccountsBatch ys (DatabaseManager.addAccountsBatch xs d).
Proof. unfold DatabaseManager.addAccountsBatch. apply fold_left_app. Qed.

Lemma getAccount_addAccountsBatch_ne (accounts : list SponsoredAccount.t) (d : Db.t)
    (pubkey : string) :
  (forall a, In a accounts -> SponsoredAccount.pubkey a <> pubkey) ->
  DatabaseManager.getAccount pubkey (DatabaseManager.addAccountsBatch accounts d)
  = DatabaseManager.getAccount pubkey d.
Proof.
  revert d. induction accounts as [|a accounts IH]; intros d Hne; [reflexivity|].
  unfold DatabaseManager.addAccountsBatch in *. simpl.
  rewrite IH by (intros; apply Hne; right; assumption).
  apply getAccount_addAccount_ne. intros E. eapply Hne; [left; reflexivity | congruence].
Qed.

(** C6 (amended): an upsert stores the incoming record as the row of its
    key, every column included: [reclaimableSince] of the stored row is the
    incoming one, whatever the row held before. Other keys are untouched,
    upserting the same record twice is the same as once, a later upsert of
    the key wins over an earlier one, and after a batch the row of a key
    is the last record of the batch with that key. *)
Theorem addAccount_last_write_wins (d : Db.t) (account : SponsoredAccount.t) :
  DatabaseManager.getAccount (SponsoredAccount.pubkey account)
    (DatabaseManager.addAccount account d) = Some account
  /\ SponsoredAccount.reclaimableSince
       <$> DatabaseManager.getAccount (SponsoredAccount.pubkey account)
             (DatabaseManager.addAccount account d)
     = Some (SponsoredAccount.reclaimableSince account)
  /\ (forall other, other <> SponsoredAccount.pubkey account ->
        DatabaseManager.getAccount other (DatabaseManager.addAccount account d)
        = DatabaseManager.getAccount other d)
  /\ DatabaseManager.addAccount account (DatabaseManager.addAccount account d)
     = DatabaseManager.addAccount account d
  /\ (forall earlier,
        SponsoredAccount.pubkey earlier = SponsoredAccount.pubkey account ->
        DatabaseManager.addAccount account (DatabaseManager.addAccount earlier d)
        = DatabaseManager.addAccount account d)
  /\ DatabaseManager.addAccountsBatch [account] d = DatabaseManager.addAccount account d
  /\ (forall before after,
        (forall a, In a after ->
           SponsoredAccount.pubkey a <> SponsoredAccount.pubkey account) ->
        DatabaseManager.getAccount (SponsoredAccount.pubkey account)
          (DatabaseManager.addAccountsBatch (before ++ account :: after) d) = Some account).
Proof.
  split; [apply getAccount_addAccount|].
  split; [rewrite getAccount_addAccount; reflexivity|].
  split; [intros; apply getAccount_addAccount_ne; assumption|].
  split; [apply addAccount_overwrites; reflexivity|].
  split; [intros; apply addAccount_overwrites; assumption|].
  split; [reflexivity|].
  intros before after Hafter.
  rewrite addAccountsBatch_app.
  change (account :: after) with ([account] ++ after).
  rewrite addAccountsBatch_app, getAccount_addAccountsBatch_ne by assumption.
  apply getAccount_addAccount.
Qed.

(** ** The reclaim engine *)

Lemma same_but_log_refl (w : World.t) : same_but_log w w.
Proof. repeat split. Qed.

Lemma same_but_log_trans (w1 w2 w3 : World.t) :
  same_but_log w1 w2 -> same_but_log w2 w3 -> same_but_log w1 w3.
Proof.
  unfold same_but_log. intros (?&?&?&?&?&?&?) (?&?&?&?&?&?&?).
  repeat split; congruence.
Qed.

Lemma checkAccount_same_but_log (w w' : World.t) (account : AccountStatus.t) :
  same_but_log w w' -> Safety.checkAccount w' account = Safety.checkAccount w account.
Proof.
  intros (?&?&?&?&?&?&?). apply checkAccount_ext; assumption.
Qed.

(** Building an instruction reads the node and changes nothing. *)
Lemma createCloseInstruction_frame (account : AccountStatus.t) (authority destination : string)
    (w : World.t) :
  snd (Reclaim.createCloseInstruction account authority destination w) = w.
Proof.
  unfold Reclaim.createCloseInstruction. run_monad.
  destruct (Rpc.validKey _ _); [|reflexivity].
  destruct (AccountStatus.isTokenAccount account).
  - destruct (Rpc.getAccount _ _ _) as [amount| |msg]; try reflexivity.
    destruct (0 <? amount); reflexivity.
  - destruct (bool_decide _); reflexivity.
Qed.

(** One step of the first loop: the account is denied (failure record and
    a 'skipped' log line), or gets an instruction, or fails to get one. *)
Lemma buildStep_run (account : AccountStatus.t) (operator treasury : string)
    (result : BatchReclaimResult.t) (p : Reclaim.Pending) (w : World.t) :
  exists result' p' w',
    Reclaim.buildStep account operator treasury result p w = (Returned (result', p'), w')
    /\ same_but_log w w'
    /\ ((SafetyCheckResult.allowed (Safety.checkAccount w account) = false
         /\ result' = Reclaim.push_failed
                        (Reclaim.failure (AccountStatus.pubkey account)
                           (SafetyCheckResult.reason (Safety.checkAccount w account))) result
         /\ p' = p
         /\ World.logEntries w'
            = World.logEntries w
              ++ [ReclaimLogEntry.mk (AccountStatus.pubkey account) log_skipped 0
                    (SafetyCheckResult.reason (Safety.checkAccount w account)) None])
        \/ (SafetyCheckResult.allowed (Safety.checkAccount w account) = true
            /\ World.logEntries w' = World.logEntries w
            /\ ((exists ix, result' = result
                            /\ p' = Reclaim.mkPending (Reclaim.instructions p ++ [ix])
                                      (Reclaim.accountsInTx p ++ [account]))
                \/ (exists e, result' = Reclaim.push_failed
                                (Reclaim.failure (AccountStatus.pubkey account) (Some e)) result
                              /\ p' = p)))).
Proof.
  unfold Reclaim.buildStep.
  unfold bind at 1. unfold gets at 1.
  destruct (SafetyCheckResult.allowed (Safety.checkAccount w account)) eqn:Hallowed; simpl.
  - pose proof (createCloseInstruction_frame account operator treasury w) as Hframe.
    unfold try_catch, bind at 1.
    destruct (Reclaim.createCloseInstruction account operator treasury w) as [[[ix|]|msg] w1];
      simpl in Hframe; subst w1; unfold ret.
    + do 3 eexists. split; [reflexivity|]. split; [apply same_but_log_refl|].
      right. split; [reflexivity|]. split; [reflexivity|]. left. eauto.
    + do 3 eexists. split; [reflexivity|]. split; [apply same_but_log_refl|].
      right. split; [reflexivity|]. split; [reflexivity|]. right. eauto.
    + do 3 eexists. split; [reflexivity|]. split; [apply same_but_log_refl|].
      right. split; [reflexivity|]. split; [reflexivity|]. right. eauto.
  - run_monad. do 3 eexists. split; [reflexivity|]. split; [repeat split|].
    left. repeat split; reflexivity.
Qed.

(** What the first loop of [processBatch] hands over: the failure records
    [F] it added, the accounts [T] that got an instruction, the
    instructions [I] and the log lines [L]. It never throws and changes
    nothing but the log. *)
Lemma buildLoop_run (operator treasury : string) (accounts : list AccountStatus.t) :
  forall (result : BatchReclaimResult.t) (p : Reclaim.Pending) (w : World.t),
  exists result' p' w' F T I L,
    Reclaim.buildLoop accounts operator treasury result p w = (Returned (result', p'), w')
    /\ same_but_log w w'
    /\ BatchReclaimResult.successful result' = BatchReclaimResult.successful result
    /\ BatchReclaimResult.totalLamportsReclaimed result'
       = BatchReclaimResult.totalLamportsReclaimed result
    /\ BatchReclaimResult.failed result' = BatchReclaimResult.failed result ++ F
    /\ Reclaim.accountsInTx p' = Reclaim.accountsInTx p ++ T
    /\ Reclaim.instructions p' = Reclaim.instructions p ++ I
    /\ length I = length T
    /\ World.logEntries w' = World.logEntries w ++ L
    /\ Permutation (map ReclaimResult.pubkey F ++ map AccountStatus.pubkey T)
                   (map AccountStatus.pubkey accounts)
    /\ Forall (fun x => ReclaimResult.success x = false
                        /\ ReclaimResult.lamportsReclaimed x = 0
                        /\ is_Some (ReclaimResult.error x)) F
    /\ (forall a, In a accounts ->
          SafetyCheckResult.allowed (Safety.checkAccount w a) = false ->
          In (Reclaim.failure (AccountStatus.pubkey a)
                (SafetyCheckResult.reason (Safety.checkAccount w a))) F
          /\ In (ReclaimLogEntry.mk (AccountStatus.pubkey a) log_skipped 0
                   (SafetyCheckResult.reason (Safety.checkAccount w a)) None) L)
    /\ (forall a, In a T ->
          In a accounts /\ SafetyCheckResult.allowed (Safety.checkAccount w a) = true)
    /\ Forall (fun e => ReclaimLogEntry.status e = log_skipped) L.
Proof.
  induction accounts as [|account rest IH]; intros result p w.
  - exists result, p, w, [], [], [], []. simpl.
    rewrite !app_nil_r.
    split; [reflexivity|]. split; [apply same_but_log_refl|].
    do 7 (split; [reflexivity|]).
    split; [constructor|]. split; [constructor|].
    split; [intros a []|]. split; [intros a []|]. constructor.
  - destruct (buildStep_run account operator treasury result p w)
      as (r1 & p1 & w1 & Hstep & Hsame1 & Hcase).
    destruct (IH r1 p1 w1)
      as (r2 & p2 & w2 & F & T & I & L & Hloop & Hsame2 & Hsucc & Htot & Hfailed & Htx & Hins
          & Hlen & Hlog & Hperm & HF & Hdenied & Happroved & HL).
    assert (Hcheck : forall a, Safety.checkAccount w1 a = Safety.checkAccount w a)
      by (intros a; apply checkAccount_same_but_log; assumption).
    assert (Hrun : Reclaim.buildLoop (account :: rest) operator treasury result p w
                   = (Returned (r2, p2), w2)).
    { simpl. unfold bind. rewrite Hstep. simpl. exact Hloop. }
    destruct Hcase as [(Hdeny & -> & -> & Hlog1) | (Hallow & Hlog1 & [(ix & -> & ->) | (e & -> & ->)])].
    + (* denied *)
      destruct (checkAccount_denied_reason w account Hdeny) as (rs & Hrs).
      exists r2, p2, w2,
        (Reclaim.failure (AccountStatus.pubkey account)
           (SafetyCheckResult.reason (Safety.checkAccount w account)) :: F), T, I,
        (ReclaimLogEntry.mk (AccountStatus.pubkey account) log_skipped 0
           (SafetyCheckResult.reason (Safety.checkAccount w account)) None :: L).
      split; [exact Hrun|]. split; [eapply same_but_log_trans; eassumption|].
      split; [exact Hsucc|]. split; [exact Htot|].
      split; [rewrite Hfailed; simpl; rewrite <- app_assoc; reflexivity|].
      split; [exact Htx|]. split; [exact Hins|]. split; [exact Hlen|].
      split; [rewrite Hlog, Hlog1, <- app_assoc; reflexivity|].
      split; [simpl; constructor; exact Hperm|].
      split; [constructor; [|exact HF]; rewrite Hrs; simpl; eauto|].
      split; [|split].
      * intros a [<-|Hin] Ha; [split; left; reflexivity|].
        rewrite <- (Hcheck a) in Ha |- *.
        destruct (Hdenied a Hin Ha). split; right; assumption.
      * intros a Hin. destruct (Happroved a Hin) as [? Hok].
        rewrite Hcheck in Hok. split; [right|]; assumption.
      * constructor; [reflexivity | exact HL].
    + (* instruction built *)
      exists r2, p2, w2, F, (account :: T), (ix :: I), L.
      split; [exact Hrun|]. split; [eapply same_but_log_trans; eassumption|].
      split; [exact Hsucc|]. split; [exact Htot|]. split; [exact Hfailed|].
      split; [rewrite Htx; simpl; rewrite <- app_assoc; reflexivity|].
      split; [rewrite Hins; simpl; rewrite <- app_assoc; reflexivity|].
      split; [simpl; congruence|].
      split; [rewrite Hlog, Hlog1; reflexivity|].
      split; [simpl; symmetry; apply Permutation_cons_app; symmetry; exact Hperm|].
      split; [exact HF|]. split; [|split].
      * intros a [<-|Hin] Ha; [congruence|].
        rewrite <- (Hcheck a) in Ha |- *. apply Hdenied; assumption.
      * intros a [<-|Hin]; [split; [left; reflexivity | exact Hallow]|].
        destruct (Happroved a Hin) as [? Hok].
        rewrite Hcheck in Hok. split; [right|]; assumption.
      * exact HL.
    + (* no instruction *)
      exists r2, p2, w2,
        (Reclaim.failure (AccountStatus.pubkey account) (Some e) :: F), T, I, L.
      split; [exact Hrun|]. split; [eapply same_but_log_trans; eassumption|].
      split; [exact Hsucc|]. split; [exact Htot|].
      split; [rewrite Hfailed; simpl; rewrite <- app_assoc; reflexivity|].
      split; [exact Htx|]. split; [exact Hins|]. split; [exact Hlen|].
      split; [rewrite Hlog, Hlog1; reflexivity|].
      split; [simpl; constructor; exact Hperm|].
      split; [constructor; [|exact HF]; simpl; eauto|].
      split; [|split].
      * intros a [<-|Hin] Ha; [congruence|].
        rewrite <- (Hcheck a) in Ha |- *.
        destruct (Hdenied a Hin Ha). split; [right|]; assumption.
      * intros a Hin. destruct (Happroved a Hin) as [? Hok].
        rewrite Hcheck in Hok. split; [right|]; assumption.
      * exact HL.
Qed.

(** When an instruction comes out of [createCloseInstruction], the key is
    well formed and either the account is a token account whose token
    balance the node reports as zero, or it is owned by the system
    program. *)
Lemma createCloseInstruction_built (account : AccountStatus.t)
    (authority destination : string) (w : World.t) (ix : Instruction) :
  fst (Reclaim.createCloseInstruction account authority destination w) = Returned (Some ix) ->
  Rpc.validKey (World.rpc w) (AccountStatus.pubkey account) = true
  /\ instructionFor authority destination account ix
  /\ (AccountStatus.isTokenAccount account = true ->
      exists amount,
        Rpc.getAccount (World.rpc w) (length (World.submitted w)) (AccountStatus.pubkey account)
        = TokenAmount amount /\ amount <= 0).
Proof.
  unfold Reclaim.createCloseInstruction, instructionFor. run_monad.
  destruct (Rpc.validKey _ _); [|discriminate].
  destruct (AccountStatus.isTokenAccount account).
  - destruct (Rpc.getAccount _ _ _) as [amount| |msg]; try discriminate.
    destruct (0 <? amount) eqn:Hamount; [discriminate|].
    simpl. intros [= <-]. split; [reflexivity|]. split; [left; split; reflexivity|].
    intros _. exists amount. split; [reflexivity|]. apply Z.ltb_ge in Hamount. exact Hamount.
  - destruct (bool_decide _) eqn:Howner; [|discriminate].
    simpl. intros [= <-]. split; [reflexivity|]. split; [|discriminate].
    right. apply bool_decide_eq_true in Howner. repeat split. exact Howner.
Qed.

(** Building an instruction reads the node, and nothing of the log. *)
Lemma createCloseInstruction_same_but_log (w w' : World.t) (account : AccountStatus.t)
    (authority destination : string) :
  same_but_log w w' ->
  fst (Reclaim.createCloseInstruction account authority destination w')
  = fst (Reclaim.createCloseInstruction account authority destination w).
Proof.
  intros (_ & _ & _ & Hrpc & _ & Hsub & _).
  unfold Reclaim.createCloseInstruction. run_monad. rewrite Hrpc.
  destruct (Rpc.validKey _ _); [|reflexivity].
  destruct (AccountStatus.isTokenAccount account).
  - simpl. rewrite Hrpc, Hsub.
    destruct (Rpc.getAccount _ _ _) as [amount| |msg]; try reflexivity.
    destruct (0 <? amount); reflexivity.
  - destruct (bool_decide _); reflexivity.
Qed.

Lemma buildable_same_but_log (w w' : World.t) (operator treasury : string)
    (account : AccountStatus.t) :
  same_but_log w w' ->
  buildable w' operator treasury account = buildable w operator treasury account
  /\ buildFailure w' operator treasury account = buildFailure w operator treasury account
  /\ skippedLine w' account = skippedLine w account.
Proof.
  intros Hsame. unfold buildable, buildFailure, skippedLine.
  rewrite (checkAccount_same_but_log w w' account Hsame).
  rewrite (createCloseInstruction_same_but_log w w' account operator treasury Hsame).
  repeat split.
Qed.

(** One step of the first loop, exactly. *)
Lemma buildStep_exact (account : AccountStatus.t) (operator treasury : string)
    (result : BatchReclaimResult.t) (p : Reclaim.Pending) (w : World.t) :
  exists w',
    Reclaim.buildStep account operator treasury result p w
    = (Returned
         (match buildable w operator treasury account with
          | Some ix =>
              (result, Reclaim.mkPending (Reclaim.instructions p ++ [ix])
                         (Reclaim.accountsInTx p ++ [account]))
          | None =>
              (Reclaim.push_failed (buildFailure w operator treasury account) result, p)
          end), w')
    /\ same_but_log w w'
    /\ World.logEntries w'
       = World.logEntries w
         ++ (if SafetyCheckResult.allowed (Safety.checkAccount w account) then []
             else [skippedLine w account]).
Proof.
  unfold Reclaim.buildStep, buildable, buildFailure, skippedLine.
  unfold bind at 1. unfold gets at 1.
  destruct (SafetyCheckResult.allowed (Safety.checkAccount w account)) eqn:Hallowed; simpl.
  - pose proof (createCloseInstruction_frame account operator treasury w) as Hframe.
    unfold try_catch, bind at 1.
    destruct (Reclaim.createCloseInstruction account operator treasury w) as [[[ix|]|msg] w1];
      simpl in Hframe; subst w1; unfold ret; simpl;
      (exists w; split; [reflexivity|]; split; [apply same_but_log_refl|];
       rewrite app_nil_r; reflexivity).
  - run_monad. eexists. split; [reflexivity|]. split; [repeat split | reflexivity].
Qed.

(** The first loop of [processBatch], exactly: in the order of the batch,
    an account that the gate allows and that gets an instruction joins
    the transaction, every other account gets its failure record, and a
    denied one is logged as skipped. Only the log changes. *)
Lemma buildLoop_exact (operator treasury : string) (w : World.t)
    (accounts : list AccountStatus.t) :
  forall (result : BatchReclaimResult.t) (p : Reclaim.Pending) (w0 : World.t),
  same_but_log w w0 ->
  exists w1,
    Reclaim.buildLoop accounts operator treasury result p w0
    = (Returned
         (BatchReclaimResult.mk (BatchReclaimResult.successful result)
            (BatchReclaimResult.failed result ++ buildFailures w operator treasury accounts)
            (BatchReclaimResult.totalLamportsReclaimed result),
          Reclaim.mkPending
            (Reclaim.instructions p ++ builtInstructions w operator treasury accounts)
            (Reclaim.accountsInTx p ++ builtAccounts w operator treasury accounts)), w1)
    /\ same_but_log w w1
    /\ World.logEntries w1 = World.logEntries w0 ++ skippedLines w accounts.
Proof.
  induction accounts as [|account rest IH]; intros result p w0 Hsame.
  - exists w0. unfold buildFailures, builtInstructions, builtAccounts, skippedLines. simpl.
    rewrite !app_nil_r. destruct result, p. split; [reflexivity|]. split; [exact Hsame|].
    reflexivity.
  - destruct (buildStep_exact account operator treasury result p w0)
      as (w' & Hstep & Hsame' & Hlog').
    destruct (buildable_same_but_log w w0 operator treasury account Hsame)
      as (Hb & Hf & Hl).
    rewrite Hb, Hf in Hstep. rewrite Hl, (checkAccount_same_but_log w w0 account Hsame) in Hlog'.
    pose proof (same_but_log_trans _ _ _ Hsame Hsame') as Hsame1.
    cbn [Reclaim.buildLoop]. unfold bind at 1. rewrite Hstep.
    unfold buildFailures, builtInstructions, builtAccounts, skippedLines, isBuildable in *.
    cbn [List.filter omap list_omap map].
    destruct (buildable w operator treasury account) as [ix|] eqn:Hix; cbn [fst snd negb].
    + assert (Hallowed : SafetyCheckResult.allowed (Safety.checkAccount w account) = true).
      { unfold buildable in Hix.
        destruct (SafetyCheckResult.allowed _); [reflexivity | discriminate]. }
      rewrite Hallowed in Hlog' |- *. rewrite app_nil_r in Hlog'. cbn [negb].
      destruct (IH result (Reclaim.mkPending (Reclaim.instructions p ++ [ix])
                             (Reclaim.accountsInTx p ++ [account])) w' Hsame1)
        as (w1 & -> & Hsame2 & Hlog2).
      exists w1. cbn [Reclaim.instructions Reclaim.accountsInTx].
      rewrite <- !app_assoc. split; [reflexivity|]. split; [exact Hsame2|].
      rewrite Hlog2, Hlog'. reflexivity.
    + destruct (IH (Reclaim.push_failed (buildFailure w operator treasury account) result)
                  p w' Hsame1) as (w1 & -> & Hsame2 & Hlog2).
      exists w1. cbn [Reclaim.push_failed BatchReclaimResult.successful
                      BatchReclaimResult.failed BatchReclaimResult.totalLamportsReclaimed map].
      rewrite <- !app_assoc. split; [reflexivity|]. split; [exact Hsame2|].
      rewrite Hlog2, Hlog'.
      destruct (SafetyCheckResult.allowed (Safety.checkAccount w account)); cbn [negb map];
        rewrite <- ?app_assoc; reflexivity.
Qed.

(** The accounts that get an instruction and the failed ones make up the
    batch; each instruction is the one built for its account. *)
Lemma built_partition (w : World.t) (operator treasury : string)
    (batch : list AccountStatus.t) :
  Permutation (map AccountStatus.pubkey (builtAccounts w operator treasury batch)
               ++ map ReclaimResult.pubkey (buildFailures w operator treasury batch))
              (map AccountStatus.pubkey batch)
  /\ Forall2 (fun account ix => buildable w operator treasury account = Some ix)
             (builtAccounts w operator treasury batch)
             (builtInstructions w operator treasury batch).
Proof.
  unfold builtAccounts, buildFailures, builtInstructions, isBuildable.
  induction batch as [|account rest [IHperm IHall]]; [split; constructor|].
  cbn [List.filter omap list_omap map].
  destruct (buildable w operator treasury account) as [ix|] eqn:Hix; cbn [negb map app].
  - split; [constructor; exact IHperm | constructor; assumption].
  - split; [|exact IHall].
    symmetry. apply Permutation_cons_app. symmetry. exact IHperm.
Qed.

(** The dry-run loop: one 'would reclaim' record and one log line marked
    'DRY_RUN' per account; nothing else moves. *)
Lemma dryRunLoop_run (accs : list AccountStatus.t) :
  forall (result : BatchReclaimResult.t) (w : World.t),
  exists w',
    Reclaim.dryRunLoop accs result w
    = (Returned (BatchReclaimResult.mk
                   (BatchReclaimResult.successful result ++ map (reclaimedRecord None) accs)
                   (BatchReclaimResult.failed result)
                   (BatchReclaimResult.totalLamportsReclaimed result + sumLamports accs)), w')
    /\ same_but_log w w'
    /\ World.logEntries w'
       = World.logEntries w
         ++ map (fun acc => ReclaimLogEntry.mk (AccountStatus.pubkey acc) log_reclaimed
                              (AccountStatus.lamports acc) None (Some "DRY_RUN")) accs.
Proof.
  induction accs as [|acc rest IH]; intros result w.
  - exists w. split.
    + simpl. unfold ret, sumLamports. destruct result; simpl.
      rewrite app_nil_r, Z.add_0_r. reflexivity.
    + simpl. rewrite !app_nil_r. repeat split.
  - simpl. run_monad.
    match goal with |- context [Reclaim.dryRunLoop rest ?r ?w1] =>
      destruct (IH r w1) as (w' & -> & Hsame & Hlog) end.
    exists w'. simpl. split; [|split].
    + unfold sumLamports. simpl. rewrite <- app_assoc, <- Z.add_assoc. reflexivity.
    + destruct Hsame as (?&?&?&?&?&?&?). repeat split; assumption.
    + rewrite Hlog. simpl. rewrite <- app_assoc. reflexivity.
Qed.

(** The loop after a confirmed transaction: one success record with the
    signature per account, the run counter advanced by their balances, one
    'success' history row each. *)
Lemma successLoop_run (signature : option string) (accs : list AccountStatus.t) :
  forall (result : BatchReclaimResult.t) (w : World.t),
  exists w',
    Reclaim.successLoop accs signature result w
    = (Returned (BatchReclaimResult.mk
                   (BatchReclaimResult.successful result ++ map (reclaimedRecord signature) accs)
                   (BatchReclaimResult.failed result)
                   (BatchReclaimResult.totalLamportsReclaimed result + sumLamports accs)), w')
    /\ World.cfg w' = World.cfg w /\ World.rpc w' = World.rpc w /\ World.now w' = World.now w
    /\ World.submitted w' = World.submitted w /\ World.slept w' = World.slept w
    /\ SafetyManager.totalReclaimedThisRun (World.safety w')
       = SafetyManager.totalReclaimedThisRun (World.safety w) + sumLamports accs
    /\ SafetyManager.config (World.safety w') = SafetyManager.config (World.safety w)
    /\ Db.reclaim_history (World.db w')
       = Db.reclaim_history (World.db w)
         ++ map (fun acc => ReclaimHistoryEntry.mk (AccountStatus.pubkey acc)
                              (AccountStatus.lamports acc) h_success None
                              (Reclaim.orNull signature)
                              (DatabaseManager.datetime (World.now w))) accs
    /\ Db.whitelist (World.db w') = Db.whitelist (World.db w)
    /\ World.logEntries w'
       = World.logEntries w
         ++ map (fun acc => ReclaimLogEntry.mk (AccountStatus.pubkey acc) log_reclaimed
                              (AccountStatus.lamports acc) None signature) accs.
Proof.
  induction accs as [|acc rest IH]; intros result w.
  - exists w. split.
    + simpl. unfold ret, sumLamports. destruct result; simpl.
      rewrite app_nil_r, Z.add_0_r. reflexivity.
    + unfold sumLamports. simpl. rewrite !app_nil_r, Z.add_0_r. repeat split.
  - simpl. run_monad.
    match goal with |- context [Reclaim.successLoop rest signature ?r ?w1] =>
      destruct (IH r w1) as (w' & -> & Hcfg & Hrpc & Hnow & Hsub & Hslept & Htot & Hconf
                             & Hhist & Hwl & Hlog) end.
    exists w'. simpl in *.
    split; [unfold sumLamports; simpl; rewrite <- app_assoc, <- Z.add_assoc; reflexivity|].
    do 5 (split; [assumption|]).
    split; [rewrite Htot; unfold sumLamports; simpl; lia|].
    split; [assumption|].
    split; [rewrite Hhist, <- app_assoc; reflexivity|].
    split; [assumption|].
    rewrite Hlog, <- app_assoc. reflexivity.
Qed.

(** The loop after the retries ran out: one failure record with the last
    error per account, one 'failed' history row each, no credit. *)
Lemma failureLoop_run (error : option string) (accs : list AccountStatus.t) :
  forall (result : BatchReclaimResult.t) (w : World.t),
  exists w',
    Reclaim.failureLoop accs error result w
    = (Returned (BatchReclaimResult.mk
                   (BatchReclaimResult.successful result)
                   (BatchReclaimResult.failed result ++ map (failedRecord error) accs)
                   (BatchReclaimResult.totalLamportsReclaimed result)), w')
    /\ World.cfg w' = World.cfg w /\ World.rpc w' = World.rpc w /\ World.now w' = World.now w
    /\ World.submitted w' = World.submitted w /\ World.slept w' = World.slept w
    /\ World.safety w' = World.safety w
    /\ Db.sponsored_accounts (World.db w') = Db.sponsored_accounts (World.db w)
    /\ Db.reclaim_history (World.db w')
       = Db.reclaim_history (World.db w)
         ++ map (fun acc => ReclaimHistoryEntry.mk (AccountStatus.pubkey acc) 0 h_failed
                              (Some (Reclaim.historyReason error)) None
                              (DatabaseManager.datetime (World.now w))) accs
    /\ Db.whitelist (World.db w') = Db.whitelist (World.db w)
    /\ World.logEntries w'
       = World.logEntries w
         ++ map (fun acc => ReclaimLogEntry.mk (AccountStatus.pubkey acc) log_failed 0
                              (ErrorMessage <$> error) None) accs.
Proof.
  induction accs as [|acc rest IH]; intros result w.
  - exists w. split.
    + simpl. unfold ret. destruct result; simpl. rewrite app_nil_r. reflexivity.
    + simpl. rewrite !app_nil_r. repeat split.
  - simpl. run_monad.
    match goal with |- context [Reclaim.failureLoop rest error ?r ?w1] =>
      destruct (IH r w1) as (w' & -> & Hcfg & Hrpc & Hnow & Hsub & Hslept & Hsafety
                             & Hacc & Hhist & Hwl & Hlog) end.
    exists w'. simpl in *.
    split; [rewrite <- app_assoc; reflexivity|].
    do 7 (split; [assumption|]).
    split; [rewrite Hhist, <- app_assoc; reflexivity|].
    split; [assumption|].
    rewrite Hlog, <- app_assoc. reflexivity.
Qed.

(** One iteration of the retry loop. *)
Lemma retryLoop_step (remaining : nat) (attempt : Z) (instructions : list Instruction)
    (w : World.t) :
  Reclaim.retryLoop (S remaining) attempt instructions w
  = match Rpc.sendAndConfirm (World.rpc w) (length (World.submitted w)) instructions with
    | Confirmed s => (Returned (Reclaim.mkTx true (Some s) None), after_submit instructions w)
    | Rejected e =>
        if attempt <? Reclaim.MAX_RETRIES
        then Reclaim.retryLoop remaining (attempt + 1) instructions
               (after_delay (Reclaim.RETRY_DELAY * 2 ^ (attempt - 1))
                  (after_submit instructions w))
        else (Returned (Reclaim.mkTx false None (Some e)), after_submit instructions w)
    end.
Proof.
  cbn [Reclaim.retryLoop]. unfold bind at 1. unfold Reclaim.sendAndConfirmTransaction.
  fold (after_submit instructions w).
  destruct (Rpc.sendAndConfirm _ _ _); [reflexivity|].
  destruct (attempt <? Reclaim.MAX_RETRIES); reflexivity.
Qed.

(** [executeWithRetry] in full, by the answers of the node to the three
    attempts it can make: it never throws, submits the whole instruction
    list each time and nothing else, sleeps 1000 ms after a first failure
    and 2000 ms after a second, stops at the first confirmation, and
    reports the third error when all three attempts fail. *)
Lemma executeWithRetry_run (instructions : list Instruction) (w : World.t) :
  let n := length (World.submitted w) in
  let answer k := Rpc.sendAndConfirm (World.rpc w) (n + k)%nat instructions in
  exists tx w',
    Reclaim.executeWithRetry instructions w = (Returned tx, w')
    /\ World.cfg w' = World.cfg w /\ World.db w' = World.db w
    /\ World.safety w' = World.safety w /\ World.rpc w' = World.rpc w
    /\ World.logEntries w' = World.logEntries w
    /\ match answer 0%nat, answer 1%nat, answer 2%nat with
       | Confirmed s, _, _ =>
           tx = Reclaim.mkTx true (Some s) None
           /\ World.submitted w' = World.submitted w ++ [instructions]
           /\ World.slept w' = World.slept w
           /\ World.now w' = World.now w
       | Rejected _, Confirmed s, _ =>
           tx = Reclaim.mkTx true (Some s) None
           /\ World.submitted w' = World.submitted w ++ [instructions; instructions]
           /\ World.slept w' = World.slept w ++ [1000]
           /\ World.now w' = World.now w + 1000
       | Rejected _, Rejected _, Confirmed s =>
           tx = Reclaim.mkTx true (Some s) None
           /\ World.submitted w' = World.submitted w ++ [instructions; instructions; instructions]
           /\ World.slept w' = World.slept w ++ [1000; 2000]
           /\ World.now w' = World.now w + 1000 + 2000
       | Rejected _, Rejected _, Rejected e3 =>
           tx = Reclaim.mkTx false None (Some e3)
           /\ World.submitted w' = World.submitted w ++ [instructions; instructions; instructions]
           /\ World.slept w' = World.slept w ++ [1000; 2000]
           /\ World.now w' = World.now w + 1000 + 2000
       end.
Proof.
  intros n answer. subst answer. cbv beta.
  replace (n + 0)%nat with n by lia.
  replace (n + 1)%nat with (S n) by lia.
  replace (n + 2)%nat with (S (S n)) by lia.
  unfold Reclaim.executeWithRetry.
  change (Z.to_nat Reclaim.MAX_RETRIES) with 3%nat.
  rewrite retryLoop_step. fold n.
  destruct (Rpc.sendAndConfirm (World.rpc w) n instructions) as [s1|e1].
  { do 2 eexists. split; [reflexivity|]. simpl. repeat split. }
  change (1 <? Reclaim.MAX_RETRIES) with true. cbv iota.
  rewrite retryLoop_step.
  replace (length (World.submitted (after_delay _ (after_submit instructions w))))
    with (S n) by (simpl; rewrite length_app; simpl; lia).
  change (World.rpc (after_delay _ (after_submit instructions w))) with (World.rpc w).
  destruct (Rpc.sendAndConfirm (World.rpc w) (S n) instructions) as [s2|e2].
  { do 2 eexists. split; [reflexivity|]. simpl.
    rewrite <- app_assoc. repeat split. }
  change (1 + 1 <? Reclaim.MAX_RETRIES) with true. cbv iota.
  rewrite retryLoop_step.
  match goal with |- context [length (World.submitted ?w2)] =>
    replace (length (World.submitted w2)) with (S (S n))
      by (simpl; rewrite !length_app; simpl; lia);
    change (World.rpc w2) with (World.rpc w) end.
  destruct (Rpc.sendAndConfirm (World.rpc w) (S (S n)) instructions) as [s3|e3].
  { do 2 eexists. split; [reflexivity|]. simpl.
    rewrite <- !app_assoc. repeat split. }
  change (1 + 1 + 1 <? Reclaim.MAX_RETRIES) with false. cbv iota.
  do 2 eexists. split; [reflexivity|]. simpl.
  rewrite <- !app_assoc. repeat split.
Qed.

(** [processBatch] when the operator key cannot be loaded: the error
    leaves the method before anything happened. *)
Lemma processBatch_no_keypair (batch : list AccountStatus.t) (treasury : string)
    (dryRun : bool) (w : World.t) (msg : string) :
  Config.operatorKeypair (World.cfg w) = inl msg ->
  Reclaim.processBatch batch treasury dryRun w = (Threw msg, w).
Proof.
  intros Hkey. unfold Reclaim.processBatch. unfold bind at 1.
  unfold Reclaim.getOperatorKeypair. rewrite Hkey. reflexivity.
Qed.

(** [processBatch] with the operator key at hand: the first loop yields
    failure records [F], accounts [T] with instructions [I] and log lines
    [L]; then nothing (no instruction), the dry-run loop, or one
    [executeWithRetry] followed by the success or the failure loop. *)
Lemma processBatch_run (batch : list AccountStatus.t) (treasury : string)
    (dryRun : bool) (w : World.t) (operator : string) :
  Config.operatorKeypair (World.cfg w) = inr operator ->
  exists F T I L w1,
    Reclaim.buildLoop batch operator treasury Reclaim.emptyResult (Reclaim.mkPending [] []) w
    = (Returned (BatchReclaimResult.mk [] F 0, Reclaim.mkPending I T), w1)
    /\ same_but_log w w1
    /\ World.logEntries w1 = World.logEntries w ++ L
    /\ length I = length T
    /\ Permutation (map ReclaimResult.pubkey F ++ map AccountStatus.pubkey T)
                   (map AccountStatus.pubkey batch)
    /\ Forall (fun x => ReclaimResult.success x = false
                        /\ ReclaimResult.lamportsReclaimed x = 0
                        /\ is_Some (ReclaimResult.error x)) F
    /\ (forall a, In a batch ->
          SafetyCheckResult.allowed (Safety.checkAccount w a) = false ->
          In (Reclaim.failure (AccountStatus.pubkey a)
                (SafetyCheckResult.reason (Safety.checkAccount w a))) F
          /\ In (ReclaimLogEntry.mk (AccountStatus.pubkey a) log_skipped 0
                   (SafetyCheckResult.reason (Safety.checkAccount w a)) None) L)
    /\ (forall a, In a T ->
          In a batch /\ SafetyCheckResult.allowed (Safety.checkAccount w a) = true)
    /\ Forall (fun e => ReclaimLogEntry.status e = log_skipped) L
    /\ Reclaim.processBatch batch treasury dryRun w
       = if (length I =? 0)%nat then (Returned (BatchReclaimResult.mk [] F 0), w1)
         else if dryRun then Reclaim.dryRunLoop T (BatchReclaimResult.mk [] F 0) w1
         else match Reclaim.executeWithRetry I w1 with
              | (Returned tx, w2) =>
                  if Reclaim.tx_success tx
                  then Reclaim.successLoop T (Reclaim.tx_signature tx)
                         (BatchReclaimResult.mk [] F 0) w2
                  else Reclaim.failureLoop T (Reclaim.tx_error tx)
                         (BatchReclaimResult.mk [] F 0) w2
              | (Threw e, w2) => (Threw e, w2)
              end.
Proof.
  intros Hkey.
  destruct (buildLoop_run operator treasury batch Reclaim.emptyResult
              (Reclaim.mkPending [] []) w)
    as (r & p & w1 & F & T & I & L & Hloop & Hsame & Hsucc & Htot & Hfailed & Htx & Hins
        & Hlen & Hlog & Hperm & HF & Hdenied & Happroved & HL).
  destruct r as [rs rf rt]. destruct p as [pi pa]. simpl in *. subst rs rf rt pi pa.
  exists F, T, I, L, w1.
  do 9 (split; [assumption|]).
  unfold Reclaim.processBatch. unfold bind at 1.
  unfold Reclaim.getOperatorKeypair. rewrite Hkey.
  unfold bind at 1. rewrite Hloop.
  cbn [Reclaim.instructions Reclaim.accountsInTx].
  destruct (length I =? 0)%nat; [reflexivity|].
  destruct dryRun; [reflexivity|].
  unfold bind. destruct (Reclaim.executeWithRetry I w1) as [[tx|e] w2]; [|reflexivity].
  destruct (Reclaim.tx_success tx); reflexivity.
Qed.

(** [executeWithRetry] always resolves; it changes neither the store, the
    configuration, the safety manager nor the log; a success carries a
    signature and a failure an error. *)
Lemma executeWithRetry_total (instructions : list Instruction) (w : World.t) :
  exists tx w',
    Reclaim.executeWithRetry instructions w = (Returned tx, w')
    /\ World.cfg w' = World.cfg w /\ World.db w' = World.db w
    /\ World.safety w' = World.safety w /\ World.rpc w' = World.rpc w
    /\ World.logEntries w' = World.logEntries w
    /\ (if Reclaim.tx_success tx then is_Some (Reclaim.tx_signature tx)
        else is_Some (Reclaim.tx_error tx)).
Proof.
  destruct (executeWithRetry_run instructions w)
    as (tx & w' & Hrun & Hcfg & Hdb & Hsafety & Hrpc & Hlog & Hcases).
  exists tx, w'. do 6 (split; [assumption|]).
  destruct (Rpc.sendAndConfirm _ _ _) as [s1|e1].
  { destruct Hcases as (-> & _). simpl. eauto. }
  destruct (Rpc.sendAndConfirm _ _ _) as [s2|e2].
  { destruct Hcases as (-> & _). simpl. eauto. }
  destruct (Rpc.sendAndConfirm _ _ _) as [s3|e3]; destruct Hcases as (-> & _); simpl; eauto.
Qed.

Lemma map_pubkey_reclaimedRecord (signature : option string) (T : list AccountStatus.t) :
  map ReclaimResult.pubkey (map (reclaimedRecord signature) T) = map AccountStatus.pubkey T.
Proof. rewrite map_map. reflexivity. Qed.

Lemma map_pubkey_failedRecord (error : option string) (T : list AccountStatus.t) :
  map ReclaimResult.pubkey (map (failedRecord error) T) = map AccountStatus.pubkey T.
Proof. rewrite map_map. reflexivity. Qed.

Lemma sumReclaimed_reclaimedRecord (signature : option string) (T : list AccountStatus.t) :
  0 + sumLamports T = sumReclaimed (map (reclaimedRecord signature) T).
Proof.
  unfold sumReclaimed, sumLamports. rewrite map_map. reflexivity.
Qed.

(** Summary of one batch, when the operator key can be loaded. *)
Lemma processBatch_returns (batch : list AccountStatus.t) (treasury : string)
    (dryRun : bool) (w : World.t) (operator : string) :
  Config.operatorKeypair (World.cfg w) = inr operator ->
  exists res w',
    Reclaim.processBatch batch treasury dryRun w = (Returned res, w')
    /\ Permutation (recordedKeys res) (map AccountStatus.pubkey batch)
    /\ Forall (fun x => ReclaimResult.success x = true /\ ReclaimResult.error x = None)
              (BatchReclaimResult.successful res)
    /\ Forall (fun x => ReclaimResult.success x = false
                        /\ ReclaimResult.lamportsReclaimed x = 0
                        /\ is_Some (ReclaimResult.error x))
              (BatchReclaimResult.failed res)
    /\ World.cfg w' = World.cfg w /\ World.rpc w' = World.rpc w
    /\ SafetyManager.config (World.safety w') = SafetyManager.config (World.safety w)
    /\ SafetyManager.totalReclaimedThisRun (World.safety w')
       = SafetyManager.totalReclaimedThisRun (World.safety w)
         + (if dryRun then 0 else BatchReclaimResult.totalLamportsReclaimed res)
    /\ (dryRun = true -> same_but_log w w')
    /\ (forall a, In a batch ->
          SafetyCheckResult.allowed (Safety.checkAccount w a) = false ->
          In (Reclaim.failure (AccountStatus.pubkey a)
                (SafetyCheckResult.reason (Safety.checkAccount w a)))
             (BatchReclaimResult.failed res)
          /\ In (ReclaimLogEntry.mk (AccountStatus.pubkey a) log_skipped 0
                   (SafetyCheckResult.reason (Safety.checkAccount w a)) None)
                (World.logEntries w'))
    /\ BatchReclaimResult.totalLamportsReclaimed res
       = sumReclaimed (BatchReclaimResult.successful res)
    /\ (dryRun = false -> Forall signed_record (BatchReclaimResult.successful res)).
Proof.
  intros Hkey.
  destruct (processBatch_run batch treasury dryRun w operator Hkey)
    as (F & T & I & L & w1 & Hloop & Hsame & Hlog & Hlen & Hperm & HF & Hdenied & Happroved
        & HL & ->).
  pose proof Hsame as (Hcfg1 & Hdb1 & Hsafety1 & Hrpc1 & Hnow1 & Hsub1 & Hslept1).
  destruct (length I =? 0)%nat eqn:Hempty.
  { (* no instruction at all *)
    apply Nat.eqb_eq in Hempty. rewrite Hempty in Hlen.
    destruct T; [|discriminate]. simpl in Hperm. rewrite app_nil_r in Hperm.
    exists (BatchReclaimResult.mk [] F 0), w1. unfold recordedKeys. simpl.
    split; [reflexivity|]. split; [exact Hperm|]. split; [constructor|].
    split; [exact HF|]. split; [assumption|]. split; [assumption|].
    split; [congruence|]. split; [rewrite Hsafety1; destruct dryRun; lia|].
    split; [intros _; exact Hsame|].
    split; [|split; [reflexivity | intros _; constructor]].
    intros a Hin Ha. destruct (Hdenied a Hin Ha). split; [assumption|].
    rewrite Hlog. apply in_or_app. right. assumption. }
  destruct dryRun.
  { (* dry run *)
    destruct (dryRunLoop_run T (BatchReclaimResult.mk [] F 0) w1)
      as (w' & -> & Hsame' & Hlog').
    pose proof Hsame' as (Hcfg2 & Hdb2 & Hsafety2 & Hrpc2 & _).
    eexists _, w'. split; [reflexivity|]. unfold recordedKeys. simpl.
    split; [rewrite map_app, map_pubkey_reclaimedRecord;
            etransitivity; [apply Permutation_app_comm | exact Hperm]|].
    split; [apply List.Forall_forall; intros x Hx; apply in_map_iff in Hx;
            destruct Hx as (a & <- & _); split; reflexivity|].
    split; [exact HF|]. split; [congruence|]. split; [congruence|].
    split; [congruence|]. split; [rewrite Hsafety2, Hsafety1; lia|].
    split; [intros _; eapply same_but_log_trans; eassumption|].
    split; [|split; [apply sumReclaimed_reclaimedRecord | discriminate]].
    intros a Hin Ha. destruct (Hdenied a Hin Ha). split; [assumption|].
    rewrite Hlog', Hlog. apply in_or_app. left. apply in_or_app. right. assumption. }
  (* a real submission *)
  destruct (executeWithRetry_total I w1)
    as (tx & w2 & -> & Hcfg2 & Hdb2 & Hsafety2 & Hrpc2 & Hlog2 & Htx).
  destruct (Reclaim.tx_success tx).
  - destruct (successLoop_run (Reclaim.tx_signature tx) T (BatchReclaimResult.mk [] F 0) w2)
      as (w' & -> & Hcfg3 & Hrpc3 & Hnow3 & Hsub3 & Hslept3 & Htot3 & Hconf3 & Hhist3
          & Hwl3 & Hlog3).
    eexists _, w'. split; [reflexivity|]. unfold recordedKeys. simpl.
    split; [rewrite map_app, map_pubkey_reclaimedRecord;
            etransitivity; [apply Permutation_app_comm | exact Hperm]|].
    split; [apply List.Forall_forall; intros x Hx; apply in_map_iff in Hx;
            destruct Hx as (a & <- & _); split; reflexivity|].
    split; [exact HF|]. split; [congruence|]. split; [congruence|].
    split; [congruence|]. split; [rewrite Htot3, Hsafety2, Hsafety1; reflexivity|].
    split; [discriminate|].
    split; [|split; [apply sumReclaimed_reclaimedRecord|]].
    + intros a Hin Ha. destruct (Hdenied a Hin Ha). split; [assumption|].
      rewrite Hlog3, Hlog2, Hlog. apply in_or_app. left. apply in_or_app. right. assumption.
    + intros _. apply List.Forall_forall. intros x Hx. apply in_map_iff in Hx.
      destruct Hx as (a & <- & _). exact Htx.
  - destruct (failureLoop_run (Reclaim.tx_error tx) T (BatchReclaimResult.mk [] F 0) w2)
      as (w' & -> & Hcfg3 & Hrpc3 & Hnow3 & Hsub3 & Hslept3 & Hsafety3 & Hacc3 & Hhist3
          & Hwl3 & Hlog3).
    eexists _, w'. split; [reflexivity|]. unfold recordedKeys. simpl.
    split; [rewrite map_app, map_pubkey_failedRecord; exact Hperm|].
    split; [constructor|].
    split; [apply Forall_app; split; [exact HF|];
            apply List.Forall_forall; intros x Hx; apply in_map_iff in Hx;
            destruct Hx as (a & <- & _); destruct Htx as [e ->];
            repeat split; simpl; eauto|].
    split; [congruence|]. split; [congruence|].
    split; [congruence|]. split; [rewrite Hsafety3, Hsafety2, Hsafety1; lia|].
    split; [discriminate|].
    split; [|split; [reflexivity | intros _; constructor]].
    intros a Hin Ha. destruct (Hdenied a Hin Ha). split; [apply in_or_app; left; assumption|].
    rewrite Hlog3, Hlog2, Hlog. apply in_or_app. left. apply in_or_app. right. assumption.
Qed.

(** ** Batching *)

(** The slice taken at offset [i] is the next [maxPerBatch] accounts. *)
Lemma slice_is_take (accounts : list AccountStatus.t) (maxPerBatch i : nat) :
  take (Nat.min (i + maxPerBatch) (length accounts) - i) (drop i accounts)
  = take maxPerBatch (drop i accounts).
Proof.
  destruct (Nat.le_gt_cases (i + maxPerBatch) (length accounts)) as [Hle|Hgt].
  - rewrite Nat.min_l by exact Hle. f_equal. lia.
  - rewrite Nat.min_r by lia.
    rewrite !take_ge; [reflexivity | |]; rewrite length_drop; lia.
Qed.

(** The first [n] batches are the first [n * maxPerBatch] accounts, in order. *)
Lemma createBatchesFrom_prefix (accounts : list AccountStatus.t) (maxPerBatch : nat) :
  (0 < maxPerBatch)%nat ->
  forall fuel i n, (length accounts - i <= fuel)%nat ->
  concat (take n (Reclaim.createBatchesFrom fuel accounts maxPerBatch i))
  = take (n * maxPerBatch) (drop i accounts).
Proof.
  intros Hpos. induction fuel as [|fuel IH]; intros i n Hfuel.
  - simpl. rewrite take_nil. simpl.
    rewrite drop_ge by lia. rewrite take_nil. reflexivity.
  - cbn [Reclaim.createBatchesFrom].
    destruct (i <? length accounts)%nat eqn:Hi.
    + apply Nat.ltb_lt in Hi. destruct n as [|n]; [reflexivity|].
      cbn [take concat]. rewrite IH by lia.
      rewrite slice_is_take, <- drop_drop, take_take_drop. reflexivity.
    + apply Nat.ltb_ge in Hi. rewrite take_nil. simpl.
      rewrite drop_ge by lia. rewrite take_nil. reflexivity.
Qed.

Lemma createBatches_prefix (accounts : list AccountStatus.t) (n : nat) :
  concat (take n (Reclaim.createBatches accounts Reclaim.MAX_INSTRUCTIONS))
  = take (n * Reclaim.MAX_INSTRUCTIONS) accounts.
Proof.
  unfold Reclaim.createBatches.
  rewrite createBatchesFrom_prefix; [reflexivity | unfold Reclaim.MAX_INSTRUCTIONS; lia | lia].
Qed.

(** The batches cover the input, in order. *)
Lemma createBatches_concat (accounts : list AccountStatus.t) :
  concat (Reclaim.createBatches accounts Reclaim.MAX_INSTRUCTIONS) = accounts.
Proof.
  set (batches := Reclaim.createBatches accounts Reclaim.MAX_INSTRUCTIONS).
  pose proof (createBatches_prefix accounts (length batches + length accounts)) as H.
  fold batches in H. rewrite take_ge in H by lia.
  rewrite take_ge in H by (unfold Reclaim.MAX_INSTRUCTIONS; lia). exact H.
Qed.

(** Stopping before the last batch leaves accounts out. *)
Lemma createBatches_short (accounts : list AccountStatus.t) (n : nat) :
  (n * Reclaim.MAX_INSTRUCTIONS < length accounts)%nat ->
  (n < length (Reclaim.createBatches accounts Reclaim.MAX_INSTRUCTIONS))%nat.
Proof.
  intros Hshort. apply Nat.nle_gt. intros Hge.
  pose proof (createBatches_prefix accounts n) as H.
  rewrite take_ge in H by exact Hge.
  rewrite createBatches_concat in H.
  apply (f_equal length) in H. rewrite length_take in H. lia.
Qed.

(** ** The run over all batches *)

Lemma recordedKeys_merge (result b : BatchReclaimResult.t) :
  Permutation (recordedKeys (Reclaim.merge result b)) (recordedKeys result ++ recordedKeys b).
Proof.
  unfold recordedKeys, Reclaim.merge. simpl. rewrite !map_app, <- !app_assoc.
  apply Permutation_app_head. rewrite !app_assoc. apply Permutation_app_tail.
  apply Permutation_app_comm.
Qed.

Lemma recordedKeys_failBatch (batch : list AccountStatus.t) (msg : string)
    (result : BatchReclaimResult.t) :
  recordedKeys (Reclaim.failBatch batch msg result)
  = recordedKeys result ++ map AccountStatus.pubkey batch.
Proof.
  unfold recordedKeys, Reclaim.failBatch. simpl.
  rewrite !map_app, map_map, <- app_assoc. reflexivity.
Qed.

(** One batch inside its [try]/[catch]: whatever happens, the accumulated
    result gains exactly one record per account of the batch. *)
Lemma tryBatch_run (batch : list AccountStatus.t) (treasury : string) (dryRun : bool)
    (result : BatchReclaimResult.t) (w : World.t) :
  exists result' w1,
    try_catch
      (batchResult <- Reclaim.processBatch batch treasury dryRun ;;
       ret (Reclaim.merge result batchResult))
      (fun errorMsg => ret (Reclaim.failBatch batch errorMsg result)) w
    = (Returned result', w1)
    /\ Permutation (recordedKeys result') (recordedKeys result ++ map AccountStatus.pubkey batch)
    /\ (well_formed_result result -> well_formed_result result')
    /\ World.cfg w1 = World.cfg w /\ World.rpc w1 = World.rpc w
    /\ SafetyManager.config (World.safety w1) = SafetyManager.config (World.safety w)
    /\ (dryRun = true -> same_but_log w w1).
Proof.
  unfold try_catch, bind.
  destruct (Config.operatorKeypair (World.cfg w)) as [msg|operator] eqn:Hkey.
  - rewrite (processBatch_no_keypair batch treasury dryRun w msg Hkey).
    exists (Reclaim.failBatch batch msg result), w. unfold ret.
    split; [reflexivity|]. split; [rewrite recordedKeys_failBatch; reflexivity|].
    split; [|repeat split].
    intros [Hs Hf]. split; [exact Hs|]. simpl. apply Forall_app. split; [exact Hf|].
    apply List.Forall_forall. intros x Hx. apply in_map_iff in Hx.
    destruct Hx as (a & <- & _). repeat split. simpl. eauto.
  - destruct (processBatch_returns batch treasury dryRun w operator Hkey)
      as (res & w1 & -> & Hperm & Hsucc & Hfail & Hcfg & Hrpc & Hconf & Htot & Hdry & _).
    exists (Reclaim.merge result res), w1. unfold ret.
    split; [reflexivity|].
    split; [etransitivity; [apply recordedKeys_merge|];
            apply Permutation_app_head; exact Hperm|].
    split; [|split; [exact Hcfg | split; [exact Hrpc | split; [exact Hconf | exact Hdry]]]].
    intros [Hs Hf]. split; simpl; apply Forall_app; split; assumption.
Qed.

(** The loop over batches: it never throws; it processes the first [n]
    batches, each account of which gets one record, and stops short of the
    last batch only when the remaining budget has come down to zero. *)
Lemma batchesLoop_run (treasury : string) (dryRun : bool)
    (batches : list (list AccountStatus.t)) :
  forall (result : BatchReclaimResult.t) (w : World.t),
  exists res w' n,
    Reclaim.batchesLoop batches treasury dryRun result w = (Returned res, w')
    /\ (n <= length batches)%nat
    /\ (batches <> [] -> (1 <= n)%nat)
    /\ Permutation (recordedKeys res)
         (recordedKeys result ++ map AccountStatus.pubkey (concat (take n batches)))
    /\ ((n < length batches)%nat ->
          (Safety.getRemainingBudget (World.safety w') <=? 0)%float = true)
    /\ (well_formed_result result -> well_formed_result res)
    /\ World.cfg w' = World.cfg w /\ World.rpc w' = World.rpc w
    /\ (dryRun = true -> same_but_log w w').
Proof.
  induction batches as [|batch rest IH]; intros result w.
  - exists result, w, 0%nat. simpl. rewrite app_nil_r.
    split; [reflexivity|]. split; [lia|]. split; [congruence|].
    split; [reflexivity|]. split; [lia|]. split; [tauto|].
    split; [reflexivity|]. split; [reflexivity|]. intros _. apply same_but_log_refl.
  - destruct (tryBatch_run batch treasury dryRun result w)
      as (r1 & w1 & Htry & Hperm1 & Hwf1 & Hcfg1 & Hrpc1 & Hconf1 & Hdry1).
    cbn [Reclaim.batchesLoop]. unfold bind at 1. rewrite Htry.
    unfold bind at 1. unfold gets at 1.
    destruct (Safety.getRemainingBudget (World.safety w1) <=? 0)%float eqn:Hbudget.
    + exists r1, w1, 1%nat. unfold ret. cbn [take concat length]. rewrite take_0.
      cbn [concat]. rewrite app_nil_r.
      split; [reflexivity|]. split; [lia|]. split; [lia|]. split; [exact Hperm1|].
      split; [intros _; exact Hbudget|]. split; [exact Hwf1|].
      split; [assumption|]. split; [assumption|]. exact Hdry1.
    + destruct (IH r1 w1)
        as (res & w' & n & Hloop & Hn & _ & Hperm & Hstop & Hwf & Hcfg & Hrpc & Hdry).
      exists res, w', (S n). simpl.
      split; [exact Hloop|]. split; [lia|]. split; [lia|].
      split; [etransitivity; [exact Hperm|];
              rewrite map_app, app_assoc; apply Permutation_app_tail; exact Hperm1|].
      split; [intros Hlt; apply Hstop; lia|].
      split; [tauto|]. split; [congruence|]. split; [congruence|].
      intros Hd. eapply same_but_log_trans; [apply Hdry1 | apply Hdry]; exact Hd.
Qed.

(** [reclaimAccounts] past its guards is the loop over the batches. *)
Lemma reclaimAccounts_run (accounts : list AccountStatus.t) (w : World.t) :
  Config.treasuryAddress (World.cfg w) <> "" ->
  Rpc.validKey (World.rpc w) (Config.treasuryAddress (World.cfg w)) = true ->
  accounts <> [] ->
  Reclaim.reclaimAccounts accounts w
  = Reclaim.batchesLoop (Reclaim.createBatches accounts Reclaim.MAX_INSTRUCTIONS)
      (Config.treasuryAddress (World.cfg w)) (Config.dryRun (World.cfg w))
      Reclaim.emptyResult w.
Proof.
  intros Htreasury Hvalid Hne. unfold Reclaim.reclaimAccounts.
  destruct accounts as [|a accounts]; [congruence|].
  cbn [length Nat.eqb]. unfold bind at 1. unfold gets at 1.
  unfold bind at 1. unfold gets at 1.
  rewrite bool_decide_false by exact Htreasury.
  unfold bind at 1. unfold Reclaim.newPublicKey. rewrite Hvalid. reflexivity.
Qed.

(** The outcomes of [reclaimAccounts] that are not a run over batches. *)
Lemma reclaimAccounts_guards (accounts : list AccountStatus.t) (w : World.t) :
  (accounts = [] -> Reclaim.reclaimAccounts accounts w = (Returned Reclaim.emptyResult, w))
  /\ (accounts <> [] -> Config.treasuryAddress (World.cfg w) = "" ->
      Reclaim.reclaimAccounts accounts w = (Threw "Treasury address not configured", w))
  /\ (accounts <> [] -> Config.treasuryAddress (World.cfg w) <> "" ->
      Rpc.validKey (World.rpc w) (Config.treasuryAddress (World.cfg w)) = false ->
      Reclaim.reclaimAccounts accounts w
      = (Threw (Rpc.keyError (World.rpc w) (Config.treasuryAddress (World.cfg w))), w)).
Proof.
  split; [intros ->; reflexivity|]. split.
  - intros Hne Hempty. unfold Reclaim.reclaimAccounts.
    destruct accounts as [|a accounts]; [congruence|].
    cbn [length Nat.eqb]. unfold bind at 1. unfold gets at 1.
    unfold bind at 1. unfold gets at 1.
    rewrite bool_decide_true by exact Hempty. reflexivity.
  - intros Hne Htreasury Hinvalid. unfold Reclaim.reclaimAccounts.
    destruct accounts as [|a accounts]; [congruence|].
    cbn [length Nat.eqb]. unfold bind at 1. unfold gets at 1.
    unfold bind at 1. unfold gets at 1.
    rewrite bool_decide_false by exact Htreasury.
    unfold bind at 1. unfold Reclaim.newPublicKey. rewrite Hinvalid. reflexivity.
Qed.

Lemma well_formed_emptyResult : well_formed_result Reclaim.emptyResult.
Proof. split; constructor. Qed.

(** C4 (amended): with a treasury configured, [reclaimAccounts] returns a
    result in which every account of every batch that was processed has
    exactly one outcome record: the recorded keys are, up to order, the keys
    of the first [n] batches, successes are marked successful, failures carry
    a reason. The first batch is always processed; batches are left out
    (and their accounts get no record) only when the remaining budget, a
    double, has reached zero, and when it has not every input account is
    recorded. *)
Theorem reclaimAccounts_records_processed_batches (accounts : list AccountStatus.t)
    (w : World.t) :
  Config.treasuryAddress (World.cfg w) <> "" ->
  Rpc.validKey (World.rpc w) (Config.treasuryAddress (World.cfg w)) = true ->
  exists res w' n,
    Reclaim.reclaimAccounts accounts w = (Returned res, w')
    /\ Permutation (recordedKeys res)
         (map AccountStatus.pubkey (take (n * Reclaim.MAX_INSTRUCTIONS) accounts))
    /\ well_formed_result res
    /\ (accounts <> [] -> (1 <= n)%nat)
    /\ ((n * Reclaim.MAX_INSTRUCTIONS < length accounts)%nat ->
          (Safety.getRemainingBudget (World.safety w') <=? 0)%float = true)
    /\ ((Safety.getRemainingBudget (World.safety w') <=? 0)%float = false ->
          Permutation (recordedKeys res) (map AccountStatus.pubkey accounts)).
Proof.
  intros Htreasury Hvalid.
  destruct accounts as [|a accounts].
  { exists Reclaim.emptyResult, w, 0%nat.
    split; [reflexivity|]. split; [constructor|]. split; [apply well_formed_emptyResult|].
    split; [congruence|]. split; [simpl; lia|]. intros _. constructor. }
  set (all := a :: accounts).
  assert (Hne : all <> []) by discriminate.
  destruct (batchesLoop_run (Config.treasuryAddress (World.cfg w))
              (Config.dryRun (World.cfg w))
              (Reclaim.createBatches all Reclaim.MAX_INSTRUCTIONS) Reclaim.emptyResult w)
    as (res & w' & n & Hloop & Hn & Hfirst & Hperm & Hstop & Hwf & _).
  assert (Hkeys : Permutation (recordedKeys res)
                    (map AccountStatus.pubkey (take (n * Reclaim.MAX_INSTRUCTIONS) all))).
  { rewrite <- createBatches_prefix. exact Hperm. }
  assert (Hbudget : (n * Reclaim.MAX_INSTRUCTIONS < length all)%nat ->
                    (Safety.getRemainingBudget (World.safety w') <=? 0)%float = true).
  { intros Hshort. apply Hstop. apply createBatches_short. exact Hshort. }
  exists res, w', n.
  split; [rewrite reclaimAccounts_run by assumption; exact Hloop|].
  split; [exact Hkeys|]. split; [apply Hwf, well_formed_emptyResult|].
  split.
  { intros _. apply Hfirst. intros Hnil.
    pose proof (createBatches_concat all) as Hcat. rewrite Hnil in Hcat. discriminate. }
  split; [exact Hbudget|].
  intros Hleft.
  destruct (Nat.le_gt_cases (length all) (n * Reclaim.MAX_INSTRUCTIONS)) as [Hall|Hshort].
  - rewrite take_ge in Hkeys by exact Hall. exact Hkeys.
  - rewrite (Hbudget Hshort) in Hleft. discriminate.
Qed.

(** ** Dry run *)

(** A dry run of [reclaimAccounts] changes nothing but the log. *)
Lemma reclaimAccounts_dry_frame (accounts : list AccountStatus.t) (w : World.t)
    (o : Outcome BatchReclaimResult.t) (w' : World.t) :
  Config.dryRun (World.cfg w) = true ->
  Reclaim.reclaimAccounts accounts w = (o, w') ->
  same_but_log w w'.
Proof.
  intros Hdry Hrun.
  destruct (reclaimAccounts_guards accounts w) as (Hnil & Hno & Hbad).
  destruct accounts as [|a accounts].
  { rewrite Hnil in Hrun by reflexivity. injection Hrun as _ <-. apply same_but_log_refl. }
  assert (Hne : a :: accounts <> []) by discriminate.
  destruct (decide (Config.treasuryAddress (World.cfg w) = "")) as [Hempty|Hset].
  { rewrite Hno in Hrun by assumption. injection Hrun as _ <-. apply same_but_log_refl. }
  destruct (Rpc.validKey (World.rpc w) (Config.treasuryAddress (World.cfg w))) eqn:Hvalid.
  2:{ rewrite Hbad in Hrun by (assumption || reflexivity).
      injection Hrun as _ <-. apply same_but_log_refl. }
  rewrite reclaimAccounts_run in Hrun by assumption.
  destruct (batchesLoop_run (Config.treasuryAddress (World.cfg w))
              (Config.dryRun (World.cfg w))
              (Reclaim.createBatches (a :: accounts) Reclaim.MAX_INSTRUCTIONS)
              Reclaim.emptyResult w)
    as (res & w2 & n & Hloop & _ & _ & _ & _ & _ & _ & _ & Hframe).
  rewrite Hloop in Hrun. injection Hrun as _ <-. apply Hframe. exact Hdry.
Qed.

(** C9: in dry-run mode [reclaimAccounts] leaves the store (account rows
    and history), the list of submitted transactions, the pauses and the
    run counter of the safety manager as they were: only the log grows.
    For every batch, [processBatch] in dry-run mode still runs the first
    loop over the accounts in their order: an account that the gate
    denies gets a failure record with the reason of the denial and a
    'skipped' log line, an account that the gate allows but for which no
    instruction can be built gets a failure record saying so, and every
    account that the gate allows and that gets an instruction is reported
    by one success record with its balance and without signature, and
    logged with the 'DRY_RUN' marker. So every account of the batch has
    exactly one record. A real run of the same batch in the same world
    whose submission is confirmed reports the same records, with the
    signature filled in. *)
Theorem dry_run_reports_without_acting (w : World.t) :
  (Config.dryRun (World.cfg w) = true ->
   forall accounts o w', Reclaim.reclaimAccounts accounts w = (o, w') ->
     World.db w' = World.db w /\ World.submitted w' = World.submitted w
     /\ World.safety w' = World.safety w /\ World.slept w' = World.slept w)
  /\ (forall batch treasury operator,
        Config.operatorKeypair (World.cfg w) = inr operator ->
        let T := builtAccounts w operator treasury batch in
        let I := builtInstructions w operator treasury batch in
        let F := buildFailures w operator treasury batch in
        exists w',
          Reclaim.processBatch batch treasury true w
          = (Returned (BatchReclaimResult.mk (map (reclaimedRecord None) T) F
                         (sumLamports T)), w')
          /\ same_but_log w w'
          /\ World.logEntries w'
             = World.logEntries w ++ skippedLines w batch ++ map dryRunLine T
          /\ Permutation (map AccountStatus.pubkey T ++ map ReclaimResult.pubkey F)
                         (map AccountStatus.pubkey batch)
          /\ Forall2 (fun account ix => buildable w operator treasury account = Some ix) T I
          /\ (forall s,
                I <> [] ->
                Rpc.sendAndConfirm (World.rpc w) (length (World.submitted w)) I = Confirmed s ->
                fst (Reclaim.processBatch batch treasury false w)
                = Returned (BatchReclaimResult.mk (map (reclaimedRecord (Some s)) T) F
                              (sumLamports T))))
  /\ (forall operator treasury account,
        (forall ix, buildable w operator treasury account = Some ix ->
           SafetyCheckResult.allowed (Safety.checkAccount w account) = true
           /\ instructionFor operator treasury account ix)
        /\ (SafetyCheckResult.allowed (Safety.checkAccount w account) = false ->
            buildable w operator treasury account = None
            /\ buildFailure w operator treasury account
               = Reclaim.failure (AccountStatus.pubkey account)
                   (SafetyCheckResult.reason (Safety.checkAccount w account))
            /\ is_Some (SafetyCheckResult.reason (Safety.checkAccount w account)))
        /\ (SafetyCheckResult.allowed (Safety.checkAccount w account) = true ->
            fst (Reclaim.createCloseInstruction account operator treasury w) = Returned None ->
            buildable w operator treasury account = None
            /\ buildFailure w operator treasury account
               = Reclaim.failure (AccountStatus.pubkey account)
                   (Some CouldNotCreateCloseInstruction))).
Proof.
  split; [|split].
  { intros Hdry accounts o w' Hrun.
    destruct (reclaimAccounts_dry_frame accounts w o w' Hdry Hrun)
      as (_ & Hdb & Hsafety & _ & _ & Hsub & Hslept).
    split; [exact Hdb|]. split; [exact Hsub|]. split; [exact Hsafety | exact Hslept]. }
  2:{ intros operator treasury account. unfold buildable, buildFailure. split; [|split].
      - intros ix Hix.
        destruct (SafetyCheckResult.allowed (Safety.checkAccount w account));
          [|discriminate].
        split; [reflexivity|].
        destruct (fst (Reclaim.createCloseInstruction account operator treasury w))
          as [[ix'|]|msg] eqn:Hbuilt; try discriminate.
        injection Hix as ->.
        apply (createCloseInstruction_built account operator treasury w ix Hbuilt).
      - intros Hdenied. rewrite Hdenied. split; [reflexivity|]. split; [reflexivity|].
        destruct (checkAccount_denied_reason w account Hdenied) as (r & ->). simpl. eauto.
      - intros Hallowed Hnone. rewrite Hallowed, Hnone. split; reflexivity. }
  intros batch treasury operator Hkey T I F.
  destruct (processBatch_run batch treasury true w operator Hkey)
    as (F' & T' & I' & L & w1 & Hloop & Hsame & Hlog & Hlen & _ & _ & _ & _ & _ & Hdry).
  destruct (processBatch_run batch treasury false w operator Hkey)
    as (F'' & T'' & I'' & L'' & w1' & Hloop' & _ & _ & _ & _ & _ & _ & _ & _ & Hreal).
  rewrite Hloop in Hloop'. injection Hloop' as <- <- <- <-.
  destruct (buildLoop_exact operator treasury w batch Reclaim.emptyResult
              (Reclaim.mkPending [] []) w (same_but_log_refl w))
    as (w1' & Hexact & _ & Hlog1).
  rewrite Hloop in Hexact. simpl in Hexact. injection Hexact as HF HI HT Hw1.
  fold F in HF. fold I in HI. fold T in HT. subst F' I' T' w1'.
  rewrite Hlog in Hlog1. apply app_inv_head in Hlog1. subst L.
  destruct (built_partition w operator treasury batch) as [Hperm Hpairs].
  fold T F in Hperm. fold T I in Hpairs.
  destruct (dryRunLoop_run T (BatchReclaimResult.mk [] F 0) w1) as (w2 & Hdryloop & Hsame2 & Hlog2).
  assert (Hreal_ok : forall s, I <> [] ->
            Rpc.sendAndConfirm (World.rpc w) (length (World.submitted w)) I = Confirmed s ->
            fst (Reclaim.processBatch batch treasury false w)
            = Returned (BatchReclaimResult.mk (map (reclaimedRecord (Some s)) T) F
                          (sumLamports T))).
  { intros s Hne Hconfirmed. rewrite Hreal.
    destruct I as [|ix I0]; [congruence|]. cbn [length Nat.eqb].
    destruct (executeWithRetry_run (ix :: I0) w1) as (tx & w3 & -> & _ & _ & _ & _ & _ & Hcase).
    destruct Hsame as (_ & _ & _ & Hrpc & _ & Hsub & _).
    rewrite Hrpc, Hsub, Nat.add_0_r, Hconfirmed in Hcase. destruct Hcase as (-> & _).
    cbn [Reclaim.tx_success Reclaim.tx_signature].
    destruct (successLoop_run (Some s) T (BatchReclaimResult.mk [] F 0) w3) as (w4 & -> & _).
    reflexivity. }
  destruct (length I =? 0)%nat eqn:Hempty.
  - apply Nat.eqb_eq in Hempty. rewrite Hempty in Hlen.
    assert (HT : T = []) by (destruct T; [reflexivity | discriminate]).
    exists w1. rewrite HT in *. simpl. rewrite app_nil_r.
    split; [exact Hdry|]. split; [exact Hsame|]. split; [exact Hlog|].
    split; [exact Hperm|]. split; [exact Hpairs | exact Hreal_ok].
  - exists w2.
    split; [rewrite Hdry; exact Hdryloop|].
    split; [eapply same_but_log_trans; eassumption|].
    split; [rewrite Hlog2, Hlog, <- app_assoc; reflexivity|].
    split; [exact Hperm|]. split; [exact Hpairs | exact Hreal_ok].
Qed.

(** ** History rows *)


(** ** Budget *)

(** When the first five conditions hold, the gate answers with the run
    limit exactly when the amount does not fit. *)
Lemma checkAccount_budget_denied (w : World.t) (account : AccountStatus.t) :
  AccountStatus.operatorCanClose account = true ->
  Safety.isWhitelisted w (AccountStatus.pubkey account) = false ->
  AccountStatus.executable account = false ->
  AccountStatus.exists_ account = true ->
  SafetyCheckResult.allowed (Safety.checkIdleDuration w (AccountStatus.pubkey account)) = true ->
  SafetyCheckResult.allowed
    (Safety.checkReclaimLimit (World.safety w) (AccountStatus.lamports account)) = false ->
  Safety.checkAccount w account
  = Safety.deny (WouldExceedLimit
                   (SafetyConfig.maxReclaimSolPerRun (SafetyManager.config (World.safety w)))).
Proof.
  intros Hcan Hwl Hexe Hex Hidle Hlimit. unfold Safety.checkAccount.
  rewrite Hcan, Hwl, Hexe, Hex, Hidle, Hlimit. simpl.
  apply checkReclaimLimit_denied. exact Hlimit.
Qed.


(** ** [reclaimSingle] *)

(** No instruction can be built for a status that is neither a token
    account nor owned by the system program. *)
Lemma createCloseInstruction_unowned (account : AccountStatus.t) (authority destination : string)
    (w : World.t) :
  AccountStatus.isTokenAccount account = false ->
  AccountStatus.owner account <> Some SYSTEM_PROGRAM_ID ->
  Reclaim.createCloseInstruction account authority destination w
  = if Rpc.validKey (World.rpc w) (AccountStatus.pubkey account)
    then (Returned None, w)
    else (Threw (Rpc.keyError (World.rpc w) (AccountStatus.pubkey account)), w).
Proof.
  intros Htoken Howner. unfold Reclaim.createCloseInstruction, bind, Reclaim.newPublicKey.
  destruct (Rpc.validKey _ _); [|reflexivity].
  rewrite Htoken, bool_decide_false by exact Howner. reflexivity.
Qed.

(** A batch of one denied account. *)
Lemma processBatch_single_denied (account : AccountStatus.t) (treasury : string)
    (dryRun : bool) (w : World.t) (operator : string) (reason : Reason) :
  Config.operatorKeypair (World.cfg w) = inr operator ->
  Safety.checkAccount w account = Safety.deny reason ->
  exists w',
    Reclaim.processBatch [account] treasury dryRun w
    = (Returned (BatchReclaimResult.mk []
                   [Reclaim.failure (AccountStatus.pubkey account) (Some reason)] 0), w')
    /\ same_but_log w w'.
Proof.
  intros Hkey Hdeny.
  unfold Reclaim.processBatch. unfold bind at 1. unfold Reclaim.getOperatorKeypair.
  rewrite Hkey. cbn [Reclaim.buildLoop]. unfold bind at 1. unfold bind at 1.
  unfold Reclaim.buildStep. unfold bind at 1. unfold gets at 1.
  rewrite Hdeny. cbn [Safety.deny SafetyCheckResult.allowed SafetyCheckResult.reason negb].
  unfold bind at 1. unfold Reclaim.logEntry, modify, ret. simpl.
  eexists. split; [reflexivity|]. repeat split.
Qed.

(** C10 (amended): the status [reclaimSingle] makes up can never get a
    close instruction ([createCloseInstruction] answers null, or throws
    what [new PublicKey] throws on a malformed key), and it never gets that
    far: it carries no [operatorCanClose], so the safety check denies it
    first. Hence [reclaimSingle] never submits a transaction, writes no
    history row, changes no account row and does not move the run counter,
    and it never returns a success. It does not always return: without a
    treasury address it throws 'Treasury address not configured', and with
    a malformed one what [new PublicKey] throws, the world left as it was.
    In every other case it returns the failure record of the key, with the
    authority denial as reason (or the error of the operator wallet when
    that cannot be loaded). *)
Theorem reclaimSingle_never_reclaims (pubkey : string) (w : World.t) :
  let treasury := Config.treasuryAddress (World.cfg w) in
  (forall authority destination,
     Reclaim.createCloseInstruction (Reclaim.syntheticStatus pubkey) authority destination w
     = if Rpc.validKey (World.rpc w) pubkey
       then (Returned None, w) else (Threw (Rpc.keyError (World.rpc w) pubkey), w))
  /\ Safety.checkAccount w (Reclaim.syntheticStatus pubkey) = Safety.deny OperatorNotCloseAuthority
  /\ (forall o w', Reclaim.reclaimSingle pubkey w = (o, w') ->
        same_but_log w w'
        /\ match o with
           | Returned r =>
               treasury <> "" /\ Rpc.validKey (World.rpc w) treasury = true
               /\ ReclaimResult.pubkey r = pubkey
               /\ ReclaimResult.success r = false
               /\ ReclaimResult.lamportsReclaimed r = 0
               /\ ReclaimResult.txSignature r = None
               /\ is_Some (ReclaimResult.error r)
           | Threw message =>
               w' = w
               /\ ((treasury = "" /\ message = "Treasury address not configured")
                   \/ (treasury <> "" /\ Rpc.validKey (World.rpc w) treasury = false
                       /\ message = Rpc.keyError (World.rpc w) treasury))
           end)
  /\ (treasury = "" ->
      Reclaim.reclaimSingle pubkey w = (Threw "Treasury address not configured", w))
  /\ (treasury <> "" -> Rpc.validKey (World.rpc w) treasury = false ->
      Reclaim.reclaimSingle pubkey w = (Threw (Rpc.keyError (World.rpc w) treasury), w))
  /\ (treasury <> "" -> Rpc.validKey (World.rpc w) treasury = true ->
      exists w',
        Reclaim.reclaimSingle pubkey w
        = (Returned (Reclaim.failure pubkey
                       (Some match Config.operatorKeypair (World.cfg w) with
                             | inr _ => OperatorNotCloseAuthority
                             | inl msg => ErrorMessage msg
                             end)), w')
        /\ same_but_log w w').
Proof.
  intros treasury.
  assert (Hdeny : Safety.checkAccount w (Reclaim.syntheticStatus pubkey)
                  = Safety.deny OperatorNotCloseAuthority)
    by (apply checkAccount_no_authority; reflexivity).
  assert (Hconfigured :
    treasury <> "" ->
    Rpc.validKey (World.rpc w) treasury = true ->
    exists w',
      Reclaim.reclaimSingle pubkey w
      = (Returned (Reclaim.failure pubkey
                     (Some match Config.operatorKeypair (World.cfg w) with
                           | inr _ => OperatorNotCloseAuthority
                           | inl msg => ErrorMessage msg
                           end)), w')
      /\ same_but_log w w').
  { intros Htreasury Hvalid. unfold Reclaim.reclaimSingle. unfold bind at 1.
    rewrite reclaimAccounts_run by (assumption || discriminate).
    change (Reclaim.createBatches [Reclaim.syntheticStatus pubkey] Reclaim.MAX_INSTRUCTIONS)
      with [[Reclaim.syntheticStatus pubkey]].
    cbn [Reclaim.batchesLoop]. unfold bind at 1. unfold try_catch. unfold bind at 1.
    destruct (Config.operatorKeypair (World.cfg w)) as [msg|operator] eqn:Hkey.
    - rewrite (processBatch_no_keypair _ _ _ w msg Hkey).
      unfold ret at 1. unfold bind at 1. unfold gets at 1.
      exists w. destruct (PrimFloat.leb _ _); (split; [reflexivity | apply same_but_log_refl]).
    - destruct (processBatch_single_denied (Reclaim.syntheticStatus pubkey)
                  (Config.treasuryAddress (World.cfg w)) (Config.dryRun (World.cfg w))
                  w operator OperatorNotCloseAuthority Hkey Hdeny) as (w1 & -> & Hsame).
      unfold ret at 1. unfold bind at 1. unfold gets at 1.
      exists w1. destruct (PrimFloat.leb _ _); (split; [reflexivity | exact Hsame]). }
  assert (Hnone : treasury = "" ->
            Reclaim.reclaimSingle pubkey w = (Threw "Treasury address not configured", w)).
  { intros Hempty. unfold Reclaim.reclaimSingle. unfold bind at 1.
    destruct (reclaimAccounts_guards [Reclaim.syntheticStatus pubkey] w) as (_ & Hno & _).
    rewrite Hno by (assumption || discriminate). reflexivity. }
  assert (Hmalformed : treasury <> "" -> Rpc.validKey (World.rpc w) treasury = false ->
            Reclaim.reclaimSingle pubkey w
            = (Threw (Rpc.keyError (World.rpc w) treasury), w)).
  { intros Hset Hinvalid. unfold Reclaim.reclaimSingle. unfold bind at 1.
    destruct (reclaimAccounts_guards [Reclaim.syntheticStatus pubkey] w) as (_ & _ & Hbad).
    rewrite Hbad by (assumption || discriminate). reflexivity. }
  split; [intros authority destination;
          apply createCloseInstruction_unowned; [reflexivity | discriminate]|].
  split; [exact Hdeny|].
  split; [|split; [exact Hnone | split; [exact Hmalformed | exact Hconfigured]]].
  intros o w' Hrun.
  destruct (decide (treasury = "")) as [Hempty|Hset].
  { rewrite (Hnone Hempty) in Hrun. injection Hrun as <- <-.
    split; [apply same_but_log_refl|]. split; [reflexivity|]. left. split; [exact Hempty|].
    reflexivity. }
  destruct (Rpc.validKey (World.rpc w) treasury) eqn:Hvalid.
  - destruct (Hconfigured Hset eq_refl) as (w1 & Heq & Hsame).
    rewrite Heq in Hrun. injection Hrun as <- <-.
    split; [exact Hsame|]. split; [exact Hset|]. split; [reflexivity|].
    do 4 (split; [reflexivity|]). simpl. eauto.
  - rewrite (Hmalformed Hset eq_refl) in Hrun. injection Hrun as <- <-.
    split; [apply same_but_log_refl|]. split; [reflexivity|]. right.
    split; [exact Hset|]. split; reflexivity.
Qed.

(** ** Retries *)


(** ** Scanner *)

Lemma token_is_not_system : TOKEN_PROGRAM_ID <> SYSTEM_PROGRAM_ID.
Proof. discriminate. Qed.

(** C8 (amended): for a token-owned account that passes the scanner's
    pre-check (not whitelisted, not executable, not scanned within the last
    [minIdleDays] days) and whose data decodes, the close authority is the
    decoded close-authority field when its option tag is 1 and the token
    owner field otherwise; when it is the operator's key the status gets
    [operatorCanClose = true] and the store gets [markAsReclaimable], and
    otherwise (another key, or no operator key loaded) the status gets
    [operatorCanClose = false] and the store [clearReclaimableState]; the
    authority is then written with [updateAccountAuthority]. A token-owned
    account stopped by the pre-check, or whose data does not decode, is
    returned with [operatorCanClose = false] and the store is not touched. *)
Theorem analyzeAccount_token_authority (pubkey : string) (info : AccountInfo.t) (w : World.t) :
  AccountInfo.owner info = TOKEN_PROGRAM_ID ->
  let status := fst (Scanner.analyzeAccount pubkey (Some info) w) in
  let w' := snd (Scanner.analyzeAccount pubkey (Some info) w) in
  AccountStatus.isTokenAccount status = true
  /\ (Scanner.checkSafetyRules w pubkey info = None ->
      forall decoded, AccountInfo.decoded info = Some decoded ->
      let closeAuthority := Scanner.decodedCloseAuthority decoded in
      AccountStatus.closeAuthority status = Some closeAuthority
      /\ (RawAccount.closeAuthorityOption decoded = 1 ->
          closeAuthority = RawAccount.closeAuthority decoded)
      /\ (RawAccount.closeAuthorityOption decoded <> 1 ->
          closeAuthority = RawAccount.owner decoded)
      /\ (ConfigManager.operatorPublicKey (World.cfg w) = Some closeAuthority ->
          AccountStatus.operatorCanClose status = true
          /\ AccountStatus.isReclaimable status = true
          /\ World.db w'
             = DatabaseManager.updateAccountAuthority pubkey (Some closeAuthority) true
                 (DatabaseManager.markAsReclaimable (World.now w) pubkey (World.db w)))
      /\ (ConfigManager.operatorPublicKey (World.cfg w) <> Some closeAuthority ->
          AccountStatus.operatorCanClose status = false
          /\ AccountStatus.isReclaimable status = false
          /\ World.db w'
             = DatabaseManager.updateAccountAuthority pubkey (Some closeAuthority) false
                 (DatabaseManager.clearReclaimableState pubkey (World.db w))))
  /\ (forall reason, Scanner.checkSafetyRules w pubkey info = Some reason ->
        AccountStatus.operatorCanClose status = false
        /\ AccountStatus.closeAuthority status = None
        /\ AccountStatus.skipReason status = Some reason
        /\ w' = w)
  /\ (Scanner.checkSafetyRules w pubkey info = None -> AccountInfo.decoded info = None ->
        AccountStatus.operatorCanClose status = false
        /\ AccountStatus.skipReason status = Some SkipDecodeFailed
        /\ w' = w).
Proof.
  intros Howner. unfold Scanner.analyzeAccount.
  rewrite Howner.
  rewrite (bool_decide_true (TOKEN_PROGRAM_ID = TOKEN_PROGRAM_ID)) by reflexivity.
  rewrite (bool_decide_false (TOKEN_PROGRAM_ID = SYSTEM_PROGRAM_ID)) by exact token_is_not_system.
  cbn [Scanner.set_isTokenAccount AccountStatus.isTokenAccount].
  destruct (Scanner.checkSafetyRules w pubkey info) as [skipReason|].
  { split; [reflexivity|]. split; [discriminate|]. split.
    - intros reason [= <-]. repeat split.
    - discriminate. }
  destruct (AccountInfo.decoded info) as [decoded|].
  2:{ split; [reflexivity|]. split; [discriminate|]. split; [discriminate|].
      intros _ _. repeat split. }
  split.
  { destruct (bool_decide _); reflexivity. }
  split; [|split; discriminate].
  intros _ decoded' [= <-]. cbv zeta.
  split; [destruct (bool_decide _); reflexivity|].
  split; [intros Hopt; unfold Scanner.decodedCloseAuthority; rewrite Hopt; reflexivity|].
  split; [intros Hopt; unfold Scanner.decodedCloseAuthority;
          apply Z.eqb_neq in Hopt; rewrite Hopt; reflexivity|].
  split.
  - intros Hmatch. rewrite bool_decide_true by exact Hmatch. repeat split.
  - intros Hmismatch. rewrite bool_decide_false by exact Hmismatch. repeat split.
Qed.

(** The scanner's pre-check is timed by [lastChecked], and [scanOne]
    stamps [lastChecked]: with a positive [minIdleDays], on a host in any
    zone in use, a tracked account that was just scanned is stopped by the
    pre-check of the next scan at the same time. *)
Lemma rescan_is_stopped_by_lastChecked (pubkey : string) (info : option AccountInfo.t)
    (next : AccountInfo.t) (w : World.t) (row : SponsoredAccount.t) :
  DatabaseManager.getAccount pubkey (World.db w) = Some row ->
  0 < Config.minIdleDays (World.cfg w) ->
  real_zone (World.rpc w) ->
  is_Some (Scanner.checkSafetyRules (snd (Scanner.scanOne pubkey info w)) pubkey next).
Proof.
  intros Hget Hpos Hzone.
  assert (Hscan : exists w', snd (Scanner.scanOne pubkey info w) = w'
            /\ World.cfg w' = World.cfg w /\ World.now w' = World.now w
            /\ World.rpc w' = World.rpc w
            /\ SponsoredAccount.lastChecked
                 <$> DatabaseManager.getAccount pubkey (World.db w')
               = Some (Some (DatabaseManager.datetime (World.now w)))).
  { unfold Scanner.scanOne.
    destruct (Scanner.analyzeAccount pubkey info w) as [status w1] eqn:Han.
    assert (Hw1 : World.cfg w1 = World.cfg w /\ World.now w1 = World.now w
                  /\ World.rpc w1 = World.rpc w
                  /\ is_Some (DatabaseManager.getAccount pubkey (World.db w1))).
    { unfold Scanner.analyzeAccount in Han.
      destruct info as [i|].
      - destruct (Scanner.checkSafetyRules w pubkey i);
          [injection Han as _ <-; repeat split; rewrite Hget; eauto|].
        destruct (bool_decide (AccountInfo.owner i = SYSTEM_PROGRAM_ID));
          [injection Han as _ <-; repeat split; rewrite Hget; eauto|].
        destruct (AccountStatus.isTokenAccount _);
          [|injection Han as _ <-; repeat split; rewrite Hget; eauto].
        destruct (AccountInfo.decoded i);
          [|injection Han as _ <-; repeat split; rewrite Hget; eauto].
        destruct (bool_decide _); injection Han as _ <-; simpl; repeat split.
        + unfold DatabaseManager.updateAccountAuthority, DatabaseManager.markAsReclaimable.
          rewrite !getAccount_alter_eq, Hget. simpl. eauto.
        + unfold DatabaseManager.updateAccountAuthority, DatabaseManager.clearReclaimableState.
          rewrite !getAccount_alter_eq, Hget. simpl. eauto.
      - injection Han as _ <-. simpl. repeat split.
        unfold DatabaseManager.updateAccountStatus. rewrite getAccount_alter_eq, Hget.
        simpl. eauto. }
    destruct Hw1 as (Hcfg & Hnow & Hrpc & [row1 Hrow1]).
    eexists. split; [reflexivity|]. simpl.
    split; [exact Hcfg|]. split; [exact Hnow|]. split; [exact Hrpc|].
    destruct info; unfold DatabaseManager.updateAccountStatus;
      rewrite getAccount_alter_eq, Hrow1; simpl; rewrite Hnow; reflexivity. }
  destruct Hscan as (w' & -> & Hcfg & Hnow & Hrpc & Hlast).
  unfold Scanner.checkSafetyRules.
  destruct (_ || _); [eauto|]. destruct (AccountInfo.executable next); [eauto|].
  destruct (DatabaseManager.getAccount pubkey (World.db w')) as [row'|]; [|discriminate].
  simpl in Hlast. injection Hlast as ->.
  rewrite Hnow, Hcfg, Hrpc.
  assert (Hlt : Qlt_bool (daysBetween (World.now w)
                            (parseDate (World.rpc w) (DatabaseManager.datetime (World.now w))))
                  (inject_Z (Config.minIdleDays (World.cfg w))) = true).
  { apply Qlt_bool_days. unfold parseDate.
    pose proof (datetime_bounds (World.now w)) as Hsecond.
    pose proof (Hzone (DatabaseManager.datetime (World.now w))) as Hoffset.
    unfold MS_PER_DAY. lia. }
  cbv zeta. rewrite Hlt. eauto.
Qed.

(** The earlier copy of the safety manager lets an account through that
    the operator cannot close, and times idleness from [lastChecked]. *)
Lemma legacy_gate_differs :
  let w := Sample.world (Sample.config false)
             (Sample.dbWith (Sample.row "A" (Some (Sample.today - MS_PER_DAY))
                               (Some (Sample.today - 30 * MS_PER_DAY)) true))
             Sample.goodNode in
  LegacySafety.checkAccount w (Sample.foreign "B" 0) = Safety.allow
  /\ Safety.checkAccount w (Sample.foreign "B" 0) = Safety.deny OperatorNotCloseAuthority
  /\ SafetyCheckResult.allowed (LegacySafety.checkIdleDuration w "A") = false
  /\ Safety.checkIdleDuration w "A" = Safety.allow.
Proof. vm_compute. repeat split. Qed.

(** ** The statements on the sample worlds *)

Lemma checkAccount_authority_first_witness :
  Safety.checkAccount (Sample.world (Sample.config false) Sample.emptyDb Sample.goodNode)
    (Sample.foreign "B" (Sample.sol 1))
  = Safety.deny OperatorNotCloseAuthority.
Proof.
  exact (proj1 (checkAccount_authority_first
                  (Sample.world (Sample.config false) Sample.emptyDb Sample.goodNode)
                  (Sample.foreign "B" (Sample.sol 1)) eq_refl)).
Defined.





(** Counterexample to C4 as stated. Eleven accounts of 1 SOL under a cap
    of 10 SOL: the first batch uses the budget up, the run stops, and the
    eleventh account has no outcome record at all. *)
Lemma early_stop_counterexample :
  let w := Sample.world (Sample.config false) Sample.emptyDb Sample.goodNode in
  exists res,
    fst (Reclaim.reclaimAccounts Sample.eleven w) = Returned res
    /\ In (Sample.token "a11" (Sample.sol 1)) Sample.eleven
    /\ ~ In "a11" (recordedKeys res)
    /\ length (recordedKeys res) = 10%nat.
Proof.
  eexists. split; [vm_compute; reflexivity|].
  split; [vm_compute; tauto|].
  split; [|reflexivity].
  vm_compute. intros H. repeat (destruct H as [H|H]; [discriminate H|]). exact H.
Qed.

Lemma reclaimAccounts_records_processed_batches_witness :
  let w := Sample.world (Sample.config false) Sample.emptyDb Sample.goodNode in
  exists res w' n,
    Reclaim.reclaimAccounts Sample.eleven w = (Returned res, w')
    /\ Permutation (recordedKeys res)
         (map AccountStatus.pubkey (take (n * Reclaim.MAX_INSTRUCTIONS) Sample.eleven))
    /\ well_formed_result res
    /\ (Sample.eleven <> [] -> (1 <= n)%nat)
    /\ ((n * Reclaim.MAX_INSTRUCTIONS < length Sample.eleven)%nat ->
          (Safety.getRemainingBudget (World.safety w') <=? 0)%float = true)
    /\ ((Safety.getRemainingBudget (World.safety w') <=? 0)%float = false ->
          Permutation (recordedKeys res) (map AccountStatus.pubkey Sample.eleven)).
Proof.
  intros w. apply (reclaimAccounts_records_processed_batches Sample.eleven w).
  - discriminate.
  - reflexivity.
Defined.


(** Counterexample to C6 as stated. A row that has been reclaimable since
    some time, with [operatorCanClose] true, is upserted again by an
    import: the stored [reclaimableSince] becomes null. *)
Lemma upsert_counterexample :
  let before := Sample.row "A" (Some Sample.today) (Some (Sample.today - 30 * MS_PER_DAY)) true in
  let imported := Sample.row "A" None None false in
  SponsoredAccount.reclaimableSince
    <$> DatabaseManager.getAccount "A" (Sample.dbWith before)
  = Some (Some (Sample.today - 30 * MS_PER_DAY))
  /\ SponsoredAccount.operatorCanClose before = true
  /\ SponsoredAccount.reclaimableSince
       <$> DatabaseManager.getAccount "A"
             (DatabaseManager.addAccount imported (Sample.dbWith before))
     = Some None
  /\ SponsoredAccount.reclaimableSince
       <$> DatabaseManager.getAccount "A"
             (DatabaseManager.addAccountsBatch [imported] (Sample.dbWith before))
     = Some None.
Proof. vm_compute. repeat split. Qed.

Lemma addAccount_last_write_wins_witness :
  DatabaseManager.getAccount "A"
    (DatabaseManager.addAccount (Sample.row "A" None None false)
       (Sample.dbWith (Sample.row "A" (Some Sample.today) (Some Sample.today) true)))
  = Some (Sample.row "A" None None false).
Proof.
  exact (proj1 (addAccount_last_write_wins
                  (Sample.dbWith (Sample.row "A" (Some Sample.today) (Some Sample.today) true))
                  (Sample.row "A" None None false))).
Defined.


(** Counterexample to C8 as stated. A token account whose close authority
    is the operator, scanned one day after the previous scan with
    [minIdleDays = 7]: the pre-check stops it, the layout is not decoded,
    [operatorCanClose] stays false and [markAsReclaimable] is not called.
    Likewise an account that lost its authority keeps its idle clock. *)
Lemma scanner_precheck_counterexample :
  let yesterday := Sample.today - MS_PER_DAY in
  let w := Sample.world (Sample.config false)
             (Sample.dbWith (Sample.row "A" (Some yesterday) None false)) Sample.goodNode in
  let v := Sample.world (Sample.config false)
             (Sample.dbWith (Sample.row "A" (Some yesterday) (Some yesterday) true))
             Sample.goodNode in
  (AccountInfo.owner (Sample.tokenInfo Sample.operator) = TOKEN_PROGRAM_ID
   /\ Scanner.decodedCloseAuthority <$> AccountInfo.decoded (Sample.tokenInfo Sample.operator)
      = ConfigManager.operatorPublicKey (World.cfg w)
   /\ AccountStatus.operatorCanClose
        (fst (Scanner.analyzeAccount "A" (Some (Sample.tokenInfo Sample.operator)) w)) = false
   /\ AccountStatus.closeAuthority
        (fst (Scanner.analyzeAccount "A" (Some (Sample.tokenInfo Sample.operator)) w)) = None
   /\ World.db (snd (Scanner.analyzeAccount "A" (Some (Sample.tokenInfo Sample.operator)) w))
      = World.db w)
  /\ (Scanner.decodedCloseAuthority <$> AccountInfo.decoded (Sample.tokenInfo Sample.stranger)
      <> ConfigManager.operatorPublicKey (World.cfg v)
      /\ World.db (snd (Scanner.analyzeAccount "A" (Some (Sample.tokenInfo Sample.stranger)) v))
         = World.db v
      /\ SponsoredAccount.reclaimableSince
           <$> DatabaseManager.getAccount "A"
                 (World.db (snd (Scanner.analyzeAccount "A"
                                   (Some (Sample.tokenInfo Sample.stranger)) v)))
         = Some (Some yesterday)).
Proof.
  split.
  - repeat split.
  - split; [discriminate|]. split; reflexivity.
Qed.

Lemma analyzeAccount_token_authority_witness :
  let w := Sample.world (Sample.config false) Sample.emptyDb Sample.goodNode in
  AccountStatus.operatorCanClose
    (fst (Scanner.analyzeAccount "A" (Some (Sample.tokenInfoNoAuthority Sample.operator)) w))
  = true.
Proof.
  intros w.
  destruct (analyzeAccount_token_authority "A" (Sample.tokenInfoNoAuthority Sample.operator) w
              eq_refl) as (_ & H & _).
  destruct (H eq_refl _ eq_refl) as (_ & _ & _ & Hop & _).
  apply Hop. reflexivity.
Defined.

Lemma dry_run_reports_without_acting_witness :
  let w := Sample.world (Sample.config true) Sample.emptyDb Sample.goodNode in
  let batch := [Sample.token "A" (Sample.sol 1); Sample.foreign "B" (Sample.sol 1)] in
  exists w',
    Reclaim.processBatch batch Sample.treasury true w
    = (Returned (BatchReclaimResult.mk
                   [ReclaimResult.mk "A" true (Sample.sol 1) None None]
                   [Reclaim.failure "B" (Some OperatorNotCloseAuthority)]
                   (Sample.sol 1)), w')
    /\ same_but_log w w'
    /\ World.logEntries w'
       = [ReclaimLogEntry.mk "B" log_skipped 0 (Some OperatorNotCloseAuthority) None;
          ReclaimLogEntry.mk "A" log_reclaimed (Sample.sol 1) None (Some "DRY_RUN")].
Proof.
  intros w batch.
  destruct (proj1 (proj2 (dry_run_reports_without_acting w)) batch Sample.treasury
              Sample.operator eq_refl) as (w' & Hrun & Hsame & Hlog & _).
  exists w'. split; [exact Hrun|]. split; [exact Hsame | exact Hlog].
Defined.

(** Counterexample to C10 as stated. With TREASURY_ADDRESS unset,
    [reclaimSingle] returns no result at all: it throws. *)
Lemma reclaimSingle_counterexample :
  let w := Sample.world Sample.unconfigured Sample.emptyDb Sample.goodNode in
  Reclaim.reclaimSingle "A" w = (Threw "Treasury address not configured", w).
Proof. reflexivity. Qed.

Lemma reclaimSingle_never_reclaims_witness :
  let w := Sample.world (Sample.config false) Sample.emptyDb Sample.goodNode in
  exists w',
    Reclaim.reclaimSingle "A" w
    = (Returned (Reclaim.failure "A" (Some OperatorNotCloseAuthority)), w')
    /\ same_but_log w w'.
Proof.
  intros w.
  apply (proj2 (proj2 (proj2 (proj2 (proj2 (reclaimSingle_never_reclaims "A" w)))))).
  - discriminate.
  - reflexivity.
Defined.

(** * Further properties *)

(** ** The store: updates, listings and counts *)

(** A row is listed by [getAllAccounts] exactly when it is stored. *)
Lemma In_getAllAccounts (r : SponsoredAccount.t) (d : Db.t) :
  In r (DatabaseManager.getAllAccounts d)
  <-> exists k, DatabaseManager.getAccount k d = Some r.
Proof.
  unfold DatabaseManager.getAllAccounts, DatabaseManager.getAccount.
  rewrite in_map_iff. split.
  - intros ([k r'] & <- & Hin). exists k.
    apply list_elem_of_In in Hin. apply elem_of_map_to_list in Hin. exact Hin.
  - intros (k & Hk). exists (k, r). split; [reflexivity|].
    apply list_elem_of_In. apply elem_of_map_to_list. exact Hk.
Qed.

Lemma In_getActiveAccounts (r : SponsoredAccount.t) (d : Db.t) :
  In r (DatabaseManager.getActiveAccounts d)
  <-> (exists k, DatabaseManager.getAccount k d = Some r)
      /\ SponsoredAccount.status r = active.
Proof.
  unfold DatabaseManager.getActiveAccounts. rewrite filter_In, In_getAllAccounts.
  unfold DatabaseManager.statusIs.
  split; intros [H1 H2]; (split; [exact H1|]);
    destruct (SponsoredAccount.status r); congruence.
Qed.

(** Every update of [sponsored_accounts] is an [UPDATE ... WHERE pubkey = ?]. *)
Lemma row_update_frame (f : SponsoredAccount.t -> SponsoredAccount.t) (pubkey : string)
    (d : Db.t) :
  let d' := DatabaseManager.on_accounts (alter f pubkey) d in
  (forall k, is_Some (DatabaseManager.getAccount k d')
             <-> is_Some (DatabaseManager.getAccount k d))
  /\ (forall k, k <> pubkey -> DatabaseManager.getAccount k d' = DatabaseManager.getAccount k d)
  /\ DatabaseManager.getAccount pubkey d' = f <$> DatabaseManager.getAccount pubkey d
  /\ (DatabaseManager.getAccount pubkey d = None -> d' = d)
  /\ Db.reclaim_history d' = Db.reclaim_history d
  /\ Db.whitelist d' = Db.whitelist d.
Proof.
  intros d'. subst d'.
  assert (Heq : DatabaseManager.getAccount pubkey
                  (DatabaseManager.on_accounts (alter f pubkey) d)
                = f <$> DatabaseManager.getAccount pubkey d).
  { unfold DatabaseManager.getAccount, DatabaseManager.on_accounts. simpl.
    apply lookup_alter_eq. }
  assert (Hne : forall k, k <> pubkey ->
                  DatabaseManager.getAccount k (DatabaseManager.on_accounts (alter f pubkey) d)
                  = DatabaseManager.getAccount k d).
  { intros k Hk. unfold DatabaseManager.getAccount, DatabaseManager.on_accounts. simpl.
    apply lookup_alter_ne. congruence. }
  split; [|split; [exact Hne | split; [exact Heq | split; [|split; reflexivity]]]].
  - intros k. destruct (decide (k = pubkey)) as [->|Hk].
    + rewrite Heq. rewrite fmap_is_Some. reflexivity.
    + rewrite Hne by exact Hk. reflexivity.
  - intros Hnone. unfold DatabaseManager.on_accounts, DatabaseManager.getAccount in *.
    destruct d as [rows hist wl]. simpl in *. f_equal.
    apply map_eq. intros k. destruct (decide (k = pubkey)) as [->|Hk].
    + rewrite lookup_alter_eq, Hnone. reflexivity.
    + rewrite lookup_alter_ne by congruence. reflexivity.
Qed.

(** X1: the four UPDATE statements of the store ([updateAccountStatus],
    [updateAccountAuthority], [markAsReclaimable], [clearReclaimableState])
    never insert or delete a row, never touch the row of another key, keep
    the [pubkey] column of the row they change, leave the store as it was
    when the key is not tracked, and never touch the history or the
    whitelist. *)
Theorem updates_touch_only_their_row (d : Db.t) (pubkey : string) (now : Z)
    (status : Status) (lamports : option Z) (closeAuthority : option string)
    (operatorCanClose : bool) :
  Forall (fun update : Db.t -> Db.t =>
      (forall k, is_Some (DatabaseManager.getAccount k (update d))
                 <-> is_Some (DatabaseManager.getAccount k d))
      /\ (forall k, k <> pubkey ->
            DatabaseManager.getAccount k (update d) = DatabaseManager.getAccount k d)
      /\ (forall r', DatabaseManager.getAccount pubkey (update d) = Some r' ->
            exists r, DatabaseManager.getAccount pubkey d = Some r
                      /\ SponsoredAccount.pubkey r' = SponsoredAccount.pubkey r
                      /\ SponsoredAccount.createdAt r' = SponsoredAccount.createdAt r
                      /\ SponsoredAccount.programOwner r' = SponsoredAccount.programOwner r
                      /\ SponsoredAccount.sponsorSignature r'
                         = SponsoredAccount.sponsorSignature r)
      /\ (DatabaseManager.getAccount pubkey d = None -> update d = d)
      /\ Db.reclaim_history (update d) = Db.reclaim_history d
      /\ Db.whitelist (update d) = Db.whitelist d)
    [DatabaseManager.updateAccountStatus now pubkey status lamports;
     DatabaseManager.updateAccountAuthority pubkey closeAuthority operatorCanClose;
     DatabaseManager.markAsReclaimable now pubkey;
     DatabaseManager.clearReclaimableState pubkey].
Proof.
  unfold DatabaseManager.updateAccountStatus, DatabaseManager.updateAccountAuthority,
         DatabaseManager.markAsReclaimable, DatabaseManager.clearReclaimableState.
  repeat (apply List.Forall_cons;
    [match goal with
     | |- context [DatabaseManager.on_accounts (alter ?f pubkey) d] =>
         destruct (row_update_frame f pubkey d) as (Hsome & Hne & Heq & Hnone & Hhist & Hwl)
     end;
     split; [exact Hsome|]; split; [exact Hne|];
     split; [|split; [exact Hnone | split; [exact Hhist | exact Hwl]]];
     intros r' Hr'; rewrite Heq in Hr';
     destruct (DatabaseManager.getAccount pubkey d) as [r|]; simpl in Hr'; [|discriminate];
     injection Hr' as <-; exists r; split; [reflexivity|];
     try (destruct (SponsoredAccount.reclaimableSince r)); repeat split
    |]).
  apply List.Forall_nil.
Qed.

Lemma count_by_status (l : list SponsoredAccount.t) :
  length l
  = (length (List.filter (DatabaseManager.statusIs active) l)
     + length (List.filter (DatabaseManager.statusIs closed) l)
     + length (List.filter (DatabaseManager.statusIs reclaimed) l)
     + length (List.filter (DatabaseManager.statusIs skipped) l))%nat.
Proof.
  induction l as [|r l IH]; [reflexivity|].
  cbn [List.filter]. unfold DatabaseManager.statusIs in *.
  destruct (SponsoredAccount.status r); cbn [length]; lia.
Qed.

Lemma authorityBreakdown_fold (l : list SponsoredAccount.t) :
  forall canClose cannotClose,
  let step := fun '(canClose, cannotClose) acc =>
      match SponsoredAccount.status acc with
      | active =>
          if SponsoredAccount.operatorCanClose acc
          then (S canClose, cannotClose)
          else (canClose, S cannotClose)
      | _ => (canClose, cannotClose)
      end in
  fold_left step l (canClose, cannotClose)
  = ((canClose
      + length (List.filter (fun r => DatabaseManager.statusIs active r
                                      && SponsoredAccount.operatorCanClose r) l))%nat,
     (cannotClose
      + length (List.filter (fun r => DatabaseManager.statusIs active r
                                      && negb (SponsoredAccount.operatorCanClose r)) l))%nat).
Proof.
  induction l as [|r l IH]; intros canClose cannotClose step.
  - simpl. f_equal; lia.
  - cbn [fold_left List.filter]. subst step. cbv beta zeta in IH |- *.
    unfold DatabaseManager.statusIs in *.
    destruct (SponsoredAccount.status r); cbn [andb];
      try (rewrite IH; reflexivity).
    destruct (SponsoredAccount.operatorCanClose r); cbn [negb]; rewrite IH; cbn [length];
      f_equal; lia.
Qed.

Lemma filter_split_length {A} (p q : A -> bool) (l : list A) :
  (length (List.filter (fun x => p x && q x) l)
   + length (List.filter (fun x => p x && negb (q x)) l))%nat
  = length (List.filter p l).
Proof.
  induction l as [|x l IH]; [reflexivity|].
  cbn [List.filter]. destruct (p x), (q x); cbn [andb negb length]; lia.
Qed.

(** X2: the numbers shown by the status and dashboard commands add up.
    [getAccountCount] reports a total that is the sum of its active, closed
    and reclaimed counts and of the rows with status 'skipped', which it
    does not report; the two numbers of [getAuthorityBreakdown] add up to
    the active count; the active count is the number of rows
    [getActiveAccounts] returns (the [total] of a scan); [getStats] carries
    the same counts. *)
Theorem account_counts_add_up (d : Db.t) :
  let c := DatabaseManager.getAccountCount d in
  DatabaseManager.total c
  = (DatabaseManager.activeCount c + DatabaseManager.closedCount c
     + DatabaseManager.reclaimedCount c + DatabaseManager.countStatus skipped d)%nat
  /\ (fst (Dashboard.getAuthorityBreakdown d) + snd (Dashboard.getAuthorityBreakdown d))%nat
     = DatabaseManager.activeCount c
  /\ DatabaseManager.activeCount c = length (DatabaseManager.getActiveAccounts d)
  /\ fst (Kora.getStats d) = c
  /\ (DatabaseManager.total c = 0%nat <-> forall k, DatabaseManager.getAccount k d = None).
Proof.
  intros c. subst c. unfold DatabaseManager.getAccountCount. simpl.
  split; [apply count_by_status|].
  split.
  { unfold Dashboard.getAuthorityBreakdown.
    rewrite (authorityBreakdown_fold (DatabaseManager.getAllAccounts d) 0 0). simpl.
    apply filter_split_length. }
  split; [reflexivity|]. split; [reflexivity|].
  unfold DatabaseManager.getAllAccounts, DatabaseManager.getAccount.
  rewrite length_map, length_map_to_list. split.
  - intros Hsize k. apply map_size_empty_iff in Hsize. rewrite Hsize. apply lookup_empty.
  - intros Hnone. apply map_size_empty_iff. apply map_empty. exact Hnone.
Qed.

(** ** The whitelist table *)

Lemma whitelist_table_facts (d : Db.t) (now : Z) (pubkey : string) (reason : option string) :
  DatabaseManager.isWhitelisted pubkey (DatabaseManager.addToWhitelist now pubkey reason d) = true
  /\ DatabaseManager.isWhitelisted pubkey (DatabaseManager.removeFromWhitelist pubkey d) = false
  /\ (forall k, k <> pubkey ->
        Db.whitelist (DatabaseManager.addToWhitelist now pubkey reason d) !! k
        = Db.whitelist d !! k
        /\ Db.whitelist (DatabaseManager.removeFromWhitelist pubkey d) !! k
           = Db.whitelist d !! k)
  /\ Db.sponsored_accounts (DatabaseManager.addToWhitelist now pubkey reason d)
     = Db.sponsored_accounts d
  /\ Db.reclaim_history (DatabaseManager.addToWhitelist now pubkey reason d)
     = Db.reclaim_history d
  /\ Db.sponsored_accounts (DatabaseManager.removeFromWhitelist pubkey d)
     = Db.sponsored_accounts d
  /\ Db.reclaim_history (DatabaseManager.removeFromWhitelist pubkey d)
     = Db.reclaim_history d.
Proof.
  unfold DatabaseManager.addToWhitelist, DatabaseManager.removeFromWhitelist,
         DatabaseManager.isWhitelisted.
  destruct d as [rows hist wl]. simpl.
  destruct (wl !! pubkey) as [entry|] eqn:Hwl; simpl.
  - rewrite Hwl. rewrite bool_decide_true by eauto.
    rewrite lookup_delete_eq. rewrite bool_decide_false by (intros [? ?]; discriminate).
    split; [reflexivity|]. split; [reflexivity|].
    split; [intros k Hk; split; [reflexivity | apply lookup_delete_ne; congruence]|].
    repeat split.
  - rewrite lookup_insert_eq. rewrite bool_decide_true by eauto.
    rewrite lookup_delete_eq. rewrite bool_decide_false by (intros [? ?]; discriminate).
    split; [reflexivity|]. split; [reflexivity|].
    split; [intros k Hk; split;
            [apply lookup_insert_ne; congruence | apply lookup_delete_ne; congruence]|].
    repeat split.
Qed.

(** X3: [addToWhitelist] of the store is INSERT OR IGNORE: the key is
    listed afterwards, and a key that was listed already keeps its entry
    (the first reason stays); [removeFromWhitelist] unlists the key;
    neither touches another key, a row or the history; adding a key that
    was not listed and removing it again gives back the store as it was. *)
Theorem whitelist_table_add_remove (d : Db.t) (now : Z) (pubkey : string)
    (reason : option string) :
  let added := DatabaseManager.addToWhitelist now pubkey reason d in
  let removed := DatabaseManager.removeFromWhitelist pubkey d in
  DatabaseManager.isWhitelisted pubkey added = true
  /\ DatabaseManager.isWhitelisted pubkey removed = false
  /\ (forall k, k <> pubkey ->
        Db.whitelist added !! k = Db.whitelist d !! k
        /\ Db.whitelist removed !! k = Db.whitelist d !! k)
  /\ (forall entry, Db.whitelist d !! pubkey = Some entry -> added = d)
  /\ (Db.whitelist d !! pubkey = None ->
        Db.whitelist added !! pubkey
        = Some (WhitelistEntry.mk (DatabaseManager.reasonOrNull reason)
                       (DatabaseManager.datetime now))
        /\ DatabaseManager.removeFromWhitelist pubkey added = d)
  /\ Db.sponsored_accounts added = Db.sponsored_accounts d
  /\ Db.reclaim_history added = Db.reclaim_history d
  /\ Db.sponsored_accounts removed = Db.sponsored_accounts d
  /\ Db.reclaim_history removed = Db.reclaim_history d.
Proof.
  intros added removed. subst added removed.
  unfold DatabaseManager.addToWhitelist, DatabaseManager.removeFromWhitelist,
         DatabaseManager.isWhitelisted.
  destruct d as [rows hist wl]. simpl.
  destruct (wl !! pubkey) as [entry|] eqn:Hwl; simpl.
  - rewrite Hwl. rewrite bool_decide_true by eauto.
    rewrite lookup_delete_eq. rewrite bool_decide_false by (intros [? ?]; discriminate).
    split; [reflexivity|]. split; [reflexivity|].
    split; [intros k Hk; split; [reflexivity | apply lookup_delete_ne; congruence]|].
    split; [reflexivity|]. split; [discriminate|]. repeat split.
  - rewrite lookup_insert_eq. rewrite bool_decide_true by eauto.
    rewrite lookup_delete_eq. rewrite bool_decide_false by (intros [? ?]; discriminate).
    split; [reflexivity|]. split; [reflexivity|].
    split; [intros k Hk; split;
            [apply lookup_insert_ne; congruence | apply lookup_delete_ne; congruence]|].
    split; [discriminate|].
    split; [|repeat split].
    intros _. split; [reflexivity|]. f_equal.
    rewrite delete_insert_eq. apply delete_id. exact Hwl.
Qed.

(** ** Quoting of keys in queries *)

Lemma append_cons (c : Ascii.ascii) (s t : string) :
  String.append (String c s) t = String c (String.append s t).
Proof. reflexivity. Qed.

Lemma append_nil (t : string) : String.append EmptyString t = t.
Proof. reflexivity. Qed.

Lemma readLiteral_escapeString (s tail : string) :
  (match tail with
   | String c _ => Ascii.eqb c DatabaseManager.QUOTE = false
   | EmptyString => True
   end) ->
  readLiteral (String.append (DatabaseManager.escapeString s)
                 (String DatabaseManager.QUOTE tail))
  = Some (s, tail).
Proof.
  intros Htail. induction s as [|c s IH].
  - cbn [DatabaseManager.escapeString]. rewrite append_nil. cbn [readLiteral].
    rewrite Ascii.eqb_refl.
    destruct tail as [|c' tail']; [reflexivity|]. rewrite Htail. reflexivity.
  - cbn [DatabaseManager.escapeString].
    destruct (Ascii.eqb c DatabaseManager.QUOTE) eqn:Hc.
    + apply Ascii.eqb_eq in Hc. subst c.
      rewrite !append_cons. cbn [readLiteral]. rewrite !Ascii.eqb_refl, IH. reflexivity.
    + rewrite append_cons. cbn [readLiteral]. rewrite Hc, IH. reflexivity.
Qed.

(** X4: [escapeString] doubles every single quote, so that the literal
    ['...'] built by [getAccount] and [isWhitelisted] is read back by the
    database as the key itself, whatever characters the key holds, with
    nothing of the key left over after the closing quote; two different
    keys never give the same literal, and a key without a single quote
    (every base58 key) is passed as it is. *)
Theorem escapeString_literal (pubkey : string) :
  readLiteral (String.append (DatabaseManager.escapeString pubkey)
                 (String DatabaseManager.QUOTE EmptyString))
  = Some (pubkey, EmptyString)
  /\ (forall other, DatabaseManager.escapeString other = DatabaseManager.escapeString pubkey ->
        other = pubkey)
  /\ (quoteFree pubkey = true -> DatabaseManager.escapeString pubkey = pubkey)
  /\ (String.length pubkey <= String.length (DatabaseManager.escapeString pubkey))%nat.
Proof.
  split; [apply readLiteral_escapeString; exact I|].
  split; [|split].
  - intros other Heq.
    pose proof (readLiteral_escapeString other EmptyString I) as H1.
    pose proof (readLiteral_escapeString pubkey EmptyString I) as H2.
    rewrite Heq in H1. congruence.
  - induction pubkey as [|c s IH]; [reflexivity|].
    cbn [quoteFree DatabaseManager.escapeString]. intros H.
    apply andb_true_iff in H. destruct H as [Hc Hs].
    apply negb_true_iff in Hc. rewrite Hc, (IH Hs). reflexivity.
  - induction pubkey as [|c s IH]; [reflexivity|].
    cbn [DatabaseManager.escapeString].
    destruct (Ascii.eqb c DatabaseManager.QUOTE); cbn [String.length]; lia.
Qed.

(** ** The run budget *)

(** How a double stands to zero: it is NaN, positive, or at most zero,
    and exactly one of the three. *)
Lemma float_sign_cases (x : float) :
  (PrimFloat.is_nan x = true /\ (0 <? x)%float = false /\ (x <=? 0)%float = false
   /\ (x <? 0)%float = false)
  \/ (PrimFloat.is_nan x = false /\ (0 <? x)%float = true /\ (x <=? 0)%float = false
      /\ (x <? 0)%float = false)
  \/ (PrimFloat.is_nan x = false /\ (0 <? x)%float = false /\ (x <=? 0)%float = true).
Proof.
  unfold PrimFloat.is_nan.
  rewrite FloatAxioms.eqb_spec, !ltb_spec, leb_spec.
  change (Prim2SF 0) with (S754_zero false).
  destruct (Prim2SF x) as [s | s | | s m e]; cbn.
  - right. right. repeat split.
  - destruct s; [right; right | right; left]; repeat split.
  - left. repeat split.
  - unfold SFeqb, SFltb, SFleb. cbn. rewrite Z.compare_refl, Pos.compare_cont_refl.
    destruct s; cbn; [right; right | right; left]; repeat split.
Qed.

Lemma max0_cases (x : float) :
  (max0 x <? 0)%float = false
  /\ ((0 <? x)%float = true -> max0 x = x)
  /\ ((x <=? 0)%float = true -> max0 x = 0%float)
  /\ (PrimFloat.is_nan x = true -> max0 x = x)
  /\ (max0 x <=? 0)%float = (x <=? 0)%float.
Proof.
  unfold max0.
  destruct (float_sign_cases x)
    as [(Hn & Hp & Hz & Hneg) | [(Hn & Hp & Hz & Hneg) | (Hn & Hp & Hz)]];
    rewrite Hn, ?Hp.
  - repeat split; congruence.
  - repeat split; congruence.
  - repeat split; try congruence. rewrite Hz. reflexivity.
Qed.

(** X5: the remaining budget is [Math.max(0, cap * 1e9 - used)] on
    doubles: the difference itself when that is positive (or NaN), zero
    when it is zero or negative, and never negative; the test on which
    [reclaimAccounts] stops, [remaining <= 0], holds exactly when the
    difference is at most zero. The remaining budget does not decide the
    run limit, which adds quotients: under a cap of 0.3 SOL of which
    0.1 SOL is used, the remaining budget is 200000000 lamports and an
    account of 200000000 lamports is denied. *)
Theorem remaining_budget_is_clamped_difference (s : SafetyManager.t) :
  let rest := (SafetyConfig.maxReclaimSolPerRun (SafetyManager.config s) * 1e9
               - number (SafetyManager.totalReclaimedThisRun s))%float in
  let remaining := Safety.getRemainingBudget s in
  (remaining <? 0)%float = false
  /\ ((0 <? rest)%float = true -> remaining = rest)
  /\ ((rest <=? 0)%float = true -> remaining = 0%float)
  /\ (PrimFloat.is_nan rest = true -> remaining = rest)
  /\ (remaining <=? 0)%float = (rest <=? 0)%float
  /\ (let used := Safety.recordReclaim 100000000 (Safety.create Sample.tightConfig) in
      (Safety.getRemainingBudget used =? number 200000000)%float = true
      /\ SafetyCheckResult.allowed (Safety.checkReclaimLimit used 200000000) = false).
Proof.
  intros rest remaining.
  destruct (max0_cases rest) as (Hneg & Hpos & Hzero & Hnan & Hstop).
  split; [exact Hneg|]. split; [exact Hpos|]. split; [exact Hzero|].
  split; [exact Hnan|]. split; [exact Hstop|].
  vm_compute. split; reflexivity.
Qed.

(** ** Filtering by the gate *)

Lemma filterSafeAccounts_fold_snd (w : World.t) (accounts safe : list AccountStatus.t)
    (filtered : list (AccountStatus.t * option Reason)) :
  snd (fold_left (fun '(safe, filtered) account =>
        let check := Safety.checkAccount w account in
        if SafetyCheckResult.allowed check then (safe ++ [account], filtered)
        else (safe, filtered ++ [(account, SafetyCheckResult.reason check)]))
      accounts (safe, filtered))
  = filtered
    ++ map (fun a => (a, SafetyCheckResult.reason (Safety.checkAccount w a)))
         (List.filter (fun a => negb (SafetyCheckResult.allowed (Safety.checkAccount w a)))
            accounts).
Proof.
  revert safe filtered.
  induction accounts as [|a accounts IH]; intros safe filtered; simpl.
  - symmetry. apply app_nil_r.
  - destruct (SafetyCheckResult.allowed (Safety.checkAccount w a)); simpl.
    + apply IH.
    + rewrite IH, <- app_assoc. reflexivity.
Qed.

Lemma filter_partition_perm {A} (p : A -> bool) (l : list A) :
  Permutation (List.filter p l ++ List.filter (fun x => negb (p x)) l) l.
Proof.
  induction l as [|x l IH]; [constructor|].
  simpl. destruct (p x); simpl.
  - constructor. exact IH.
  - symmetry. apply Permutation_cons_app. symmetry. exact IH.
Qed.

(** X6: [filterSafeAccounts] splits its input in two without losing or
    repeating an account: [safe] holds the accounts the gate allows and
    [filtered] the others, both in the order of the input, and every
    filtered account comes with the reason of its denial (the 'Unknown'
    fallback is never used). *)
Theorem filterSafeAccounts_partitions (w : World.t) (accounts : list AccountStatus.t) :
  let safe := fst (Safety.filterSafeAccounts w accounts) in
  let filtered := snd (Safety.filterSafeAccounts w accounts) in
  safe = List.filter (fun a => SafetyCheckResult.allowed (Safety.checkAccount w a)) accounts
  /\ map fst filtered
     = List.filter (fun a => negb (SafetyCheckResult.allowed (Safety.checkAccount w a)))
         accounts
  /\ Forall (fun entry => exists r, snd entry = Some r
                                    /\ Safety.checkAccount w (fst entry) = Safety.deny r)
            filtered
  /\ (length safe + length filtered)%nat = length accounts
  /\ Permutation (safe ++ map fst filtered) accounts.
Proof.
  intros safe filtered.
  assert (Hsafe : safe = List.filter
            (fun a => SafetyCheckResult.allowed (Safety.checkAccount w a)) accounts)
    by apply filterSafeAccounts_safe.
  assert (Hfiltered : filtered
            = map (fun a => (a, SafetyCheckResult.reason (Safety.checkAccount w a)))
                (List.filter
                   (fun a => negb (SafetyCheckResult.allowed (Safety.checkAccount w a)))
                   accounts)).
  { subst filtered. unfold Safety.filterSafeAccounts.
    rewrite filterSafeAccounts_fold_snd. reflexivity. }
  assert (Hfst : map fst filtered
            = List.filter
                (fun a => negb (SafetyCheckResult.allowed (Safety.checkAccount w a)))
                accounts).
  { rewrite Hfiltered, map_map. simpl. apply map_id. }
  assert (Hperm : Permutation (safe ++ map fst filtered) accounts).
  { rewrite Hsafe, Hfst. apply filter_partition_perm. }
  split; [exact Hsafe|]. split; [exact Hfst|]. split; [|split; [|exact Hperm]].
  - rewrite Hfiltered. apply List.Forall_forall. intros entry Hin.
    apply in_map_iff in Hin. destruct Hin as (a & <- & Ha).
    apply filter_In in Ha. destruct Ha as [_ Ha]. apply negb_true_iff in Ha.
    destruct (checkAccount_denied_reason w a Ha) as (r & Hr).
    exists r. simpl. rewrite Hr. split; reflexivity.
  - apply Permutation_length in Hperm. rewrite length_app, length_map in Hperm. exact Hperm.
Qed.

(** ** Whitelisting through the safety manager *)

Lemma dedupe_fold (xs : list string) :
  forall seen, NoDup seen ->
  let out := fold_left (fun seen x => if bool_decide (x ∈ seen) then seen else seen ++ [x])
               xs seen in
  NoDup out /\ forall k, In k out <-> In k seen \/ In k xs.
Proof.
  induction xs as [|x xs IH]; intros seen Hnd; simpl.
  - split; [exact Hnd | intros k; tauto].
  - destruct (decide (x ∈ seen)) as [Hx|Hx].
    + rewrite bool_decide_true by exact Hx.
      destruct (IH seen Hnd) as [Hnd' Hin]. split; [exact Hnd'|].
      intros k. rewrite Hin. apply list_elem_of_In in Hx.
      split; [tauto|]. intros [H|[<-|H]]; tauto.
    + rewrite bool_decide_false by exact Hx.
      assert (Hnd1 : NoDup (seen ++ [x])).
      { apply NoDup_app. split; [exact Hnd|]. split.
        - intros y Hy Hy'. apply list_elem_of_singleton in Hy'. subst y. contradiction.
        - apply NoDup_singleton. }
      destruct (IH (seen ++ [x]) Hnd1) as [Hnd' Hin]. split; [exact Hnd'|].
      intros k. rewrite Hin, in_app_iff. simpl. tauto.
Qed.

Lemma In_getWhitelist (w : World.t) (k : string) :
  In k (Safety.getWhitelist w) <-> Safety.isWhitelisted w k = true.
Proof.
  unfold Safety.getWhitelist, Safety.dedupe.
  destruct (dedupe_fold
              (map fst (DatabaseManager.getWhitelist (World.db w))
               ++ ConfigManager.getWhitelist (World.cfg w)) [] NoDup_nil_2) as [_ Hin].
  rewrite Hin. simpl. rewrite in_app_iff.
  unfold Safety.isWhitelisted, DatabaseManager.isWhitelisted, ConfigManager.isWhitelisted,
         DatabaseManager.getWhitelist, ConfigManager.getWhitelist.
  rewrite orb_true_iff, !bool_decide_eq_true.
  rewrite <- list_elem_of_In, <- (list_elem_of_In (elements _)).
  rewrite elem_of_elements.
  assert (Hdb : k ∈ map fst (map_to_list (Db.whitelist (World.db w)))
                <-> is_Some (Db.whitelist (World.db w) !! k)).
  { rewrite list_elem_of_In, in_map_iff. split.
    - intros ([k' e] & <- & Hk). apply list_elem_of_In, elem_of_map_to_list in Hk.
      simpl. eauto.
    - intros [e He]. exists (k, e). split; [reflexivity|].
      apply list_elem_of_In, elem_of_map_to_list. exact He. }
  rewrite Hdb. tauto.
Qed.

(** X7: whitelisting through the safety manager. After [addToWhitelist]
    the key is whitelisted, the gate denies every status object for it
    (with 'Account is whitelisted' when the authority test passes), and the
    scanner skips it before looking at owner or authority, so that its
    idle clock is neither started nor cleared; after [removeFromWhitelist]
    the key is whitelisted no more, whichever of the table and the
    configuration held it; no other key changes side, no row and no
    history entry is touched; [getWhitelist] lists exactly the whitelisted
    keys, each once. *)
Theorem whitelist_guards_gate_and_scanner (w : World.t) (pubkey : string)
    (reason : option string) :
  let w1 := Safety.addToWhitelist pubkey reason w in
  let w2 := Safety.removeFromWhitelist pubkey w in
  Safety.isWhitelisted w1 pubkey = true
  /\ (forall account, AccountStatus.pubkey account = pubkey ->
        SafetyCheckResult.allowed (Safety.checkAccount w1 account) = false
        /\ (AccountStatus.operatorCanClose account = true ->
            Safety.checkAccount w1 account = Safety.deny AccountIsWhitelisted))
  /\ (forall info,
        Scanner.analyzeAccount pubkey (Some info) w1
        = (Scanner.set_skip SkipWhitelisted
             (Scanner.set_isTokenAccount
                (bool_decide (AccountInfo.owner info = TOKEN_PROGRAM_ID))
                (Scanner.initialStatus pubkey (Some info))), w1))
  /\ Safety.isWhitelisted w2 pubkey = false
  /\ (forall k, k <> pubkey ->
        Safety.isWhitelisted w1 k = Safety.isWhitelisted w k
        /\ Safety.isWhitelisted w2 k = Safety.isWhitelisted w k)
  /\ (forall k, In k (Safety.getWhitelist w) <-> Safety.isWhitelisted w k = true)
  /\ NoDup (Safety.getWhitelist w)
  /\ Db.sponsored_accounts (World.db w1) = Db.sponsored_accounts (World.db w)
  /\ Db.reclaim_history (World.db w1) = Db.reclaim_history (World.db w)
  /\ Db.sponsored_accounts (World.db w2) = Db.sponsored_accounts (World.db w)
  /\ Db.reclaim_history (World.db w2) = Db.reclaim_history (World.db w)
  /\ World.safety w1 = World.safety w /\ World.safety w2 = World.safety w.
Proof.
  intros w1 w2.
  destruct (whitelist_table_facts (World.db w) (World.now w) pubkey reason)
    as (Hadd & Hrem & Hother & Hrows1 & Hhist1 & Hrows2 & Hhist2).
  assert (H1 : Safety.isWhitelisted w1 pubkey = true).
  { unfold Safety.isWhitelisted. subst w1. simpl. rewrite Hadd. reflexivity. }
  assert (H2 : Safety.isWhitelisted w2 pubkey = false).
  { unfold Safety.isWhitelisted. subst w2. simpl. rewrite Hrem. simpl.
    unfold ConfigManager.isWhitelisted, ConfigManager.removeFromWhitelist. simpl.
    apply bool_decide_false. rewrite elem_of_difference, elem_of_singleton. tauto. }
  split; [exact H1|]. split; [|split; [|split; [exact H2|split; [|split; [|split]]]]].
  - intros account Hpk. split.
    + apply not_true_iff_false. rewrite checkAccount_allowed_iff.
      intros (_ & Hwl & _). rewrite Hpk in Hwl. congruence.
    + intros Hcan. unfold Safety.checkAccount. rewrite Hcan, Hpk, H1. reflexivity.
  - intros info. unfold Scanner.analyzeAccount, Scanner.checkSafetyRules.
    unfold Safety.isWhitelisted in H1. rewrite H1. reflexivity.
  - intros k Hk. unfold Safety.isWhitelisted. subst w1 w2. simpl.
    unfold DatabaseManager.isWhitelisted.
    destruct (Hother k Hk) as [-> ->].
    unfold ConfigManager.isWhitelisted, ConfigManager.addToWhitelist,
           ConfigManager.removeFromWhitelist. simpl.
    split; f_equal; apply bool_decide_ext;
      [rewrite elem_of_union, elem_of_singleton | rewrite elem_of_difference, elem_of_singleton];
      tauto.
  - apply In_getWhitelist.
  - unfold Safety.getWhitelist, Safety.dedupe.
    apply (dedupe_fold _ [] NoDup_nil_2).
  - subst w1 w2. simpl. repeat split; assumption.
Qed.

(** ** What the reclaim engine submits *)

Lemma createCloseInstruction_log (account : AccountStatus.t) (authority destination : string)
    (w w' : World.t) :
  same_but_log w w' ->
  fst (Reclaim.createCloseInstruction account authority destination w')
  = fst (Reclaim.createCloseInstruction account authority destination w).
Proof.
  intros (_ & _ & _ & Hrpc & _ & Hsub & _).
  unfold Reclaim.createCloseInstruction. run_monad. rewrite Hrpc.
  destruct (Rpc.validKey _ _); [|reflexivity].
  destruct (AccountStatus.isTokenAccount account).
  - rewrite Hrpc, Hsub.
    destruct (Rpc.getAccount _ _ _) as [amount| |msg]; try reflexivity.
    destruct (0 <? amount); reflexivity.
  - destruct (bool_decide _); reflexivity.
Qed.

Lemma buildStep_pending (account : AccountStatus.t) (operator treasury : string)
    (result : BatchReclaimResult.t) (p : Reclaim.Pending) (w : World.t) :
  exists result' p' w',
    Reclaim.buildStep account operator treasury result p w = (Returned (result', p'), w')
    /\ same_but_log w w'
    /\ (p' = p
        \/ exists ix,
             SafetyCheckResult.allowed (Safety.checkAccount w account) = true
             /\ fst (Reclaim.createCloseInstruction account operator treasury w)
                = Returned (Some ix)
             /\ p' = Reclaim.mkPending (Reclaim.instructions p ++ [ix])
                       (Reclaim.accountsInTx p ++ [account])).
Proof.
  unfold Reclaim.buildStep.
  unfold bind at 1. unfold gets at 1.
  destruct (SafetyCheckResult.allowed (Safety.checkAccount w account)) eqn:Hallowed; simpl.
  - pose proof (createCloseInstruction_frame account operator treasury w) as Hframe.
    unfold try_catch, bind at 1.
    destruct (Reclaim.createCloseInstruction account operator treasury w) as [[[ix|]|msg] w1];
      simpl in Hframe; subst w1; unfold ret.
    + do 3 eexists. split; [reflexivity|]. split; [apply same_but_log_refl|].
      right. exists ix. repeat split.
    + do 3 eexists. split; [reflexivity|]. split; [apply same_but_log_refl|]. left. reflexivity.
    + do 3 eexists. split; [reflexivity|]. split; [apply same_but_log_refl|]. left. reflexivity.
  - run_monad. do 3 eexists. split; [reflexivity|]. split; [repeat split|].
    left. reflexivity.
Qed.

(** The accounts of the transaction and its instructions go in pairs. *)
Lemma buildLoop_pairs (operator treasury : string) (accounts : list AccountStatus.t) :
  forall (result : BatchReclaimResult.t) (p : Reclaim.Pending) (w : World.t),
  exists result' p' w' T I,
    Reclaim.buildLoop accounts operator treasury result p w = (Returned (result', p'), w')
    /\ Reclaim.accountsInTx p' = Reclaim.accountsInTx p ++ T
    /\ Reclaim.instructions p' = Reclaim.instructions p ++ I
    /\ Forall2 (built_in w operator treasury accounts) T I.
Proof.
  induction accounts as [|account rest IH]; intros result p w.
  - exists result, p, w, [], []. simpl. rewrite !app_nil_r.
    split; [reflexivity|]. split; [reflexivity|]. split; [reflexivity|]. constructor.
  - destruct (buildStep_pending account operator treasury result p w)
      as (r1 & p1 & w1 & Hstep & Hsame & Hcase).
    destruct (IH r1 p1 w1) as (r2 & p2 & w2 & T & I & Hloop & HT & HI & Hpairs).
    assert (Hrun : Reclaim.buildLoop (account :: rest) operator treasury result p w
                   = (Returned (r2, p2), w2)).
    { simpl. unfold bind. rewrite Hstep. simpl. exact Hloop. }
    assert (Hlift : Forall2 (built_in w operator treasury (account :: rest)) T I).
    { eapply Forall2_impl; [exact Hpairs|].
      intros a ix (Hin & Hok & Hix). split; [right; exact Hin|].
      split.
      - rewrite <- (checkAccount_same_but_log w w1 a Hsame). exact Hok.
      - rewrite <- (createCloseInstruction_log a operator treasury w w1 Hsame). exact Hix. }
    destruct Hcase as [-> | (ix & Hok & Hix & ->)].
    + exists r2, p2, w2, T, I. repeat split; assumption.
    + exists r2, p2, w2, (account :: T), (ix :: I). simpl in HT, HI.
      split; [exact Hrun|].
      split; [rewrite HT, <- app_assoc; reflexivity|].
      split; [rewrite HI, <- app_assoc; reflexivity|].
      constructor; [|exact Hlift].
      split; [left; reflexivity|]. split; assumption.
Qed.

Lemma classic_in (k : string) (l : list string) : In k l \/ ~ In k l.
Proof. destruct (in_dec string_dec k l); [left | right]; assumption. Qed.

(** The rows after the loop that follows a confirmed transaction. *)
Lemma successLoop_rows (signature : option string) (accs : list AccountStatus.t) :
  forall (result : BatchReclaimResult.t) (w : World.t),
  let w' := snd (Reclaim.successLoop accs signature result w) in
  World.now w' = World.now w
  /\ forall key,
       (In key (map AccountStatus.pubkey accs) ->
        DatabaseManager.getAccount key (World.db w')
        = reclaimedRow (World.now w) <$> DatabaseManager.getAccount key (World.db w))
       /\ (~ In key (map AccountStatus.pubkey accs) ->
           DatabaseManager.getAccount key (World.db w')
           = DatabaseManager.getAccount key (World.db w)).
Proof.
  induction accs as [|acc rest IH]; intros result w w'.
  - subst w'. simpl. split; [reflexivity|]. intros key. split; [intros []|reflexivity].
  - subst w'. simpl. run_monad.
    match goal with |- context [Reclaim.successLoop rest signature ?r ?w1] =>
      destruct (IH r w1) as (Hnow & Hrows) end.
    simpl in Hnow, Hrows.
    split; [exact Hnow|]. intros key.
    destruct (Hrows key) as [Hin Hout].
    unfold DatabaseManager.addReclaimHistory, DatabaseManager.updateAccountStatus,
           DatabaseManager.on_accounts, DatabaseManager.getAccount in *. simpl in *.
    destruct (decide (key = AccountStatus.pubkey acc)) as [->|Hne].
    + split; [|intros H; exfalso; apply H; left; reflexivity].
      intros _.
      destruct (classic_in (AccountStatus.pubkey acc) (map AccountStatus.pubkey rest))
        as [Hrest|Hrest].
      * rewrite (Hin Hrest), lookup_alter_eq.
        destruct (Db.sponsored_accounts (World.db w) !! AccountStatus.pubkey acc);
          reflexivity.
      * rewrite (Hout Hrest), lookup_alter_eq. reflexivity.
    + rewrite lookup_alter_ne in Hin, Hout by congruence.
      split.
      * intros [Heq|Hrest]; [congruence | exact (Hin Hrest)].
      * intros Hno. apply Hout. intros Hrest. apply Hno. right. exact Hrest.
Qed.

(** [executeWithRetry] submits the same instruction list one to three
    times and nothing else; time moves forward only. *)
Lemma executeWithRetry_submitted (instructions : list Instruction) (w : World.t) :
  exists tx w' k,
    Reclaim.executeWithRetry instructions w = (Returned tx, w')
    /\ (1 <= k <= 3)%nat
    /\ World.submitted w' = World.submitted w ++ repeat instructions k
    /\ World.now w <= World.now w'
    /\ World.cfg w' = World.cfg w /\ World.db w' = World.db w
    /\ World.safety w' = World.safety w /\ World.rpc w' = World.rpc w
    /\ World.logEntries w' = World.logEntries w.
Proof.
  destruct (executeWithRetry_run instructions w)
    as (tx & w' & Hrun & Hcfg & Hdb & Hsafety & Hrpc & Hlog & Hcases).
  destruct (Rpc.sendAndConfirm _ _ _) as [s1|e1].
  { destruct Hcases as (_ & Hsub & _ & Hnow).
    exists tx, w', 1%nat. simpl. repeat split; try assumption; lia. }
  destruct (Rpc.sendAndConfirm _ _ _) as [s2|e2].
  { destruct Hcases as (_ & Hsub & _ & Hnow).
    exists tx, w', 2%nat. simpl. repeat split; try assumption; lia. }
  destruct (Rpc.sendAndConfirm _ _ _) as [s3|e3]; destruct Hcases as (_ & Hsub & _ & Hnow);
    exists tx, w', 3%nat; simpl; repeat split; try assumption; lia.
Qed.

Lemma getTotalReclaimed_history (d d' : Db.t) (rows : list ReclaimHistoryEntry.t) :
  Db.reclaim_history d' = Db.reclaim_history d ++ rows ->
  DatabaseManager.getTotalReclaimed d'
  = DatabaseManager.getTotalReclaimed d
    + DatabaseManager.getTotalReclaimed (Db.mk (Db.sponsored_accounts d) rows (Db.whitelist d)).
Proof.
  intros Hrows. unfold DatabaseManager.getTotalReclaimed. rewrite Hrows. simpl.
  rewrite List.filter_app, map_app.
  generalize (map ReclaimHistoryEntry.lamportsReclaimed
                (List.filter (fun e => match ReclaimHistoryEntry.status e with
                                       | h_success => true | _ => false end)
                   (Db.reclaim_history d))).
  intros l. induction l as [|x l IH]; simpl; [reflexivity | rewrite IH; lia].
Qed.

Lemma getTotalReclaimed_success_rows (rows : gmap string SponsoredAccount.t)
    (wl : gmap string WhitelistEntry.t) (signature : option string) (now : Z)
    (T : list AccountStatus.t) :
  DatabaseManager.getTotalReclaimed
    (Db.mk rows
       (map (fun acc => ReclaimHistoryEntry.mk (AccountStatus.pubkey acc)
                          (AccountStatus.lamports acc) h_success None signature now) T) wl)
  = sumLamports T.
Proof.
  unfold DatabaseManager.getTotalReclaimed, sumLamports. simpl.
  induction T as [|a T IH]; simpl; [reflexivity | rewrite IH; reflexivity].
Qed.

Lemma getTotalReclaimed_failed_rows (rows : gmap string SponsoredAccount.t)
    (wl : gmap string WhitelistEntry.t) (reason : option Reason) (now : Z)
    (T : list AccountStatus.t) :
  DatabaseManager.getTotalReclaimed
    (Db.mk rows
       (map (fun acc => ReclaimHistoryEntry.mk (AccountStatus.pubkey acc) 0 h_failed
                          reason None now) T) wl)
  = 0.
Proof.
  unfold DatabaseManager.getTotalReclaimed. simpl.
  induction T as [|a T IH]; simpl; [reflexivity | exact IH].
Qed.

Lemma run_frame_refl (w : World.t) : run_frame w w.
Proof.
  unfold run_frame. do 4 (split; [reflexivity|]). split; [reflexivity | lia].
Qed.

Lemma run_frame_trans (w1 w2 w3 : World.t) :
  run_frame w1 w2 -> run_frame w2 w3 -> run_frame w1 w3.
Proof.
  intros (?&?&?&?&Hrs1&?) (?&?&?&?&Hrs2&?).
  unfold run_frame. do 4 (split; [congruence|]). split; [|lia].
  intros k. rewrite Hrs2. apply Hrs1.
Qed.

Lemma run_frame_same_rows (w w' : World.t) :
  World.cfg w' = World.cfg w -> World.rpc w' = World.rpc w ->
  SafetyManager.config (World.safety w') = SafetyManager.config (World.safety w) ->
  Db.whitelist (World.db w') = Db.whitelist (World.db w) ->
  Db.sponsored_accounts (World.db w') = Db.sponsored_accounts (World.db w) ->
  World.now w <= World.now w' ->
  run_frame w w'.
Proof.
  intros Hcfg Hrpc Hconf Hwl Hrows Hnow. unfold run_frame.
  do 4 (split; [assumption|]). split; [|assumption].
  intros k. unfold DatabaseManager.getAccount. rewrite Hrows. reflexivity.
Qed.

(** One batch, when the operator key can be loaded: what was submitted,
    for which accounts, and what the books say afterwards. [T] are the
    accounts of the transaction, [I] its instructions, [k] the number of
    submissions and [confirmed] tells whether one of them was confirmed. *)
Lemma processBatch_effects (batch : list AccountStatus.t) (treasury : string)
    (dryRun : bool) (w : World.t) (operator : string) :
  Config.operatorKeypair (World.cfg w) = inr operator ->
  exists res w' T I k (confirmed : bool) signature,
    Reclaim.processBatch batch treasury dryRun w = (Returned res, w')
    /\ Forall2 (built_in w operator treasury batch) T I
    /\ (length T <= length batch)%nat
    /\ World.submitted w' = World.submitted w ++ repeat I k
    /\ (k <= 3)%nat
    /\ (k <> 0%nat -> I <> [] /\ dryRun = false)
    /\ (confirmed = true -> dryRun = false /\ k <> 0%nat)
    /\ BatchReclaimResult.successful res
       = (if confirmed then map (reclaimedRecord signature) T
          else if dryRun then map (reclaimedRecord None) T else [])
    /\ BatchReclaimResult.totalLamportsReclaimed res
       = sumReclaimed (BatchReclaimResult.successful res)
    /\ SafetyManager.totalReclaimedThisRun (World.safety w')
       = SafetyManager.totalReclaimedThisRun (World.safety w)
         + (if dryRun then 0 else BatchReclaimResult.totalLamportsReclaimed res)
    /\ DatabaseManager.getTotalReclaimed (World.db w')
       = DatabaseManager.getTotalReclaimed (World.db w)
         + (if dryRun then 0 else BatchReclaimResult.totalLamportsReclaimed res)
    /\ (forall key, confirmed = true -> In key (map AccountStatus.pubkey T) ->
          DatabaseManager.getAccount key (World.db w')
          = reclaimedRow (World.now w') <$> DatabaseManager.getAccount key (World.db w))
    /\ (forall key, confirmed = false \/ ~ In key (map AccountStatus.pubkey T) ->
          DatabaseManager.getAccount key (World.db w')
          = DatabaseManager.getAccount key (World.db w))
    /\ run_frame w w'.
Proof.
  intros Hkey.
  destruct (processBatch_run batch treasury dryRun w operator Hkey)
    as (F & T & I & L & w1 & Hloop & Hsame & Hlog & Hlen & Hperm & HF & Hdenied & Happroved
        & HL & Heq).
  destruct (buildLoop_pairs operator treasury batch Reclaim.emptyResult
              (Reclaim.mkPending [] []) w)
    as (r' & p' & w1' & T' & I' & Hloop' & HT' & HI' & Hpairs).
  rewrite Hloop in Hloop'. injection Hloop' as <- <- <-. simpl in HT', HI'. subst T' I'.
  assert (HlenT : (length T <= length batch)%nat).
  { apply Permutation_length in Hperm. rewrite length_app, !length_map in Hperm. lia. }
  pose proof Hsame as (Hcfg1 & Hdb1 & Hsafety1 & Hrpc1 & Hnow1 & Hsub1 & Hslept1).
  assert (Hframe1 : run_frame w w1).
  { apply run_frame_same_rows; try congruence. lia. }
  rewrite Heq. clear Heq.
  destruct (length I =? 0)%nat eqn:Hempty.
  { apply Nat.eqb_eq in Hempty. destruct I; [|discriminate].
    inversion Hpairs; subst.
    exists (BatchReclaimResult.mk [] F 0), w1, [], [], 0%nat, false, None. simpl.
    split; [reflexivity|]. split; [constructor|]. split; [lia|].
    split; [rewrite app_nil_r; exact Hsub1|]. split; [lia|].
    split; [congruence|]. split; [discriminate|].
    split; [destruct dryRun; reflexivity|]. split; [reflexivity|].
    split; [rewrite Hsafety1; destruct dryRun; lia|].
    split; [rewrite Hdb1; destruct dryRun; lia|].
    split; [discriminate|]. split; [intros key _; rewrite Hdb1; reflexivity|].
    exact Hframe1. }
  destruct dryRun.
  { destruct (dryRunLoop_run T (BatchReclaimResult.mk [] F 0) w1)
      as (w' & -> & Hsame' & Hlog').
    pose proof Hsame' as (Hcfg2 & Hdb2 & Hsafety2 & Hrpc2 & Hnow2 & Hsub2 & Hslept2).
    eexists _, w', T, I, 0%nat, false, None. simpl.
    split; [reflexivity|]. split; [exact Hpairs|]. split; [exact HlenT|].
    split; [rewrite app_nil_r; congruence|]. split; [lia|].
    split; [congruence|]. split; [discriminate|].
    split; [reflexivity|]. split; [apply sumReclaimed_reclaimedRecord|].
    split; [rewrite Hsafety2, Hsafety1; simpl; lia|].
    split; [rewrite Hdb2, Hdb1; simpl; lia|].
    split; [discriminate|]. split; [intros key _; rewrite Hdb2, Hdb1; reflexivity|].
    eapply run_frame_trans; [exact Hframe1|].
    apply run_frame_same_rows; try congruence. lia. }
  destruct (executeWithRetry_submitted I w1)
    as (tx & w2 & k & -> & Hk & Hsub2 & Hnow2 & Hcfg2 & Hdb2 & Hsafety2 & Hrpc2 & Hlog2).
  assert (Hne : I <> []).
  { intros ->. discriminate. }
  assert (Hframe2 : run_frame w w2).
  { eapply run_frame_trans; [exact Hframe1|].
    apply run_frame_same_rows; try congruence. }
  destruct (Reclaim.tx_success tx).
  - destruct (successLoop_run (Reclaim.tx_signature tx) T (BatchReclaimResult.mk [] F 0) w2)
      as (w' & Hsucc & Hcfg3 & Hrpc3 & Hnow3 & Hsub3 & Hslept3 & Htot3 & Hconf3 & Hhist3
          & Hwl3 & Hlog3).
    pose proof (successLoop_rows (Reclaim.tx_signature tx) T (BatchReclaimResult.mk [] F 0) w2)
      as Hrows. rewrite Hsucc in Hrows. simpl in Hrows. destruct Hrows as (_ & Hrows).
    rewrite Hsucc.
    eexists _, w', T, I, k, true, (Reclaim.tx_signature tx). simpl.
    split; [reflexivity|]. split; [exact Hpairs|]. split; [exact HlenT|].
    split; [rewrite Hsub3, Hsub2, Hsub1; reflexivity|]. split; [lia|].
    split; [intros _; split; [exact Hne | reflexivity]|].
    split; [intros _; split; [reflexivity | lia]|].
    split; [reflexivity|]. split; [apply sumReclaimed_reclaimedRecord|].
    split; [rewrite Htot3, Hsafety2, Hsafety1; reflexivity|].
    split.
    { rewrite (getTotalReclaimed_history (World.db w2) (World.db w') _ Hhist3).
      rewrite getTotalReclaimed_success_rows, Hdb2, Hdb1. reflexivity. }
    split.
    { intros key _ Hin. destruct (Hrows key) as [Hyes _].
      rewrite (Hyes Hin), Hnow3, Hdb2, Hdb1. reflexivity. }
    split.
    { intros key [Hc|Hout]; [discriminate|]. destruct (Hrows key) as [_ Hno].
      rewrite (Hno Hout), Hdb2, Hdb1. reflexivity. }
    eapply run_frame_trans; [exact Hframe2|].
    unfold run_frame. split; [exact Hcfg3|]. split; [exact Hrpc3|].
    split; [exact Hconf3|]. split; [exact Hwl3|]. split; [|lia].
    intros key. destruct (Hrows key) as [Hyes Hno].
    destruct (classic_in key (map AccountStatus.pubkey T)) as [Hin|Hout].
    + rewrite (Hyes Hin). destruct (DatabaseManager.getAccount key (World.db w2)); reflexivity.
    + rewrite (Hno Hout). reflexivity.
  - destruct (failureLoop_run (Reclaim.tx_error tx) T (BatchReclaimResult.mk [] F 0) w2)
      as (w' & -> & Hcfg3 & Hrpc3 & Hnow3 & Hsub3 & Hslept3 & Hsafety3 & Hacc3 & Hhist3
          & Hwl3 & Hlog3).
    assert (Hget : forall key, DatabaseManager.getAccount key (World.db w')
                               = DatabaseManager.getAccount key (World.db w)).
    { intros key. unfold DatabaseManager.getAccount. rewrite Hacc3, Hdb2, Hdb1. reflexivity. }
    eexists _, w', T, I, k, false, None. simpl.
    split; [reflexivity|]. split; [exact Hpairs|]. split; [exact HlenT|].
    split; [rewrite Hsub3, Hsub2, Hsub1; reflexivity|]. split; [lia|].
    split; [intros _; split; [exact Hne | reflexivity]|].
    split; [discriminate|].
    split; [reflexivity|]. split; [reflexivity|].
    split; [rewrite Hsafety3, Hsafety2, Hsafety1; simpl; lia|].
    split.
    { rewrite (getTotalReclaimed_history (World.db w2) (World.db w') _ Hhist3).
      rewrite getTotalReclaimed_failed_rows, Hdb2, Hdb1. simpl. lia. }
    split; [discriminate|]. split; [intros key _; apply Hget|].
    eapply run_frame_trans; [exact Hframe2|].
    apply run_frame_same_rows; try congruence. lia.
Qed.

(** An invariant of the state of the run that every batch keeps, whether
    it returns or throws, holds when the loop over the batches is over;
    the loop itself always returns. *)
Lemma batchesLoop_ind (treasury : string) (dryRun : bool)
    (Inv : BatchReclaimResult.t -> World.t -> Prop) (batches : list (list AccountStatus.t)) :
  (forall batch result w o w1, In batch batches -> Inv result w ->
     Reclaim.processBatch batch treasury dryRun w = (o, w1) ->
     match o with
     | Returned b => Inv (Reclaim.merge result b) w1
     | Threw msg => Inv (Reclaim.failBatch batch msg result) w1
     end) ->
  forall result w, Inv result w ->
  exists res w',
    Reclaim.batchesLoop batches treasury dryRun result w = (Returned res, w') /\ Inv res w'.
Proof.
  induction batches as [|batch rest IH]; intros Hstep result w Hinv.
  - exists result, w. split; [reflexivity | exact Hinv].
  - cbn [Reclaim.batchesLoop]. unfold bind at 1. unfold try_catch, bind at 1.
    pose proof (Hstep batch result w) as Hone.
    destruct (Reclaim.processBatch batch treasury dryRun w) as [[b|msg] w1].
    + specialize (Hone _ _ (or_introl eq_refl) Hinv eq_refl). simpl in Hone.
      unfold ret at 1. unfold bind at 1. unfold gets at 1.
      destruct (PrimFloat.leb _ _).
      * exists (Reclaim.merge result b), w1. split; [reflexivity | exact Hone].
      * apply IH; [|exact Hone].
        intros batch' result' w' o w1' Hin. apply Hstep. right. exact Hin.
    + specialize (Hone _ _ (or_introl eq_refl) Hinv eq_refl). simpl in Hone.
      unfold ret at 1. unfold bind at 1. unfold gets at 1.
      destruct (PrimFloat.leb _ _).
      * exists (Reclaim.failBatch batch msg result), w1. split; [reflexivity | exact Hone].
      * apply IH; [|exact Hone].
        intros batch' result' w' o w1' Hin. apply Hstep. right. exact Hin.
Qed.

(** ** Batches *)

Lemma createBatchesFrom_In (accounts : list AccountStatus.t) (maxPerBatch : nat) :
  forall fuel i batch,
  In batch (Reclaim.createBatchesFrom fuel accounts maxPerBatch i) ->
  exists j, (j < length accounts)%nat /\ batch = take maxPerBatch (drop j accounts).
Proof.
  induction fuel as [|fuel IH]; intros i batch Hin; [destruct Hin|].
  cbn [Reclaim.createBatchesFrom] in Hin.
  destruct (i <? length accounts)%nat eqn:Hi; [|destruct Hin].
  apply Nat.ltb_lt in Hi. destruct Hin as [<-|Hin].
  - exists i. split; [exact Hi | apply slice_is_take].
  - apply (IH _ _ Hin).
Qed.

Lemma In_take_drop {A} (n j : nat) (l : list A) (x : A) :
  In x (take n (drop j l)) -> In x l.
Proof.
  intros H. apply list_elem_of_In in H. apply list_elem_of_In.
  apply elem_of_take in H. destruct H as (i & Hi & _).
  rewrite lookup_drop in Hi. eapply list_elem_of_lookup_2. exact Hi.
Qed.

(** A batch is a non-empty run of at most [maxPerBatch] accounts of the
    input. *)
Lemma createBatches_batch (accounts : list AccountStatus.t) (maxPerBatch : nat)
    (batch : list AccountStatus.t) :
  (0 < maxPerBatch)%nat ->
  In batch (Reclaim.createBatches accounts maxPerBatch) ->
  (1 <= length batch <= maxPerBatch)%nat /\ forall a, In a batch -> In a accounts.
Proof.
  intros Hpos Hin. unfold Reclaim.createBatches in Hin.
  apply createBatchesFrom_In in Hin. destruct Hin as (j & Hj & ->).
  split.
  - rewrite length_take, length_drop. lia.
  - intros a. apply In_take_drop.
Qed.

(** X8: [createBatches] cuts the list into consecutive batches: put end
    to end they give the list back, every batch holds at least one and at
    most [maxPerBatch] accounts, the first [n] batches are the first
    [n * maxPerBatch] accounts (so only the last batch can be short), and
    the empty list gives no batch. *)
Theorem createBatches_sizes (accounts : list AccountStatus.t) (maxPerBatch : nat) :
  (0 < maxPerBatch)%nat ->
  let batches := Reclaim.createBatches accounts maxPerBatch in
  concat batches = accounts
  /\ Forall (fun batch => (1 <= length batch <= maxPerBatch)%nat) batches
  /\ (forall n, concat (take n batches) = take (n * maxPerBatch) accounts)
  /\ (accounts = [] <-> batches = []).
Proof.
  intros Hpos batches.
  assert (Hprefix : forall n, concat (take n batches) = take (n * maxPerBatch) accounts).
  { intros n. subst batches. unfold Reclaim.createBatches.
    rewrite createBatchesFrom_prefix by (assumption || lia). reflexivity. }
  assert (Hconcat : concat batches = accounts).
  { pose proof (Hprefix (length batches + length accounts)%nat) as H.
    rewrite take_ge in H by lia. rewrite take_ge in H by nia. exact H. }
  split; [exact Hconcat|]. split; [|split; [exact Hprefix|]].
  - apply List.Forall_forall. intros batch Hin.
    apply (createBatches_batch accounts maxPerBatch batch Hpos Hin).
  - split.
    + intros ->. reflexivity.
    + intros Hnil. rewrite Hnil in Hconcat. simpl in Hconcat. congruence.
Qed.

(** ** A whole run of the reclaim engine *)

(** The three ways [reclaimAccounts] can go. *)
Lemma reclaimAccounts_cases (accounts : list AccountStatus.t) (w : World.t) :
  (accounts = [] /\ Reclaim.reclaimAccounts accounts w = (Returned Reclaim.emptyResult, w))
  \/ (accounts <> []
      /\ (Config.treasuryAddress (World.cfg w) = ""
          \/ Rpc.validKey (World.rpc w) (Config.treasuryAddress (World.cfg w)) = false)
      /\ exists msg, Reclaim.reclaimAccounts accounts w = (Threw msg, w))
  \/ (accounts <> []
      /\ Config.treasuryAddress (World.cfg w) <> ""
      /\ Rpc.validKey (World.rpc w) (Config.treasuryAddress (World.cfg w)) = true
      /\ Reclaim.reclaimAccounts accounts w
         = Reclaim.batchesLoop (Reclaim.createBatches accounts Reclaim.MAX_INSTRUCTIONS)
             (Config.treasuryAddress (World.cfg w)) (Config.dryRun (World.cfg w))
             Reclaim.emptyResult w).
Proof.
  destruct (reclaimAccounts_guards accounts w) as (Hnil & Hnone & Hbad).
  destruct accounts as [|a accounts]; [left; split; [reflexivity | apply Hnil; reflexivity]|].
  right.
  destruct (decide (Config.treasuryAddress (World.cfg w) = "")) as [Hempty|Hset].
  { left. split; [discriminate|]. split; [left; exact Hempty|].
    eexists. apply Hnone; [discriminate | exact Hempty]. }
  destruct (Rpc.validKey (World.rpc w) (Config.treasuryAddress (World.cfg w))) eqn:Hvalid.
  - right. split; [discriminate|]. split; [exact Hset|]. split; [reflexivity|].
    apply reclaimAccounts_run; [exact Hset | exact Hvalid | discriminate].
  - left. split; [discriminate|]. split; [right; reflexivity|].
    eexists. apply Hbad; [discriminate | exact Hset | reflexivity].
Qed.

Lemma Forall2_In_r {A B} (P : A -> B -> Prop) (l : list A) (k : list B) (y : B) :
  Forall2 P l k -> In y k -> exists x, In x l /\ P x y.
Proof.
  induction 1 as [|x y' l k Hxy _ IH]; intros Hin; [destruct Hin|].
  destruct Hin as [<-|Hin].
  - exists x. split; [left; reflexivity | exact Hxy].
  - destruct (IH Hin) as (x' & Hx' & HP). exists x'. split; [right; exact Hx' | exact HP].
Qed.

Lemma sent_for_later (w0 : World.t) (treasury : string) (accounts : list AccountStatus.t)
    (t t' : Z) (ix : Instruction) :
  t <= t' -> sent_for w0 treasury accounts t ix -> sent_for w0 treasury accounts t' ix.
Proof.
  intros Ht (a & wb & operator & Hin & Hframe & Hnow & Hrest).
  exists a, wb, operator. split; [exact Hin|]. split; [exact Hframe|].
  split; [lia | exact Hrest].
Qed.

(** The transactions a run submits: each is non-empty, holds at most
    [MAX_INSTRUCTIONS] instructions, and each instruction was built for an
    account of the input that the gate allowed when its batch began. *)
Lemma batchesLoop_submitted (treasury : string) (dryRun : bool)
    (accounts : list AccountStatus.t) (batches : list (list AccountStatus.t))
    (w0 : World.t) :
  (forall batch, In batch batches ->
     (length batch <= Reclaim.MAX_INSTRUCTIONS)%nat /\ forall a, In a batch -> In a accounts) ->
  exists res w' txs,
    Reclaim.batchesLoop batches treasury dryRun Reclaim.emptyResult w0 = (Returned res, w')
    /\ run_frame w0 w'
    /\ World.submitted w' = World.submitted w0 ++ txs
    /\ (dryRun = true -> txs = [])
    /\ ((forall msg, Config.operatorKeypair (World.cfg w0) <> inr msg) -> txs = [])
    /\ Forall (fun tx => tx <> []
                         /\ (length tx <= Reclaim.MAX_INSTRUCTIONS)%nat
                         /\ Forall (sent_for w0 treasury accounts (World.now w')) tx) txs.
Proof.
  intros Hbatches.
  set (Inv := fun (_ : BatchReclaimResult.t) (w1 : World.t) =>
    run_frame w0 w1
    /\ exists txs,
         World.submitted w1 = World.submitted w0 ++ txs
         /\ (dryRun = true -> txs = [])
         /\ ((forall msg, Config.operatorKeypair (World.cfg w0) <> inr msg) -> txs = [])
         /\ Forall (fun tx => tx <> []
                              /\ (length tx <= Reclaim.MAX_INSTRUCTIONS)%nat
                              /\ Forall (sent_for w0 treasury accounts (World.now w1)) tx) txs).
  destruct (batchesLoop_ind treasury dryRun Inv batches) with (result := Reclaim.emptyResult)
    (w := w0) as (res & w' & Hrun & Hframe & txs & Hsub & Hdry & Hnokey & Hall).
  - intros batch result w o w1 Hin (Hframe & txs & Hsub & Hdry & Hnokey & Hall) Hrun.
    destruct (Hbatches batch Hin) as [Hlen Hsubset].
    destruct (Config.operatorKeypair (World.cfg w)) as [msg|operator] eqn:Hkey.
    { rewrite (processBatch_no_keypair batch treasury dryRun w msg Hkey) in Hrun.
      injection Hrun as <- <-. split; [exact Hframe|]. exists txs. repeat split; assumption. }
    destruct (processBatch_effects batch treasury dryRun w operator Hkey)
      as (b & w1' & T & I & k & confirmed & signature & Hrun' & Hpairs & HlenT & Hsub' & Hk
          & Hsent & _ & _ & _ & _ & _ & _ & _ & Hframe').
    rewrite Hrun' in Hrun. injection Hrun as <- <-.
    pose proof (run_frame_trans _ _ _ Hframe Hframe') as Hframe1.
    split; [exact Hframe1|].
    exists (txs ++ repeat I k).
    split; [rewrite Hsub', Hsub, app_assoc; reflexivity|].
    split.
    { intros Hd. rewrite (Hdry Hd). destruct k as [|k]; [reflexivity|].
      destruct Hsent as [_ Hfalse]; [discriminate | congruence]. }
    split.
    { intros Hno. exfalso. destruct Hframe as (Hcfg & _). rewrite Hcfg in Hkey.
      exact (Hno operator Hkey). }
    apply Forall_app. split.
    + eapply List.Forall_impl; [|exact Hall].
      intros tx (Hne & Hl & Hixs). split; [exact Hne|]. split; [exact Hl|].
      eapply List.Forall_impl; [|exact Hixs].
      intros ix. apply sent_for_later.
      destruct Hframe' as (_ & _ & _ & _ & _ & Hnow). exact Hnow.
    + apply List.Forall_forall. intros tx Htx.
      pose proof (repeat_spec _ _ _ Htx) as ->.
      destruct k as [|k]; [destruct Htx|].
      destruct Hsent as [Hne _]; [discriminate|].
      split; [exact Hne|].
      split; [rewrite <- (Forall2_length _ _ _ Hpairs); lia|].
      apply List.Forall_forall. intros ix Hix.
      destruct (Forall2_In_r _ _ _ _ Hpairs Hix) as (a & _ & Ha & Hok & Hbuilt).
      exists a, w, operator.
      split; [apply Hsubset; exact Ha|]. split; [exact Hframe|].
      split; [destruct Hframe' as (_ & _ & _ & _ & _ & Hnow); exact Hnow|].
      split; [exact Hkey|]. split; [exact Hok | exact Hbuilt].
  - split; [apply run_frame_refl|]. exists []. rewrite app_nil_r.
    split; [reflexivity|]. split; [reflexivity|]. split; [reflexivity|]. constructor.
  - exists res, w', txs. split; [exact Hrun|]. split; [exact Hframe|].
    split; [exact Hsub|]. split; [exact Hdry|]. split; [exact Hnokey | exact Hall].
Qed.

Lemma isWhitelisted_frame (w w' : World.t) (pubkey : string) :
  run_frame w w' -> Safety.isWhitelisted w' pubkey = Safety.isWhitelisted w pubkey.
Proof.
  intros (Hcfg & _ & _ & Hwl & _).
  unfold Safety.isWhitelisted, DatabaseManager.isWhitelisted. rewrite Hcfg, Hwl. reflexivity.
Qed.

(** What [sent_for] says in terms of the world the run began in. *)
Lemma sent_for_approved (w0 : World.t) (accounts : list AccountStatus.t) (tmax : Z)
    (ix : Instruction) :
  sent_for w0 (Config.treasuryAddress (World.cfg w0)) accounts tmax ix ->
  approved_instruction w0 accounts ix
  /\ exists a operator,
       In a accounts
       /\ instructionFor operator (Config.treasuryAddress (World.cfg w0)) a ix
       /\ idle_long_enough w0 tmax (AccountStatus.pubkey a).
Proof.
  intros (a & wb & operator & Hin & Hframe & Hnow & Hkey & Hok & Hbuilt).
  pose proof Hframe as (Hcfg & Hrpc & Hconf & Hwl & Hsince & Htime).
  apply checkAccount_allowed_iff in Hok.
  destruct Hok as (Hcan & Hnotwl & Hexe & Hex & Hidle & _).
  apply createCloseInstruction_built in Hbuilt.
  destruct Hbuilt as (Hvalid & Hfor & Htoken).
  split.
  - exists a, operator. split; [exact Hin|]. split; [congruence|].
    split; [exact Hfor|]. split; [exact Hcan|].
    split; [rewrite <- (isWhitelisted_frame w0 wb _ Hframe); exact Hnotwl|].
    split; [exact Hexe|]. split; [exact Hex|]. split; [congruence|].
    intros Htok. destruct (Htoken Htok) as (amount & Hamount & Hle).
    exists (length (World.submitted wb)), amount. rewrite <- Hrpc. split; assumption.
  - exists a, operator. split; [exact Hin|]. split; [exact Hfor|].
    unfold idle_long_enough. unfold Safety.checkIdleDuration in Hidle.
    specialize (Hsince (AccountStatus.pubkey a)).
    destruct (DatabaseManager.getAccount (AccountStatus.pubkey a) (World.db w0)) as [r0|];
      [|exact I].
    destruct (DatabaseManager.getAccount (AccountStatus.pubkey a) (World.db wb)) as [rb|];
      [|discriminate].
    simpl in Hsince. injection Hsince as Hsince.
    destruct (SponsoredAccount.reclaimableSince rb) as [since|]; [|discriminate].
    exists since. split; [congruence|].
    destruct (Qlt_bool _ _) eqn:Hlt; [discriminate|].
    apply Qlt_bool_days_false in Hlt. rewrite <- Hconf, <- Hrpc. lia.
Qed.

(** The transactions of a run, for [reclaimAccounts] itself. *)
Lemma reclaimAccounts_submitted (accounts : list AccountStatus.t) (w : World.t) :
  let w' := snd (Reclaim.reclaimAccounts accounts w) in
  exists txs,
    World.submitted w' = World.submitted w ++ txs
    /\ (Config.dryRun (World.cfg w) = true -> txs = [])
    /\ (Config.treasuryAddress (World.cfg w) = "" -> txs = [])
    /\ ((forall msg, Config.operatorKeypair (World.cfg w) <> inr msg) -> txs = [])
    /\ World.now w <= World.now w'
    /\ Forall (fun tx => tx <> []
                         /\ (length tx <= Reclaim.MAX_INSTRUCTIONS)%nat
                         /\ Forall (sent_for w (Config.treasuryAddress (World.cfg w)) accounts
                                      (World.now w')) tx) txs.
Proof.
  intros w'. subst w'.
  destruct (reclaimAccounts_cases accounts w)
    as [[_ ->] | [(_ & _ & msg & ->) | (Hne & Hset & Hvalid & ->)]].
  - exists []. simpl. rewrite app_nil_r. repeat split; try reflexivity; try lia. constructor.
  - exists []. simpl. rewrite app_nil_r. repeat split; try reflexivity; try lia. constructor.
  - destruct (batchesLoop_submitted (Config.treasuryAddress (World.cfg w))
                (Config.dryRun (World.cfg w)) accounts
                (Reclaim.createBatches accounts Reclaim.MAX_INSTRUCTIONS) w)
      as (res & w' & txs & -> & Hframe & Hsub & Hdry & Hnokey & Hall).
    { intros batch Hin.
      destruct (createBatches_batch accounts Reclaim.MAX_INSTRUCTIONS batch) as [Hlen Hsubset];
        [unfold Reclaim.MAX_INSTRUCTIONS; lia | exact Hin |].
      split; [lia | exact Hsubset]. }
    exists txs. simpl. split; [exact Hsub|]. split; [exact Hdry|].
    split; [intros Hempty; contradiction|]. split; [exact Hnokey|].
    split; [destruct Hframe as (_ & _ & _ & _ & _ & Hnow); exact Hnow | exact Hall].
Qed.

(** X9: what [reclaimAccounts] submits. Whatever the input, the node and
    the store, every transaction submitted during the call is non-empty,
    holds at most ten instructions, and each of its instructions closes an
    account of the input, by the operator and towards the configured
    treasury, that has [operatorCanClose] set, is not whitelisted (in the
    table or the configuration), is not executable, exists, and, for a
    token account, was reported by the node with a zero token balance.
    Nothing is submitted in a dry run, without a treasury address, or
    without the operator's wallet. *)
Theorem reclaimAccounts_submits_only_approved (accounts : list AccountStatus.t)
    (w : World.t) :
  let w' := snd (Reclaim.reclaimAccounts accounts w) in
  exists txs,
    World.submitted w' = World.submitted w ++ txs
    /\ Forall (fun tx => tx <> []
                         /\ (length tx <= 10)%nat
                         /\ Forall (approved_instruction w accounts) tx) txs
    /\ (Config.dryRun (World.cfg w) = true -> txs = [])
    /\ (Config.treasuryAddress (World.cfg w) = "" -> txs = [])
    /\ ((forall operator, Config.operatorKeypair (World.cfg w) <> inr operator) -> txs = []).
Proof.
  intros w'.
  destruct (reclaimAccounts_submitted accounts w)
    as (txs & Hsub & Hdry & Htreasury & Hnokey & _ & Hall).
  exists txs. split; [exact Hsub|]. split; [|repeat split; assumption].
  eapply List.Forall_impl; [|exact Hall].
  intros tx (Hne & Hlen & Hixs). split; [exact Hne|]. split; [exact Hlen|].
  eapply List.Forall_impl; [|exact Hixs].
  intros ix Hix. apply (sent_for_approved w accounts _ ix Hix).
Qed.

(** X10: no account is closed before the time the host reads from its
    idle clock. Every instruction that [reclaimAccounts] submits closes an
    account of the input whose row in the store, if it has one, carried a
    [reclaimableSince] stamp at the start of the call; the instant that
    [new Date] reads from the stamp, which it takes for local time, is at
    least [minIdleDays] days before the end of the call (the retries'
    pauses included). On a host in UTC that instant is the stamp itself;
    on a host ahead of UTC it is earlier by the offset of the zone, so
    the account may be closed that much less than [minIdleDays] days
    after the stamp. An account without a row is not held back by the
    idle rule. *)
Theorem reclaimAccounts_waits_for_idle_time (accounts : list AccountStatus.t) (w : World.t) :
  let w' := snd (Reclaim.reclaimAccounts accounts w) in
  let minIdle :=
    SafetyConfig.minIdleDays (SafetyManager.config (World.safety w)) * MS_PER_DAY in
  World.now w <= World.now w'
  /\ forall tx ix,
       In tx (submitted_since w w') -> In ix tx ->
       exists a operator,
         In a accounts
         /\ instructionFor operator (Config.treasuryAddress (World.cfg w)) a ix
         /\ idle_long_enough w (World.now w') (AccountStatus.pubkey a)
         /\ forall row,
              DatabaseManager.getAccount (AccountStatus.pubkey a) (World.db w) = Some row ->
              exists stamp,
                SponsoredAccount.reclaimableSince row = Some stamp
                /\ stamp - Rpc.localOffset (World.rpc w) stamp + minIdle <= World.now w'
                /\ (Rpc.localOffset (World.rpc w) stamp = 0 ->
                    stamp + minIdle <= World.now w').
Proof.
  intros w' minIdle.
  destruct (reclaimAccounts_submitted accounts w)
    as (txs & Hsub & _ & _ & _ & Hnow & Hall).
  split; [exact Hnow|].
  intros tx ix Htx Hix. unfold submitted_since in Htx. fold w' in Hsub.
  rewrite Hsub, drop_app_length in Htx.
  rewrite List.Forall_forall in Hall. destruct (Hall tx Htx) as (_ & _ & Hixs).
  rewrite List.Forall_forall in Hixs.
  destruct (sent_for_approved w accounts _ ix (Hixs ix Hix))
    as (_ & a & operator & Hin & Hfor & Hidle).
  exists a, operator. split; [exact Hin|]. split; [exact Hfor|]. split; [exact Hidle|].
  intros row Hrow. unfold idle_long_enough in Hidle. rewrite Hrow in Hidle.
  destruct Hidle as (stamp & Hstamp & Hlong). exists stamp.
  unfold parseDate in Hlong. fold minIdle in Hlong. fold w' in Hlong.
  split; [exact Hstamp|]. split; [exact Hlong | intros Hutc; lia].
Qed.

Lemma sumReclaimed_app (xs ys : list ReclaimResult.t) :
  sumReclaimed (xs ++ ys) = sumReclaimed xs + sumReclaimed ys.
Proof.
  unfold sumReclaimed. rewrite map_app.
  induction (map ReclaimResult.lamportsReclaimed xs) as [|x l IH]; simpl; lia.
Qed.

(** The books of a run, batch after batch. *)
Lemma batchesLoop_books (treasury : string) (dryRun : bool)
    (batches : list (list AccountStatus.t)) (w0 : World.t) :
  exists res w',
    Reclaim.batchesLoop batches treasury dryRun Reclaim.emptyResult w0 = (Returned res, w')
    /\ BatchReclaimResult.totalLamportsReclaimed res
       = sumReclaimed (BatchReclaimResult.successful res)
    /\ SafetyManager.totalReclaimedThisRun (World.safety w')
       = SafetyManager.totalReclaimedThisRun (World.safety w0)
         + (if dryRun then 0 else BatchReclaimResult.totalLamportsReclaimed res)
    /\ DatabaseManager.getTotalReclaimed (World.db w')
       = DatabaseManager.getTotalReclaimed (World.db w0)
         + (if dryRun then 0 else BatchReclaimResult.totalLamportsReclaimed res).
Proof.
  set (Inv := fun (result : BatchReclaimResult.t) (w1 : World.t) =>
    BatchReclaimResult.totalLamportsReclaimed result
    = sumReclaimed (BatchReclaimResult.successful result)
    /\ SafetyManager.totalReclaimedThisRun (World.safety w1)
       = SafetyManager.totalReclaimedThisRun (World.safety w0)
         + (if dryRun then 0 else BatchReclaimResult.totalLamportsReclaimed result)
    /\ DatabaseManager.getTotalReclaimed (World.db w1)
       = DatabaseManager.getTotalReclaimed (World.db w0)
         + (if dryRun then 0 else BatchReclaimResult.totalLamportsReclaimed result)).
  apply (batchesLoop_ind treasury dryRun Inv batches).
  - intros batch result w o w1 _ (Htot & Hcounter & Hhist) Hrun.
    destruct (Config.operatorKeypair (World.cfg w)) as [msg|operator] eqn:Hkey.
    { rewrite (processBatch_no_keypair batch treasury dryRun w msg Hkey) in Hrun.
      injection Hrun as <- <-. unfold Inv. simpl. repeat split; assumption. }
    destruct (processBatch_effects batch treasury dryRun w operator Hkey)
      as (b & w1' & T & I & k & confirmed & signature & Hrun' & _ & _ & _ & _ & _ & _ & _
          & Htot' & Hcounter' & Hhist' & _).
    rewrite Hrun' in Hrun. injection Hrun as <- <-. unfold Inv. simpl.
    split; [rewrite sumReclaimed_app; lia|].
    split; [rewrite Hcounter', Hcounter; destruct dryRun; lia|].
    rewrite Hhist', Hhist. destruct dryRun; lia.
  - unfold Inv. simpl. repeat split; destruct dryRun; lia.
Qed.

(** X11: the three books of a run agree. When [reclaimAccounts] returns,
    the total it reports is the sum of the amounts of its success records;
    in a real run the counter of the safety manager and the sum over the
    'success' rows of the history ([getTotalReclaimed]) have both advanced
    by exactly that total, and in a dry run by nothing; failure records
    carry no amount. When it throws, nothing has changed. *)
Theorem reclaimAccounts_books_agree (accounts : list AccountStatus.t) (w : World.t) :
  let run := Reclaim.reclaimAccounts accounts w in
  match fst run with
  | Returned res =>
      let credited :=
        if Config.dryRun (World.cfg w) then 0
        else BatchReclaimResult.totalLamportsReclaimed res in
      BatchReclaimResult.totalLamportsReclaimed res
      = sumReclaimed (BatchReclaimResult.successful res)
      /\ sumReclaimed (BatchReclaimResult.failed res) = 0
      /\ SafetyManager.totalReclaimedThisRun (World.safety (snd run))
         = SafetyManager.totalReclaimedThisRun (World.safety w) + credited
      /\ DatabaseManager.getTotalReclaimed (World.db (snd run))
         = DatabaseManager.getTotalReclaimed (World.db w) + credited
  | Threw _ => snd run = w
  end.
Proof.
  intros run. subst run.
  destruct (reclaimAccounts_cases accounts w)
    as [[_ ->] | [(_ & _ & msg & ->) | (Hne & Hset & Hvalid & ->)]].
  - simpl. repeat split; destruct (Config.dryRun (World.cfg w)); simpl; lia.
  - reflexivity.
  - destruct (batchesLoop_books (Config.treasuryAddress (World.cfg w))
                (Config.dryRun (World.cfg w))
                (Reclaim.createBatches accounts Reclaim.MAX_INSTRUCTIONS) w)
      as (res & w' & Hrun & Htot & Hcounter & Hhist).
    destruct (batchesLoop_run (Config.treasuryAddress (World.cfg w))
                (Config.dryRun (World.cfg w))
                (Reclaim.createBatches accounts Reclaim.MAX_INSTRUCTIONS)
                Reclaim.emptyResult w)
      as (res2 & w2 & n & Hrun2 & _ & _ & _ & _ & Hwf & _).
    rewrite Hrun in Hrun2. injection Hrun2 as <- <-.
    rewrite Hrun. simpl.
    split; [exact Htot|]. split; [|split; assumption].
    destruct (Hwf well_formed_emptyResult) as [_ Hfailed].
    unfold sumReclaimed.
    induction Hfailed as [|x l (_ & Hzero & _) _ IH]; simpl; [reflexivity|].
    rewrite Hzero, IH. reflexivity.
Qed.

(** The rows of the store during a run that submits for real. *)
Lemma batchesLoop_rows (treasury : string) (batches : list (list AccountStatus.t))
    (dryRun : bool) (w0 : World.t) :
  exists res w',
    Reclaim.batchesLoop batches treasury dryRun Reclaim.emptyResult w0 = (Returned res, w')
    /\ (forall key, dryRun = false ->
          In key (map ReclaimResult.pubkey (BatchReclaimResult.successful res)) ->
          forall r', DatabaseManager.getAccount key (World.db w') = Some r' ->
                     SponsoredAccount.status r' = reclaimed)
    /\ (forall key,
          dryRun = true
          \/ ~ In key (map ReclaimResult.pubkey (BatchReclaimResult.successful res)) ->
          DatabaseManager.getAccount key (World.db w')
          = DatabaseManager.getAccount key (World.db w0))
    /\ (forall key r', DatabaseManager.getAccount key (World.db w') = Some r' ->
          exists r, DatabaseManager.getAccount key (World.db w0) = Some r
                    /\ (r' = r \/ exists t, r' = reclaimedRow t r))
    /\ (forall key r, DatabaseManager.getAccount key (World.db w0) = Some r ->
          exists r', DatabaseManager.getAccount key (World.db w') = Some r'
                     /\ (r' = r \/ exists t, r' = reclaimedRow t r)).
Proof.
  set (Inv := fun (result : BatchReclaimResult.t) (w1 : World.t) =>
    (forall key, dryRun = false ->
       In key (map ReclaimResult.pubkey (BatchReclaimResult.successful result)) ->
       forall r', DatabaseManager.getAccount key (World.db w1) = Some r' ->
                  SponsoredAccount.status r' = reclaimed)
    /\ (forall key,
          dryRun = true
          \/ ~ In key (map ReclaimResult.pubkey (BatchReclaimResult.successful result)) ->
          DatabaseManager.getAccount key (World.db w1)
          = DatabaseManager.getAccount key (World.db w0))
    /\ (forall key r', DatabaseManager.getAccount key (World.db w1) = Some r' ->
          exists r, DatabaseManager.getAccount key (World.db w0) = Some r
                    /\ (r' = r \/ exists t, r' = reclaimedRow t r))
    /\ (forall key r, DatabaseManager.getAccount key (World.db w0) = Some r ->
          exists r', DatabaseManager.getAccount key (World.db w1) = Some r'
                     /\ (r' = r \/ exists t, r' = reclaimedRow t r))).
  apply (batchesLoop_ind treasury dryRun Inv batches).
  - intros batch result w o w1 _ (Hmarked & Hkept & Hfrom & Hstay) Hrun.
    destruct (Config.operatorKeypair (World.cfg w)) as [msg|operator] eqn:Hkey.
    { rewrite (processBatch_no_keypair batch treasury dryRun w msg Hkey) in Hrun.
      injection Hrun as <- <-. unfold Inv. simpl. repeat split; assumption. }
    destruct (processBatch_effects batch treasury dryRun w operator Hkey)
      as (b & w1' & T & I & k & confirmed & signature & Hrun' & _ & _ & _ & _ & _ & Hconf
          & Hsucc & _ & _ & _ & Hyes & Hno & _).
    rewrite Hrun' in Hrun. injection Hrun as <- <-. unfold Inv. simpl.
    rewrite map_app, Hsucc.
    destruct confirmed.
    + destruct (Hconf eq_refl) as [-> _]. rewrite map_pubkey_reclaimedRecord.
      split; [|split; [|split]].
      4:{ intros key r Hr. destruct (Hstay key r Hr) as (r1 & Hr1 & Hcase).
          destruct (classic_in key (map AccountStatus.pubkey T)) as [HT|HT].
          - rewrite (Hyes key eq_refl HT), Hr1. eexists. split; [reflexivity|].
            destruct Hcase as [->|(t & ->)]; right; eexists; reflexivity.
          - rewrite (Hno key (or_intror HT)). exists r1. split; [exact Hr1 | exact Hcase]. }
      * intros key _ Hin r' Hr'.
        destruct (classic_in key (map AccountStatus.pubkey T)) as [HT|HT].
        -- rewrite (Hyes key eq_refl HT) in Hr'.
           destruct (DatabaseManager.getAccount key (World.db w)); [|discriminate].
           injection Hr' as <-. reflexivity.
        -- rewrite (Hno key (or_intror HT)) in Hr'.
           apply in_app_or in Hin. destruct Hin as [Hin|Hin]; [|contradiction].
           apply (Hmarked key eq_refl Hin r' Hr').
      * intros key [Hd|Hout]; [discriminate|].
        rewrite (Hno key); [apply Hkept; right|right];
          intros Hin; apply Hout; apply in_or_app; [left | right]; exact Hin.
      * intros key r' Hr'.
        destruct (classic_in key (map AccountStatus.pubkey T)) as [HT|HT].
        -- rewrite (Hyes key eq_refl HT) in Hr'.
           destruct (DatabaseManager.getAccount key (World.db w)) as [r1|] eqn:Hr1;
             [|discriminate].
           injection Hr' as <-.
           destruct (Hfrom key r1 Hr1) as (r & Hr & [->|(t & ->)]);
             exists r; (split; [exact Hr|]); right; eexists; reflexivity.
        -- rewrite (Hno key (or_intror HT)) in Hr'. apply (Hfrom key r' Hr').
    + assert (Hsame : forall key, DatabaseManager.getAccount key (World.db w1')
                                  = DatabaseManager.getAccount key (World.db w)).
      { intros key. apply Hno. left. reflexivity. }
      split; [|split; [|split]].
      4:{ intros key r Hr. rewrite Hsame. apply (Hstay key r Hr). }
      * intros key Hd Hin r' Hr'. subst dryRun. rewrite app_nil_r in Hin.
        rewrite Hsame in Hr'. apply (Hmarked key eq_refl Hin r' Hr').
      * intros key Hcase. rewrite Hsame. apply Hkept.
        destruct Hcase as [Hd|Hout]; [left; exact Hd|].
        destruct dryRun; [left; reflexivity|]. right.
        intros Hin. apply Hout. apply in_or_app. left. exact Hin.
      * intros key r' Hr'. rewrite Hsame in Hr'. apply (Hfrom key r' Hr').
  - unfold Inv. simpl. split; [intros key _ []|].
    split; [reflexivity|].
    split; intros key r' Hr'; exists r'; (split; [exact Hr' | left; reflexivity]).
Qed.

(** X12: which rows a run changes. After [reclaimAccounts] in a real run,
    the row of every tracked account with a success record is still
    there and has status 'reclaimed', so that [getActiveAccounts] does not
    return it and the next scan leaves it alone; the row of every other
    key, the failed and denied accounts included, is exactly as before; no
    row is added and none is removed, and a changed row differs from the
    old one in its status and its [lastChecked] stamp only. A dry run
    changes no row. *)
Theorem reclaimAccounts_marks_reclaimed (accounts : list AccountStatus.t) (w : World.t) :
  let run := Reclaim.reclaimAccounts accounts w in
  let successKeys :=
    match fst run with
    | Returned res => map ReclaimResult.pubkey (BatchReclaimResult.successful res)
    | Threw _ => []
    end in
  (forall key r',
     Config.dryRun (World.cfg w) = false -> In key successKeys ->
     DatabaseManager.getAccount key (World.db (snd run)) = Some r' ->
     SponsoredAccount.status r' = reclaimed
     /\ ~ In r' (DatabaseManager.getActiveAccounts (World.db (snd run))))
  /\ (forall key,
        Config.dryRun (World.cfg w) = true \/ ~ In key successKeys ->
        DatabaseManager.getAccount key (World.db (snd run))
        = DatabaseManager.getAccount key (World.db w))
  /\ (forall key r',
        DatabaseManager.getAccount key (World.db (snd run)) = Some r' ->
        exists r, DatabaseManager.getAccount key (World.db w) = Some r
                  /\ (r' = r \/ exists t, r' = reclaimedRow t r))
  /\ (forall key r,
        DatabaseManager.getAccount key (World.db w) = Some r ->
        exists r', DatabaseManager.getAccount key (World.db (snd run)) = Some r'
                   /\ (r' = r \/ exists t, r' = reclaimedRow t r)
                   /\ (Config.dryRun (World.cfg w) = false -> In key successKeys ->
                       SponsoredAccount.status r' = reclaimed))
  /\ (forall key,
        is_Some (DatabaseManager.getAccount key (World.db (snd run)))
        <-> is_Some (DatabaseManager.getAccount key (World.db w))).
Proof.
  intros run successKeys. subst run successKeys.
  assert (Hactive : forall d r', SponsoredAccount.status r' = reclaimed ->
                                 ~ In r' (DatabaseManager.getActiveAccounts d)).
  { intros d r' Hst Hin. apply In_getActiveAccounts in Hin. destruct Hin as [_ Hin].
    congruence. }
  destruct (reclaimAccounts_cases accounts w)
    as [[_ ->] | [(_ & _ & msg & ->) | (Hne & Hset & Hvalid & ->)]].
  - simpl. split; [intros key r' _ []|]. split; [reflexivity|].
    split; [intros key r' Hr'; exists r'; split; [exact Hr' | left; reflexivity]|].
    split; [|reflexivity].
    intros key r Hr. exists r. split; [exact Hr|]. split; [left; reflexivity | intros _ []].
  - simpl. split; [intros key r' _ []|]. split; [reflexivity|].
    split; [intros key r' Hr'; exists r'; split; [exact Hr' | left; reflexivity]|].
    split; [|reflexivity].
    intros key r Hr. exists r. split; [exact Hr|]. split; [left; reflexivity | intros _ []].
  - destruct (batchesLoop_rows (Config.treasuryAddress (World.cfg w))
                (Reclaim.createBatches accounts Reclaim.MAX_INSTRUCTIONS)
                (Config.dryRun (World.cfg w)) w)
      as (res & w' & -> & Hmarked & Hkept & Hfrom & Hstay).
    simpl. split; [|split; [exact Hkept | split; [exact Hfrom | split]]].
    + intros key r' Hd Hin Hr'.
      pose proof (Hmarked key Hd Hin r' Hr') as Hst. split; [exact Hst|].
      apply Hactive. exact Hst.
    + intros key r Hr. destruct (Hstay key r Hr) as (r' & Hr' & Hcase).
      exists r'. split; [exact Hr'|]. split; [exact Hcase|].
      intros Hd Hin. apply (Hmarked key Hd Hin r' Hr').
    + intros key. split; intros [x Hx].
      * destruct (Hfrom key x Hx) as (r & Hr & _). eauto.
      * destruct (Hstay key x Hx) as (r' & Hr' & _). eauto.
Qed.

Lemma batchesLoop_no_keypair (treasury : string) (dryRun : bool) (msg : string)
    (batches : list (list AccountStatus.t)) (w0 : World.t) :
  Config.operatorKeypair (World.cfg w0) = inl msg ->
  exists res,
    Reclaim.batchesLoop batches treasury dryRun Reclaim.emptyResult w0 = (Returned res, w0)
    /\ BatchReclaimResult.successful res = []
    /\ BatchReclaimResult.totalLamportsReclaimed res = 0
    /\ Forall (fun x => x = Reclaim.failure (ReclaimResult.pubkey x) (Some (ErrorMessage msg)))
              (BatchReclaimResult.failed res).
Proof.
  intros Hkey.
  set (Inv := fun (result : BatchReclaimResult.t) (w1 : World.t) =>
    w1 = w0
    /\ BatchReclaimResult.successful result = []
    /\ BatchReclaimResult.totalLamportsReclaimed result = 0
    /\ Forall (fun x => x = Reclaim.failure (ReclaimResult.pubkey x) (Some (ErrorMessage msg)))
              (BatchReclaimResult.failed result)).
  destruct (batchesLoop_ind treasury dryRun Inv batches) with (result := Reclaim.emptyResult)
    (w := w0) as (res & w' & Hrun & -> & Hs & Ht & Hf).
  - intros batch result w o w1 _ (-> & Hs & Ht & Hf) Hrun.
    rewrite (processBatch_no_keypair batch treasury dryRun w0 msg Hkey) in Hrun.
    injection Hrun as <- <-. unfold Inv. simpl.
    split; [reflexivity|]. split; [exact Hs|]. split; [exact Ht|].
    apply Forall_app. split; [exact Hf|].
    apply List.Forall_forall. intros x Hx. apply in_map_iff in Hx.
    destruct Hx as (a & <- & _). reflexivity.
  - unfold Inv. simpl. repeat split. constructor.
  - exists res. repeat split; assumption.
Qed.

(** ** Validation of the configuration *)

(** X13: [validate] and the guards of [reclaimAccounts]. The configuration
    is valid exactly when a treasury address is set and is a well-formed
    key, which is exactly when the list of errors is empty; a valid
    configuration makes [reclaimAccounts] return a result for every input,
    an invalid one makes it throw for every non-empty input, leaving the
    world as it was. The operator's wallet is not part of the validation:
    when it cannot be read, a run under a valid configuration still
    returns, with no success record, every recorded account failed with
    the wallet's error, and nothing changed. *)
Theorem validate_guards_reclaim (w : World.t) :
  let validation := ConfigManager.validate (Rpc.validKey (World.rpc w)) (World.cfg w) in
  (fst validation = true
   <-> Config.treasuryAddress (World.cfg w) <> ""
       /\ Rpc.validKey (World.rpc w) (Config.treasuryAddress (World.cfg w)) = true)
  /\ (fst validation = true <-> snd validation = [])
  /\ (fst validation = true ->
      forall accounts, exists res w',
        Reclaim.reclaimAccounts accounts w = (Returned res, w'))
  /\ (fst validation = false ->
      forall accounts, accounts <> [] ->
        exists msg, Reclaim.reclaimAccounts accounts w = (Threw msg, w))
  /\ (fst validation = true ->
      forall msg accounts,
        Config.operatorKeypair (World.cfg w) = inl msg ->
        exists res,
          Reclaim.reclaimAccounts accounts w = (Returned res, w)
          /\ BatchReclaimResult.successful res = []
          /\ BatchReclaimResult.totalLamportsReclaimed res = 0
          /\ Forall (fun x => x = Reclaim.failure (ReclaimResult.pubkey x)
                                    (Some (ErrorMessage msg)))
                    (BatchReclaimResult.failed res)).
Proof.
  intros validation.
  assert (Hvalid : fst validation = true
                   <-> Config.treasuryAddress (World.cfg w) <> ""
                       /\ Rpc.validKey (World.rpc w)
                            (Config.treasuryAddress (World.cfg w)) = true).
  { subst validation. unfold ConfigManager.validate, ConfigManager.validationErrors. simpl.
    destruct (decide (Config.treasuryAddress (World.cfg w) = "")) as [Hempty|Hset].
    - rewrite !bool_decide_true by exact Hempty.
      destruct (Config.mainnet (World.cfg w)); simpl; split;
        try discriminate; intros [H _]; contradiction.
    - rewrite !bool_decide_false by exact Hset. rewrite andb_false_r.
      destruct (Rpc.validKey _ _); simpl; split; try discriminate; try tauto;
        intros [_ H]; discriminate. }
  split; [exact Hvalid|]. split; [|split; [|split]].
  - subst validation. unfold ConfigManager.validate. simpl.
    destruct (ConfigManager.validationErrors _ _); simpl; split; congruence.
  - intros Hok accounts. apply Hvalid in Hok. destruct Hok as [Hset Hkey].
    destruct (reclaimAccounts_cases accounts w)
      as [[_ ->] | [(_ & [Hbad|Hbad] & _) | (Hne & _ & _ & ->)]];
      [eauto | contradiction | congruence |].
    destruct (batchesLoop_run (Config.treasuryAddress (World.cfg w))
                (Config.dryRun (World.cfg w))
                (Reclaim.createBatches accounts Reclaim.MAX_INSTRUCTIONS)
                Reclaim.emptyResult w) as (res & w' & n & Hrun & _).
    eauto.
  - intros Hbad accounts Hne.
    destruct (reclaimAccounts_cases accounts w)
      as [[Hnil _] | [(_ & _ & Hthrow) | (_ & Hset & Hkey & _)]];
      [contradiction | exact Hthrow |].
    assert (fst validation = true) by (apply Hvalid; split; assumption). congruence.
  - intros Hok msg accounts Hwallet. apply Hvalid in Hok. destruct Hok as [Hset Hkey].
    destruct (reclaimAccounts_cases accounts w)
      as [[_ ->] | [(_ & [Hbad|Hbad] & _) | (Hne & _ & _ & ->)]];
      [| contradiction | congruence |].
    + exists Reclaim.emptyResult. repeat split. constructor.
    + apply batchesLoop_no_keypair. exact Hwallet.
Qed.

(** ** What the scanner reports *)

Lemma checkSafetyRules_none (w : World.t) (pubkey : string) (info : AccountInfo.t) :
  Scanner.checkSafetyRules w pubkey info = None ->
  Safety.isWhitelisted w pubkey = false /\ AccountInfo.executable info = false.
Proof.
  unfold Scanner.checkSafetyRules, Safety.isWhitelisted.
  destruct (_ || _); [discriminate|].
  destruct (AccountInfo.executable info); [discriminate|]. split; reflexivity.
Qed.

(** X14: which accounts the scanner reports as reclaimable. For every
    input of [analyzeAccount], the status carries the key it was asked
    about, [isReclaimable] and [operatorCanClose] are equal, and they are
    true exactly when the account exists, is owned by the token program,
    passes the scanner's pre-check, decodes, and has the operator's key as
    its close authority; such a status is that of an existing,
    non-executable, non-whitelisted token account and has no skip reason.
    Every other status names a skip reason; an account that is gone, one
    owned by the system program, and one owned by any other program are
    never reported reclaimable, and neither is any account when the
    operator's wallet cannot be read. *)
Theorem analyzeAccount_reclaimable_iff (pubkey : string) (info : option AccountInfo.t)
    (w : World.t) :
  let status := fst (Scanner.analyzeAccount pubkey info w) in
  AccountStatus.pubkey status = pubkey
  /\ AccountStatus.isReclaimable status = AccountStatus.operatorCanClose status
  /\ (AccountStatus.isReclaimable status = true
      <-> exists i decoded,
            info = Some i
            /\ AccountInfo.owner i = TOKEN_PROGRAM_ID
            /\ Scanner.checkSafetyRules w pubkey i = None
            /\ AccountInfo.decoded i = Some decoded
            /\ ConfigManager.operatorPublicKey (World.cfg w)
               = Some (Scanner.decodedCloseAuthority decoded))
  /\ (AccountStatus.isReclaimable status = true ->
      AccountStatus.exists_ status = true
      /\ AccountStatus.executable status = false
      /\ AccountStatus.isTokenAccount status = true
      /\ AccountStatus.closeAuthority status = ConfigManager.operatorPublicKey (World.cfg w)
      /\ AccountStatus.skipReason status = None
      /\ Safety.isWhitelisted w pubkey = false)
  /\ (AccountStatus.isReclaimable status = false -> is_Some (AccountStatus.skipReason status))
  /\ (info = None ->
      AccountStatus.exists_ status = false
      /\ AccountStatus.skipReason status = Some SkipAlreadyClosed)
  /\ (forall i, info = Some i -> AccountInfo.owner i <> TOKEN_PROGRAM_ID ->
        AccountStatus.isReclaimable status = false)
  /\ (forall msg, Config.operatorKeypair (World.cfg w) = inl msg ->
        AccountStatus.isReclaimable status = false).
Proof.
  intros status. subst status. unfold Scanner.analyzeAccount.
  destruct info as [i|].
  2:{ simpl. split; [reflexivity|]. split; [reflexivity|].
      split; [split; [discriminate | intros (i & d & H & _); discriminate]|].
      split; [discriminate|]. split; [eauto|]. split; [split; reflexivity|].
      split; [discriminate | reflexivity]. }
  destruct (Scanner.checkSafetyRules w pubkey i) as [reason|] eqn:Hrules.
  { simpl. split; [reflexivity|]. split; [reflexivity|].
    split; [split; [discriminate | intros (i' & d & [= <-] & _ & H & _); congruence]|].
    split; [discriminate|]. split; [eauto|]. split; [discriminate|].
    split; reflexivity. }
  destruct (checkSafetyRules_none w pubkey i Hrules) as [Hwl Hexe].
  destruct (bool_decide (AccountInfo.owner i = SYSTEM_PROGRAM_ID)) eqn:Hsys.
  { apply bool_decide_eq_true in Hsys. simpl.
    split; [reflexivity|]. split; [reflexivity|].
    split; [split; [discriminate|]|].
    { intros (i' & d & [= <-] & Howner & _). rewrite Hsys in Howner.
      symmetry in Howner. exfalso. exact (token_is_not_system Howner). }
    split; [discriminate|]. split; [eauto|]. split; [discriminate|].
    split; reflexivity. }
  cbn [Scanner.set_isTokenAccount AccountStatus.isTokenAccount].
  destruct (bool_decide (AccountInfo.owner i = TOKEN_PROGRAM_ID)) eqn:Htok.
  2:{ apply bool_decide_eq_false in Htok. simpl.
      split; [reflexivity|]. split; [reflexivity|].
      split; [split; [discriminate | intros (i' & d & [= <-] & Howner & _); contradiction]|].
      split; [discriminate|]. split; [eauto|]. split; [discriminate|].
      split; reflexivity. }
  apply bool_decide_eq_true in Htok.
  destruct (AccountInfo.decoded i) as [decoded|] eqn:Hdec.
  2:{ simpl. split; [reflexivity|]. split; [reflexivity|].
      split; [split; [discriminate | intros (i' & d & [= <-] & _ & _ & H & _); congruence]|].
      split; [discriminate|]. split; [eauto|]. split; [discriminate|].
      split; [intros i' [= <-] H; contradiction | reflexivity]. }
  destruct (bool_decide (ConfigManager.operatorPublicKey (World.cfg w)
                         = Some (Scanner.decodedCloseAuthority decoded))) eqn:Hop.
  - apply bool_decide_eq_true in Hop. simpl.
    split; [reflexivity|]. split; [reflexivity|].
    split; [split; [intros _; exists i, decoded; repeat split; assumption | reflexivity]|].
    split; [intros _; rewrite Hop; repeat split; assumption|].
    split; [discriminate|]. split; [discriminate|].
    split; [intros i' [= <-] H; contradiction|].
    intros msg Hkey. unfold ConfigManager.operatorPublicKey in Hop. rewrite Hkey in Hop.
    discriminate.
  - apply bool_decide_eq_false in Hop. simpl.
    split; [reflexivity|]. split; [reflexivity|].
    split; [split; [discriminate|]|].
    { intros (i' & d & [= <-] & _ & _ & Hd & Hmatch). rewrite Hdec in Hd.
      injection Hd as <-. contradiction. }
    split; [discriminate|]. split; [eauto|]. split; [discriminate|].
    split; reflexivity.
Qed.

(** ** What a scan step writes *)

(** One scan step is one update of the row of the scanned key. *)
Lemma scanOne_as_update (pubkey : string) (info : option AccountInfo.t) (w : World.t) :
  exists F,
    snd (Scanner.scanOne pubkey info w)
    = Scanner.with_db (DatabaseManager.on_accounts (alter F pubkey)) w
    /\ forall r,
         SponsoredAccount.lastChecked (F r) = Some (DatabaseManager.datetime (World.now w))
         /\ SponsoredAccount.status (F r) = match info with Some _ => active | None => closed end
         /\ SponsoredAccount.lamports (F r) = from_option AccountInfo.lamports 0 info
         /\ SponsoredAccount.pubkey (F r) = SponsoredAccount.pubkey r
         /\ SponsoredAccount.createdAt (F r) = SponsoredAccount.createdAt r
         /\ SponsoredAccount.programOwner (F r) = SponsoredAccount.programOwner r
         /\ SponsoredAccount.sponsorSignature (F r) = SponsoredAccount.sponsorSignature r
         /\ (forall since,
               SponsoredAccount.reclaimableSince (F r) = Some since ->
               SponsoredAccount.reclaimableSince r = Some since
               \/ since = DatabaseManager.datetime (World.now w)).
Proof.
  unfold Scanner.scanOne, Scanner.analyzeAccount.
  assert (Hone : forall (status : Status) (lamports : option Z),
            DatabaseManager.updateAccountStatus (World.now w) pubkey status lamports
            = DatabaseManager.on_accounts (alter (fun r =>
                SponsoredAccount.mk
                  (SponsoredAccount.pubkey r) (SponsoredAccount.programOwner r)
                  (SponsoredAccount.sponsorSignature r)
                  (match lamports with Some l => l | None => SponsoredAccount.lamports r end)
                  (SponsoredAccount.createdAt r)
                  (Some (DatabaseManager.datetime (World.now w))) status
                  (SponsoredAccount.reclaimableSince r) (SponsoredAccount.closeAuthority r)
                  (SponsoredAccount.operatorCanClose r)) pubkey)) by reflexivity.
  assert (Hcompose : forall (f g : SponsoredAccount.t -> SponsoredAccount.t) (d : Db.t),
            DatabaseManager.on_accounts (alter f pubkey)
              (DatabaseManager.on_accounts (alter g pubkey) d)
            = DatabaseManager.on_accounts (alter (f ∘ g) pubkey) d).
  { intros f g d. unfold DatabaseManager.on_accounts. simpl. rewrite alter_alter_eq.
    reflexivity. }
  destruct info as [i|].
  2:{ eexists. split.
      - simpl. unfold Scanner.with_db. simpl. rewrite !Hone.
        rewrite Hcompose. reflexivity.
      - intros r. repeat split. intros since Hs. left. exact Hs. }
  destruct (Scanner.checkSafetyRules w pubkey i).
  { eexists. split; [simpl; rewrite Hone; reflexivity|].
    intros r; repeat split. intros since Hs. left. exact Hs. }
  destruct (bool_decide (AccountInfo.owner i = SYSTEM_PROGRAM_ID)).
  { eexists. split; [simpl; rewrite Hone; reflexivity|].
    intros r; repeat split. intros since Hs. left. exact Hs. }
  cbn [Scanner.set_isTokenAccount AccountStatus.isTokenAccount].
  destruct (bool_decide (AccountInfo.owner i = TOKEN_PROGRAM_ID)).
  2:{ eexists. split; [simpl; rewrite Hone; reflexivity|].
      intros r; repeat split. intros since Hs. left. exact Hs. }
  destruct (AccountInfo.decoded i) as [decoded|].
  2:{ eexists. split; [simpl; rewrite Hone; reflexivity|].
      intros r; repeat split. intros since Hs. left. exact Hs. }
  destruct (bool_decide _).
  - eexists. split.
    + simpl. unfold Scanner.with_db. simpl. rewrite Hone.
      unfold DatabaseManager.updateAccountAuthority, DatabaseManager.markAsReclaimable.
      rewrite !Hcompose. reflexivity.
    + intros r. simpl. destruct (SponsoredAccount.reclaimableSince r) eqn:Hr; repeat split.
      * intros since Hs. left. simpl in Hs. congruence.
      * intros since Hs. right. simpl in Hs. congruence.
  - eexists. split.
    + simpl. unfold Scanner.with_db. simpl. rewrite Hone.
      unfold DatabaseManager.updateAccountAuthority, DatabaseManager.clearReclaimableState.
      rewrite !Hcompose. reflexivity.
    + intros r. repeat split. intros since Hs. simpl in Hs. discriminate.
Qed.

(** X15: what one step of the scanner's loop writes. It changes nothing
    of the world but the row of the scanned key: the configuration, the
    safety manager, the clock, the whitelist, the history and every other
    row stay as they are. It never inserts a row: for a key that is not
    tracked the store is unchanged. The row of a tracked key keeps its
    identity columns and gets [last_checked] set to the time of the scan
    (as [datetime('now')] gives it), its status set to 'active' when the
    account was found and to 'closed' when it was not, and its balance set
    to the balance seen (zero when the account is gone). *)
Theorem scanOne_writes_one_row (pubkey : string) (info : option AccountInfo.t) (w : World.t) :
  let w' := snd (Scanner.scanOne pubkey info w) in
  World.cfg w' = World.cfg w /\ World.safety w' = World.safety w
  /\ World.rpc w' = World.rpc w /\ World.now w' = World.now w
  /\ World.submitted w' = World.submitted w /\ World.slept w' = World.slept w
  /\ World.logEntries w' = World.logEntries w
  /\ Db.reclaim_history (World.db w') = Db.reclaim_history (World.db w)
  /\ Db.whitelist (World.db w') = Db.whitelist (World.db w)
  /\ (forall k, k <> pubkey ->
        DatabaseManager.getAccount k (World.db w') = DatabaseManager.getAccount k (World.db w))
  /\ (DatabaseManager.getAccount pubkey (World.db w) = None -> World.db w' = World.db w)
  /\ (forall row, DatabaseManager.getAccount pubkey (World.db w) = Some row ->
        exists row',
          DatabaseManager.getAccount pubkey (World.db w') = Some row'
          /\ SponsoredAccount.lastChecked row'
             = Some (DatabaseManager.datetime (World.now w))
          /\ SponsoredAccount.status row'
             = match info with Some _ => active | None => closed end
          /\ SponsoredAccount.lamports row' = from_option AccountInfo.lamports 0 info
          /\ SponsoredAccount.pubkey row' = SponsoredAccount.pubkey row
          /\ SponsoredAccount.createdAt row' = SponsoredAccount.createdAt row
          /\ SponsoredAccount.programOwner row' = SponsoredAccount.programOwner row
          /\ SponsoredAccount.sponsorSignature row' = SponsoredAccount.sponsorSignature row).
Proof.
  intros w'. subst w'.
  destruct (scanOne_as_update pubkey info w) as (F & -> & HF).
  destruct (row_update_frame F pubkey (World.db w)) as (_ & Hne & Heq & Hnone & Hhist & Hwl).
  simpl. do 7 (split; [reflexivity|]).
  split; [exact Hhist|]. split; [exact Hwl|]. split; [exact Hne|]. split; [exact Hnone|].
  intros row Hrow. exists (F row). rewrite Heq, Hrow. split; [reflexivity|].
  destruct (HF row) as (H1 & H2 & H3 & H4 & H5 & H6 & H7 & _).
  do 6 (split; [assumption|]). assumption.
Qed.

(** A scan step within the minimum idle time of the instant read from the
    previous stamp is stopped by the pre-check (or finds the account
    gone): nothing is reported reclaimable. *)
Lemma scanOne_soon_after (pubkey : string) (info : option AccountInfo.t) (w : World.t)
    (row : SponsoredAccount.t) (t0 : Z) :
  DatabaseManager.getAccount pubkey (World.db w) = Some row ->
  SponsoredAccount.lastChecked row = Some t0 ->
  World.now w - parseDate (World.rpc w) t0 < Config.minIdleDays (World.cfg w) * MS_PER_DAY ->
  AccountStatus.isReclaimable (fst (Scanner.scanOne pubkey info w)) = false
  /\ AccountStatus.operatorCanClose (fst (Scanner.scanOne pubkey info w)) = false.
Proof.
  intros Hrow Hlast Hsoon.
  unfold Scanner.scanOne.
  destruct (Scanner.analyzeAccount pubkey info w) as [status w1] eqn:Han. simpl.
  unfold Scanner.analyzeAccount in Han.
  destruct info as [i|]; [|injection Han as <- _; split; reflexivity].
  assert (Hskip : is_Some (Scanner.checkSafetyRules w pubkey i)).
  { unfold Scanner.checkSafetyRules.
    destruct (_ || _); [eauto|]. destruct (AccountInfo.executable i); [eauto|].
    rewrite Hrow, Hlast. cbv zeta.
    rewrite (proj2 (Qlt_bool_days (World.now w) (parseDate (World.rpc w) t0)
                      (Config.minIdleDays (World.cfg w))) Hsoon).
    eauto. }
  destruct Hskip as [reason Hreason]. rewrite Hreason in Han.
  injection Han as <- _. split; reflexivity.
Qed.

Lemma scanOne_world_facts (pubkey : string) (info : option AccountInfo.t) (w : World.t)
    (row : SponsoredAccount.t) :
  DatabaseManager.getAccount pubkey (World.db w) = Some row ->
  World.cfg (snd (Scanner.scanOne pubkey info w)) = World.cfg w
  /\ World.rpc (snd (Scanner.scanOne pubkey info w)) = World.rpc w
  /\ exists row',
       DatabaseManager.getAccount pubkey (World.db (snd (Scanner.scanOne pubkey info w)))
       = Some row'
       /\ SponsoredAccount.lastChecked row' = Some (DatabaseManager.datetime (World.now w)).
Proof.
  intros Hrow.
  destruct (scanOne_as_update pubkey info w) as (F & -> & HF).
  split; [reflexivity|]. split; [reflexivity|]. exists (F row). simpl.
  rewrite getAccount_alter_eq, Hrow. split; [reflexivity|]. apply HF.
Qed.

(** X16: scanning often keeps an account from ever being reported. Each
    step of the scanner's loop stamps [last_checked] with the time of the
    scan, to the second, and the pre-check of the next step reads the
    stamp back through [new Date], as local time, and refuses an account
    for which the instant so read is less than [minIdleDays] days old. So
    for a tracked account that has been scanned once, as long as every
    scan comes less than [minIdleDays] days after the instant the host
    reads from the stamp of the scan before, no scan reports it as
    reclaimable, whatever the node answers: its status always has
    [isReclaimable] and [operatorCanClose] false, and the account is never
    handed to the reclaim engine. *)
Theorem frequent_scans_report_nothing (pubkey : string)
    (visits : list (Z * option AccountInfo.t)) :
  forall (w : World.t) (row : SponsoredAccount.t) (t0 : Z),
  DatabaseManager.getAccount pubkey (World.db w) = Some row ->
  SponsoredAccount.lastChecked row = Some t0 ->
  closely_spaced (World.rpc w) (Config.minIdleDays (World.cfg w) * MS_PER_DAY) t0
    (map fst visits) ->
  Forall (fun status => AccountStatus.isReclaimable status = false
                        /\ AccountStatus.operatorCanClose status = false)
         (fst (scansAt pubkey visits w))
  /\ length (fst (scansAt pubkey visits w)) = length visits.
Proof.
  induction visits as [|[t info] rest IH]; intros w row t0 Hrow Hlast Hspaced.
  - simpl. split; [constructor | reflexivity].
  - cbn [scansAt]. cbn [map fst closely_spaced] in Hspaced.
    destruct Hspaced as [Hsoon Hrest].
    pose proof (scanOne_soon_after pubkey info (at_time t w) row t0 Hrow Hlast Hsoon) as Hnow.
    destruct (scanOne_world_facts pubkey info (at_time t w) row Hrow)
      as (Hcfg & Hrpc & row' & Hrow' & Hlast').
    destruct (Scanner.scanOne pubkey info (at_time t w)) as [status w1]. simpl in *.
    specialize (IH w1 row' (DatabaseManager.datetime t) Hrow' Hlast').
    rewrite Hcfg, Hrpc in IH. specialize (IH Hrest).
    destruct (scansAt pubkey rest w1) as [statuses w2]. simpl in *.
    destruct IH as [IHall IHlen].
    split; [constructor; assumption | rewrite IHlen; reflexivity].
Qed.

(** ** The scan run *)

(** An update of one row that keeps the [pubkey] column keeps the rows
    under their keys. *)
Lemma keyed_alter (F : SponsoredAccount.t -> SponsoredAccount.t) (pubkey : string)
    (d : Db.t) :
  (forall r, SponsoredAccount.pubkey (F r) = SponsoredAccount.pubkey r) ->
  keyed_by_pubkey d -> keyed_by_pubkey (DatabaseManager.on_accounts (alter F pubkey) d).
Proof.
  intros HF Hkeyed k r Hk.
  destruct (row_update_frame F pubkey d) as (_ & Hne & Heq & _).
  destruct (decide (k = pubkey)) as [->|Hdiff].
  - rewrite Heq in Hk.
    destruct (DatabaseManager.getAccount pubkey d) as [r0|] eqn:Hr0; [|discriminate].
    simpl in Hk. injection Hk as <-. rewrite HF. apply Hkeyed. exact Hr0.
  - rewrite (Hne k Hdiff) in Hk. apply Hkeyed. exact Hk.
Qed.

Lemma scan_frame_refl (keys : list string) (w : World.t) : scan_frame keys w w.
Proof.
  unfold scan_frame. do 7 (split; [reflexivity|]). split; [reflexivity|].
  split; [reflexivity|]. split; [lia|]. split; [|tauto].
  intros k since Hs. left. exact Hs.
Qed.

Lemma scan_frame_trans (keys : list string) (w1 w2 w3 : World.t) :
  scan_frame keys w1 w2 -> scan_frame keys w2 w3 -> scan_frame keys w1 w3.
Proof.
  intros (?&?&?&?&?&?&?&Hs1&Hk1&Hn1&Hc1&Hi1) (?&?&?&?&?&?&?&Hs2&Hk2&Hn2&Hc2&Hi2).
  unfold scan_frame. do 7 (split; [congruence|]).
  split; [|split; [|split; [lia|split; [|tauto]]]].
  - intros k. rewrite Hs2. apply Hs1.
  - intros k Hk. rewrite (Hk2 k Hk). apply Hk1. exact Hk.
  - pose proof (datetime_mono _ _ Hn1) as Hmono.
    intros k since Hs. destruct (Hc2 k since Hs) as [Hprev|Hnew]; [|right; lia].
    destruct (Hc1 k since Hprev) as [Hprev1|Hnew]; [left; exact Hprev1 | right; lia].
Qed.

Lemma scan_frame_weaken (keys keys' : list string) (w w' : World.t) :
  (forall k, In k keys -> In k keys') -> scan_frame keys w w' -> scan_frame keys' w w'.
Proof.
  intros Hsub (?&?&?&?&?&?&?&Hs&Hk&Hn&Hc&Hi).
  unfold scan_frame. do 7 (split; [assumption|]). split; [exact Hs|].
  split; [|split; [exact Hn | split; [exact Hc | exact Hi]]].
  intros k Hno. apply Hk. intros Hin. apply Hno. apply Hsub. exact Hin.
Qed.

Lemma scan_frame_update (F : SponsoredAccount.t -> SponsoredAccount.t) (pubkey : string)
    (w : World.t) :
  (forall r since, SponsoredAccount.reclaimableSince (F r) = Some since ->
     SponsoredAccount.reclaimableSince r = Some since
     \/ since = DatabaseManager.datetime (World.now w)) ->
  (forall r, SponsoredAccount.pubkey (F r) = SponsoredAccount.pubkey r) ->
  scan_frame [pubkey] w (Scanner.with_db (DatabaseManager.on_accounts (alter F pubkey)) w).
Proof.
  intros HF Hpk. pose proof (datetime_bounds (World.now w)) as Hsecond.
  destruct (row_update_frame F pubkey (World.db w)) as (Hsome & Hne & Heq & _ & Hhist & Hwl).
  unfold scan_frame. simpl. do 5 (split; [reflexivity|]).
  split; [exact Hhist|]. split; [exact Hwl|]. split; [exact Hsome|].
  split; [|split; [lia|split; [|apply keyed_alter; exact Hpk]]].
  - intros k Hk. apply Hne. intros ->. apply Hk. left. reflexivity.
  - intros k since Hs. destruct (decide (k = pubkey)) as [->|Hk].
    + rewrite Heq in Hs.
      destruct (DatabaseManager.getAccount pubkey (World.db w)) as [r|]; [|discriminate].
      simpl in Hs. injection Hs as Hs.
      destruct (HF r since Hs) as [Hold|Hnow]; [left; simpl; congruence | right; lia].
    + rewrite (Hne k Hk) in Hs. left. exact Hs.
Qed.

Lemma scan_frame_time (keys : list string) (w : World.t) (now : Z) (slept : list Z) :
  World.now w <= now ->
  scan_frame keys w
    (World.mk (World.cfg w) (World.db w) (World.safety w) (World.rpc w) now
              (World.submitted w) slept (World.logEntries w)).
Proof.
  intros Hnow. unfold scan_frame. simpl. do 7 (split; [reflexivity|]).
  split; [reflexivity|]. split; [reflexivity|]. split; [exact Hnow|]. split; [|tauto].
  intros k since Hs. left. exact Hs.
Qed.

(** The scan step as the frame sees it. *)
Lemma scanOne_frame (pubkey : string) (info : option AccountInfo.t) (w : World.t) :
  scan_frame [pubkey] w (snd (Scanner.scanOne pubkey info w)).
Proof.
  destruct (scanOne_as_update pubkey info w) as (F & -> & HF).
  apply scan_frame_update.
  - intros r since Hs. apply (HF r). exact Hs.
  - intros r. apply (HF r).
Qed.

Lemma scanned_frame (conn : Connection.t) (keys : list string) (w w1 : World.t)
    (pubkey : string) (s : AccountStatus.t) :
  scan_frame keys w w1 -> scanned conn w1 pubkey s -> scanned conn w pubkey s.
Proof.
  intros (Hcfg & _ & _ & _ & _ & _ & Hwl & _) (Hpk & Heq & Hyes & Hno & Hchain).
  unfold scanned. split; [exact Hpk|]. split; [exact Heq|].
  split; [|split; [exact Hno|]].
  - intros Hr. destruct (Hyes Hr) as (H1 & H2 & H3 & H4 & H5 & H6).
    split; [exact H1|]. split; [exact H2|]. split; [exact H3|]. split; [exact H4|].
    split; [congruence|].
    unfold Safety.isWhitelisted, DatabaseManager.isWhitelisted in *.
    rewrite <- Hcfg, <- Hwl. exact H6.
  - intros Hr. destruct (Hchain Hr) as (i & decoded & H1 & H2 & H3 & H4 & H5).
    exists i, decoded. rewrite <- Hcfg. repeat split; assumption.
Qed.

(** [analyzeAccount] answers with a status for the key it was given, and
    changes at most the row of that key. *)
Lemma analyzeAccount_scanned (conn : Connection.t) (pubkey : string)
    (info : option AccountInfo.t) (w : World.t) :
  (forall i, info = Some i -> reported conn pubkey i) ->
  scanned conn w pubkey (fst (Scanner.analyzeAccount pubkey info w))
  /\ scan_frame [pubkey] w (snd (Scanner.analyzeAccount pubkey info w))
  /\ World.now (snd (Scanner.analyzeAccount pubkey info w)) = World.now w
  /\ World.slept (snd (Scanner.analyzeAccount pubkey info w)) = World.slept w.
Proof.
  intros Hreported. unfold Scanner.analyzeAccount, scanned.
  destruct info as [i|].
  2:{ simpl. split; [|split; [|split; reflexivity]].
      - split; [reflexivity|]. split; [reflexivity|]. split; [discriminate|].
        split; [eauto | discriminate].
      - apply scan_frame_update; [|reflexivity]. intros r since Hs. left. exact Hs. }
  specialize (Hreported i eq_refl).
  destruct (Scanner.checkSafetyRules w pubkey i) as [reason|] eqn:Hrules.
  { simpl. split; [|split; [apply scan_frame_refl | split; reflexivity]].
    split; [reflexivity|]. split; [reflexivity|]. split; [discriminate|].
    split; [eauto | discriminate]. }
  destruct (checkSafetyRules_none w pubkey i Hrules) as [Hwl Hexe].
  destruct (bool_decide (AccountInfo.owner i = SYSTEM_PROGRAM_ID)).
  { simpl. split; [|split; [apply scan_frame_refl | split; reflexivity]].
    split; [reflexivity|]. split; [reflexivity|]. split; [discriminate|].
    split; [eauto | discriminate]. }
  cbn [Scanner.set_isTokenAccount AccountStatus.isTokenAccount].
  destruct (bool_decide (AccountInfo.owner i = TOKEN_PROGRAM_ID)) eqn:Htok.
  2:{ simpl. split; [|split; [apply scan_frame_refl | split; reflexivity]].
      split; [reflexivity|]. split; [reflexivity|]. split; [discriminate|].
      split; [eauto | discriminate]. }
  apply bool_decide_eq_true in Htok.
  destruct (AccountInfo.decoded i) as [decoded|] eqn:Hdec.
  2:{ simpl. split; [|split; [apply scan_frame_refl | split; reflexivity]].
      split; [reflexivity|]. split; [reflexivity|]. split; [discriminate|].
      split; [eauto | discriminate]. }
  assert (Hcompose : forall (f g : SponsoredAccount.t -> SponsoredAccount.t) (d : Db.t),
            DatabaseManager.on_accounts (alter f pubkey)
              (DatabaseManager.on_accounts (alter g pubkey) d)
            = DatabaseManager.on_accounts (alter (f ∘ g) pubkey) d).
  { intros f g d. unfold DatabaseManager.on_accounts. simpl. rewrite alter_alter_eq.
    reflexivity. }
  destruct (bool_decide (ConfigManager.operatorPublicKey (World.cfg w)
                         = Some (Scanner.decodedCloseAuthority decoded))) eqn:Hop.
  - apply bool_decide_eq_true in Hop. simpl.
    split; [|split; [|split; reflexivity]].
    + split; [reflexivity|]. split; [reflexivity|].
      split; [intros _; rewrite Hop; repeat split; eauto|].
      split; [discriminate|].
      intros _. exists i, decoded. repeat split; assumption.
    + unfold DatabaseManager.updateAccountAuthority, DatabaseManager.markAsReclaimable.
      unfold Scanner.with_db. simpl. rewrite Hcompose. apply scan_frame_update.
      * intros r since Hs. simpl in Hs.
        destruct (SponsoredAccount.reclaimableSince r) eqn:Hr; simpl in Hs;
          [left; congruence | right; congruence].
      * intros r. simpl. destruct (SponsoredAccount.reclaimableSince r); reflexivity.
  - simpl. split; [|split; [|split; reflexivity]].
    + split; [reflexivity|]. split; [reflexivity|]. split; [discriminate|].
      split; [eauto | discriminate].
    + unfold DatabaseManager.updateAccountAuthority, DatabaseManager.clearReclaimableState.
      unfold Scanner.with_db. simpl. rewrite Hcompose. apply scan_frame_update.
      * intros r since Hs. simpl in Hs. discriminate.
      * reflexivity.
Qed.

Lemma failedStatus_scanned (conn : Connection.t) (w : World.t) (pubkey : string) :
  scanned conn w pubkey (Scan.failedStatus pubkey).
Proof.
  unfold scanned, Scan.failedStatus. simpl.
  split; [reflexivity|]. split; [reflexivity|]. split; [discriminate|].
  split; [eauto | discriminate].
Qed.

(** [scanSingleAccount], case by case. *)
Lemma scanSingleAccount_run (conn : Connection.t) (pubkey : string) (w : World.t) :
  Scan.scanSingleAccount conn pubkey w
  = if Rpc.validKey (World.rpc w) pubkey then
      match Connection.getAccountInfo conn pubkey with
      | inr info =>
          (Returned (fst (Scanner.analyzeAccount pubkey info w)),
           snd (Scanner.analyzeAccount pubkey info w))
      | inl _ => (Returned (Scan.failedStatus pubkey), w)
      end
    else (Returned (Scan.failedStatus pubkey), w).
Proof.
  unfold Scan.scanSingleAccount, try_catch, bind, Reclaim.newPublicKey, Scan.getAccountInfo,
         Scan.analyzeAccount, ret.
  destruct (Rpc.validKey (World.rpc w) pubkey); [|reflexivity].
  destruct (Connection.getAccountInfo conn pubkey) as [msg|info]; [reflexivity|].
  destruct (Scanner.analyzeAccount pubkey info w). reflexivity.
Qed.

(** X17: [scanSingleAccount] never throws. It returns a status for the
    key it was given; when the key is malformed or the node does not
    answer, the status is the one marked 'Failed to fetch account info',
    which is not reclaimable, and nothing is written; otherwise the status
    and the writes are those of [analyzeAccount], so that, unlike in the
    loop over a fetched batch, the row's [last_checked] stamp of an account
    that exists is left alone. *)
Theorem scanSingleAccount_never_throws (conn : Connection.t) (pubkey : string)
    (w : World.t) :
  exists status w',
    Scan.scanSingleAccount conn pubkey w = (Returned status, w')
    /\ AccountStatus.pubkey status = pubkey
    /\ AccountStatus.isReclaimable status = AccountStatus.operatorCanClose status
    /\ (Rpc.validKey (World.rpc w) pubkey = false
        \/ (exists msg, Connection.getAccountInfo conn pubkey = inl msg) ->
        status = Scan.failedStatus pubkey /\ w' = w
        /\ AccountStatus.isReclaimable status = false)
    /\ (forall info,
          Rpc.validKey (World.rpc w) pubkey = true ->
          Connection.getAccountInfo conn pubkey = inr info ->
          (status, w') = Scanner.analyzeAccount pubkey info w)
    /\ (forall i row,
          Rpc.validKey (World.rpc w) pubkey = true ->
          Connection.getAccountInfo conn pubkey = inr (Some i) ->
          DatabaseManager.getAccount pubkey (World.db w) = Some row ->
          SponsoredAccount.lastChecked
            <$> DatabaseManager.getAccount pubkey (World.db w')
          = Some (SponsoredAccount.lastChecked row)).
Proof.
  rewrite scanSingleAccount_run.
  destruct (Rpc.validKey (World.rpc w) pubkey) eqn:Hvalid.
  2:{ exists (Scan.failedStatus pubkey), w. split; [reflexivity|].
      split; [reflexivity|]. split; [reflexivity|].
      split; [intros _; repeat split|]. split; intros; discriminate. }
  destruct (Connection.getAccountInfo conn pubkey) as [msg|info] eqn:Hinfo.
  { exists (Scan.failedStatus pubkey), w. split; [reflexivity|].
    split; [reflexivity|]. split; [reflexivity|].
    split; [intros _; repeat split|]. split; intros; discriminate. }
  destruct (analyzeAccount_scanned conn pubkey info w) as ((Hpk & Heq & _) & _).
  { intros i ->. left. exact Hinfo. }
  eexists _, _. split; [reflexivity|]. split; [exact Hpk|]. split; [exact Heq|].
  split; [intros [H|[msg H]]; discriminate|].
  split; [intros info' _ [= <-]; symmetry; apply surjective_pairing|].
  intros i row _ [= ->] Hrow.
  unfold Scanner.analyzeAccount.
  destruct (Scanner.checkSafetyRules w pubkey i); [simpl; rewrite Hrow; reflexivity|].
  destruct (bool_decide (AccountInfo.owner i = SYSTEM_PROGRAM_ID));
    [simpl; rewrite Hrow; reflexivity|].
  cbn [Scanner.set_isTokenAccount AccountStatus.isTokenAccount].
  destruct (bool_decide (AccountInfo.owner i = TOKEN_PROGRAM_ID));
    [|simpl; rewrite Hrow; reflexivity].
  destruct (AccountInfo.decoded i); [|simpl; rewrite Hrow; reflexivity].
  destruct (bool_decide _); simpl;
    unfold DatabaseManager.updateAccountAuthority, DatabaseManager.markAsReclaimable,
           DatabaseManager.clearReclaimableState;
    rewrite !getAccount_alter_eq, Hrow; simpl;
    try (destruct (SponsoredAccount.reclaimableSince row)); reflexivity.
Qed.

Lemma firstRefused_forallb (rpc : Rpc.t) (keys : list string) :
  if forallb (Rpc.validKey rpc) keys then firstRefused rpc keys = None
  else exists key, firstRefused rpc keys = Some key
                   /\ In key keys /\ Rpc.validKey rpc key = false.
Proof.
  induction keys as [|key rest IH]; [reflexivity|].
  cbn [forallb firstRefused List.find]. fold (firstRefused rpc rest).
  destruct (Rpc.validKey rpc key) eqn:Hkey; cbn [negb andb].
  - destruct (forallb (Rpc.validKey rpc) rest); [exact IH|].
    destruct IH as (k & Hk & Hin & Hbad). exists k.
    split; [exact Hk|]. split; [right; exact Hin | exact Hbad].
  - exists key. split; [reflexivity|]. split; [left; reflexivity | exact Hkey].
Qed.

(** The keys of a batch are parsed in order: the first one refused ends
    the parsing with its error. *)
Lemma newPublicKeys_run (keys : list string) (w : World.t) :
  Scan.newPublicKeys keys w
  = match firstRefused (World.rpc w) keys with
    | None => (Returned keys, w)
    | Some key => (Threw (Rpc.keyError (World.rpc w) key), w)
    end.
Proof.
  induction keys as [|key rest IH]; [reflexivity|].
  cbn [Scan.newPublicKeys firstRefused List.find]. fold (firstRefused (World.rpc w) rest).
  unfold bind at 1. unfold Reclaim.newPublicKey.
  destruct (Rpc.validKey (World.rpc w) key); [|reflexivity].
  cbn [negb]. unfold bind at 1. rewrite IH.
  destruct (firstRefused _ rest); reflexivity.
Qed.

(** One entry of a fetched batch. *)
Lemma scanEntry_run (conn : Connection.t) (pubkey : string)
    (info : option (option AccountInfo.t)) (w : World.t) :
  (forall i, info = Some (Some i) -> reported conn pubkey i) ->
  exists status w',
    Scan.scanEntry pubkey info w = (Returned status, w')
    /\ scanned conn w pubkey status
    /\ scan_frame [pubkey] w w'
    /\ World.now w' = World.now w /\ World.slept w' = World.slept w.
Proof.
  intros Hreported. unfold Scan.scanEntry.
  destruct info as [info|].
  - destruct (analyzeAccount_scanned conn pubkey info w) as (Hs & _).
    { intros i ->. apply Hreported. reflexivity. }
    pose proof (scanOne_frame pubkey info w) as Hframe.
    destruct (scanOne_as_update pubkey info w) as (F & HF & _).
    assert (Hfst : fst (Scanner.scanOne pubkey info w)
                   = fst (Scanner.analyzeAccount pubkey info w)).
    { unfold Scanner.scanOne. destruct (Scanner.analyzeAccount pubkey info w). reflexivity. }
    destruct (Scanner.scanOne pubkey info w) as [status w']. simpl in *. subst status.
    eexists _, _. split; [reflexivity|]. split; [exact Hs|].
    split; [exact Hframe | subst w'; split; reflexivity].
  - pose proof (scanOne_frame pubkey None w) as Hframe.
    destruct (scanOne_as_update pubkey None w) as (F & HF & _).
    assert (Hfst : fst (Scanner.scanOne pubkey None w)
                   = Scanner.set_skip SkipAlreadyClosed (Scanner.initialStatus pubkey None))
      by reflexivity.
    destruct (Scanner.scanOne pubkey None w) as [status w']. simpl in *. subst status.
    eexists _, _. split; [reflexivity|]. split.
    + unfold scanned. simpl. split; [reflexivity|]. split; [reflexivity|].
      split; [discriminate|]. split; [eauto | discriminate].
    + split; [exact Hframe | subst w'; split; reflexivity].
Qed.

Lemma In_drop {A} (n : nat) (l : list A) (x : A) : In x (drop n l) -> In x l.
Proof.
  intros H. rewrite <- (take_drop n l). apply in_or_app. right. exact H.
Qed.

Lemma In_take {A} (n : nat) (l : list A) (x : A) : In x (take n l) -> In x l.
Proof.
  intros H. rewrite <- (take_drop n l). apply in_or_app. left. exact H.
Qed.

(** The loop over a fetched batch: one status per account, in order. *)
Lemma bulkLoop_run (conn : Connection.t) (accountInfos : list (option AccountInfo.t))
    (accounts : list SponsoredAccount.t) :
  forall (i : nat) (statuses : list AccountStatus.t) (w : World.t),
  (forall k a info, accounts !! k = Some a -> accountInfos !! (i + k)%nat = Some (Some info) ->
     reported conn (SponsoredAccount.pubkey a) info) ->
  exists new w',
    Scan.bulkLoop accounts accountInfos i statuses w = (Returned (statuses ++ new), w')
    /\ Forall2 (fun a s => scanned conn w (SponsoredAccount.pubkey a) s) accounts new
    /\ scan_frame (map SponsoredAccount.pubkey accounts) w w'
    /\ World.now w' = World.now w /\ World.slept w' = World.slept w.
Proof.
  induction accounts as [|account rest IH]; intros i statuses w Hreported.
  - exists [], w. simpl. rewrite app_nil_r. split; [reflexivity|].
    split; [constructor|]. split; [apply scan_frame_refl | split; reflexivity].
  - cbn [Scan.bulkLoop]. unfold bind at 1.
    destruct (scanEntry_run conn (SponsoredAccount.pubkey account) (accountInfos !! i) w)
      as (status & w1 & -> & Hs & Hframe1 & Hnow1 & Hslept1).
    { intros info Hinfo. apply (Hreported 0%nat account info); [reflexivity|].
      rewrite Nat.add_0_r. exact Hinfo. }
    destruct (IH (S i) (statuses ++ [status]) w1)
      as (new & w' & -> & Hnew & Hframe & Hnow & Hslept).
    { intros k a info Ha Hinfo. apply (Hreported (S k) a info); [exact Ha|].
      rewrite <- Hinfo. f_equal. lia. }
    exists (status :: new), w'. rewrite <- app_assoc. split; [reflexivity|].
    assert (Hsub1 : scan_frame (map SponsoredAccount.pubkey (account :: rest)) w w1).
    { eapply scan_frame_weaken; [|exact Hframe1].
      intros k [<-|[]]. left. reflexivity. }
    assert (Hsub2 : scan_frame (map SponsoredAccount.pubkey (account :: rest)) w1 w').
    { eapply scan_frame_weaken; [|exact Hframe]. intros k Hk. right. exact Hk. }
    split.
    + constructor; [exact Hs|].
      eapply Forall2_impl; [exact Hnew|]. intros a s. apply (scanned_frame _ _ _ _ _ _ Hsub1).
    + split; [eapply scan_frame_trans; eassumption|]. split; congruence.
Qed.

(** The fallback loop: one status per account, in order. *)
Lemma fallbackLoop_run (conn : Connection.t) (accounts : list SponsoredAccount.t) :
  forall (statuses : list AccountStatus.t) (w : World.t),
  exists new w',
    Scan.fallbackLoop conn accounts statuses w = (Returned (statuses ++ new), w')
    /\ Forall2 (fun a s => scanned conn w (SponsoredAccount.pubkey a) s) accounts new
    /\ scan_frame (map SponsoredAccount.pubkey accounts) w w'
    /\ World.now w' = World.now w /\ World.slept w' = World.slept w.
Proof.
  induction accounts as [|account rest IH]; intros statuses w.
  - exists [], w. simpl. rewrite app_nil_r. split; [reflexivity|].
    split; [constructor|]. split; [apply scan_frame_refl | split; reflexivity].
  - cbn [Scan.fallbackLoop]. unfold bind at 1. unfold try_catch at 1.
    rewrite scanSingleAccount_run.
    set (pubkey := SponsoredAccount.pubkey account).
    assert (Hone : exists status w1,
              (if Rpc.validKey (World.rpc w) pubkey then
                 match Connection.getAccountInfo conn pubkey with
                 | inr info =>
                     (Returned (fst (Scanner.analyzeAccount pubkey info w)),
                      snd (Scanner.analyzeAccount pubkey info w))
                 | inl _ => (Returned (Scan.failedStatus pubkey), w)
                 end
               else (Returned (Scan.failedStatus pubkey), w)) = (Returned status, w1)
              /\ scanned conn w pubkey status /\ scan_frame [pubkey] w w1
              /\ World.now w1 = World.now w /\ World.slept w1 = World.slept w).
    { destruct (Rpc.validKey (World.rpc w) pubkey).
      - destruct (Connection.getAccountInfo conn pubkey) as [msg|info] eqn:Hinfo.
        + eexists _, _. split; [reflexivity|]. split; [apply failedStatus_scanned|].
          split; [apply scan_frame_refl | split; reflexivity].
        + destruct (analyzeAccount_scanned conn pubkey info w) as (Hs & Hf & Hn & Hsl).
          { intros i ->. left. exact Hinfo. }
          eexists _, _. split; [reflexivity|]. split; [exact Hs|]. split; [exact Hf|].
          split; assumption.
      - eexists _, _. split; [reflexivity|]. split; [apply failedStatus_scanned|].
        split; [apply scan_frame_refl | split; reflexivity]. }
    destruct Hone as (status & w1 & -> & Hs & Hframe1 & Hnow1 & Hslept1).
    destruct (IH (statuses ++ [status]) w1) as (new & w' & -> & Hnew & Hframe & Hnow & Hslept).
    exists (status :: new), w'. rewrite <- app_assoc. split; [reflexivity|].
    assert (Hsub1 : scan_frame (map SponsoredAccount.pubkey (account :: rest)) w w1).
    { eapply scan_frame_weaken; [|exact Hframe1].
      intros k [<-|[]]. left. reflexivity. }
    assert (Hsub2 : scan_frame (map SponsoredAccount.pubkey (account :: rest)) w1 w').
    { eapply scan_frame_weaken; [|exact Hframe]. intros k Hk. right. exact Hk. }
    split.
    + constructor; [exact Hs|].
      eapply Forall2_impl; [exact Hnew|]. intros a s. apply (scanned_frame _ _ _ _ _ _ Hsub1).
    + split; [eapply scan_frame_trans; eassumption|]. split; congruence.
Qed.

(** [scanBatch]: with well-formed keys, one status per account of the
    batch, by the bulk fetch or, when that fails, by single fetches; with
    a malformed key, an exception before anything was fetched. *)
Lemma scanBatch_run (conn : Connection.t) (accounts : list SponsoredAccount.t) (w : World.t) :
  if forallb (Rpc.validKey (World.rpc w)) (map SponsoredAccount.pubkey accounts) then
    exists statuses w',
      Scan.scanBatch conn accounts w = (Returned statuses, w')
      /\ Forall2 (fun a s => scanned conn w (SponsoredAccount.pubkey a) s) accounts statuses
      /\ scan_frame (map SponsoredAccount.pubkey accounts) w w'
      /\ World.now w' = World.now w /\ World.slept w' = World.slept w
      /\ match Connection.getMultipleAccountsInfo conn (map SponsoredAccount.pubkey accounts)
         with
         | inr accountInfos =>
             Scan.scanBatch conn accounts w = Scan.bulkLoop accounts accountInfos 0 [] w
         | inl _ => Scan.scanBatch conn accounts w = Scan.fallbackLoop conn accounts [] w
         end
  else exists key,
         firstRefused (World.rpc w) (map SponsoredAccount.pubkey accounts) = Some key
         /\ Scan.scanBatch conn accounts w = (Threw (Rpc.keyError (World.rpc w) key), w).
Proof.
  pose proof (firstRefused_forallb (World.rpc w) (map SponsoredAccount.pubkey accounts))
    as Hfirst.
  destruct (forallb (Rpc.validKey (World.rpc w)) (map SponsoredAccount.pubkey accounts)).
  2:{ destruct Hfirst as (key & Hkey & _). exists key. split; [exact Hkey|].
      unfold Scan.scanBatch. unfold bind at 1. rewrite newPublicKeys_run, Hkey.
      reflexivity. }
  assert (Heq : Scan.scanBatch conn accounts w
                = if true
                  then match Connection.getMultipleAccountsInfo conn
                               (map SponsoredAccount.pubkey accounts) with
                       | inr accountInfos => Scan.bulkLoop accounts accountInfos 0 [] w
                       | inl _ => Scan.fallbackLoop conn accounts [] w
                       end
                  else (Threw "", w)).
  { unfold Scan.scanBatch. unfold bind at 1. rewrite newPublicKeys_run, Hfirst.
    unfold try_catch, bind, Scan.getMultipleAccountsInfo.
    destruct (Connection.getMultipleAccountsInfo conn _) as [msg|accountInfos] eqn:Hbulk.
    - destruct (fallbackLoop_run conn accounts [] w) as (new & w' & -> & _). reflexivity.
    - destruct (bulkLoop_run conn accountInfos accounts 0 [] w) as (new & w' & -> & _);
        [|reflexivity].
      intros k a info Ha Hinfo. right.
      exists (map SponsoredAccount.pubkey accounts), accountInfos, k.
      split; [exact Hbulk|]. split; [|exact Hinfo].
      rewrite list_lookup_fmap, Ha. reflexivity. }
  rewrite Heq. clear Heq.
  destruct (Connection.getMultipleAccountsInfo conn _) as [msg|accountInfos] eqn:Hbulk.
  - destruct (fallbackLoop_run conn accounts [] w) as (new & w' & Hrun & H1 & H2 & H3 & H4).
    exists new, w'. simpl in Hrun.
    split; [exact Hrun|]. split; [exact H1|]. split; [exact H2|]. split; [exact H3|].
    split; [exact H4 | reflexivity].
  - destruct (bulkLoop_run conn accountInfos accounts 0 [] w)
      as (new & w' & Hrun & H1 & H2 & H3 & H4).
    { intros k a info Ha Hinfo. right.
      exists (map SponsoredAccount.pubkey accounts), accountInfos, k.
      split; [exact Hbulk|]. split; [|exact Hinfo].
      rewrite list_lookup_fmap, Ha. reflexivity. }
    exists new, w'. simpl in Hrun.
    split; [exact Hrun|]. split; [exact H1|]. split; [exact H2|]. split; [exact H3|].
    split; [exact H4 | reflexivity].
Qed.

Lemma fallbackLoop_node_down (conn : Connection.t) (accounts : list SponsoredAccount.t) :
  (forall a, In a accounts ->
     exists msg, Connection.getAccountInfo conn (SponsoredAccount.pubkey a) = inl msg) ->
  forall (statuses : list AccountStatus.t) (w : World.t),
  Scan.fallbackLoop conn accounts statuses w
  = (Returned (statuses ++ map (fun a => Scan.failedStatus (SponsoredAccount.pubkey a)) accounts),
     w).
Proof.
  induction accounts as [|account rest IH]; intros Hdown statuses w.
  - simpl. rewrite app_nil_r. reflexivity.
  - cbn [Scan.fallbackLoop]. unfold bind at 1. unfold try_catch at 1.
    rewrite scanSingleAccount_run.
    destruct (Hdown account (or_introl eq_refl)) as [msg Hmsg]. rewrite Hmsg.
    assert (Hone : (if Rpc.validKey (World.rpc w) (SponsoredAccount.pubkey account)
                    then (Returned (Scan.failedStatus (SponsoredAccount.pubkey account)), w)
                    else (Returned (Scan.failedStatus (SponsoredAccount.pubkey account)), w))
                   = (Returned (Scan.failedStatus (SponsoredAccount.pubkey account)), w))
      by (destruct (Rpc.validKey _ _); reflexivity).
    rewrite Hone. rewrite IH by (intros a Ha; apply Hdown; right; exact Ha).
    rewrite <- app_assoc. reflexivity.
Qed.

Lemma Forall2_scanned_keys (conn : Connection.t) (w : World.t)
    (accounts : list SponsoredAccount.t) (statuses : list AccountStatus.t) :
  Forall2 (fun a s => scanned conn w (SponsoredAccount.pubkey a) s) accounts statuses ->
  map AccountStatus.pubkey statuses = map SponsoredAccount.pubkey accounts.
Proof.
  induction 1 as [|a s accounts statuses (Hpk & _) _ IH]; [reflexivity|].
  simpl. rewrite Hpk, IH. reflexivity.
Qed.

Lemma Forall2_scanned_each (conn : Connection.t) (w : World.t)
    (accounts : list SponsoredAccount.t) (statuses : list AccountStatus.t) :
  Forall2 (fun a s => scanned conn w (SponsoredAccount.pubkey a) s) accounts statuses ->
  Forall (fun s => exists a, In a accounts /\ scanned conn w (SponsoredAccount.pubkey a) s)
         statuses.
Proof.
  induction 1 as [|a s accounts statuses Hs _ IH]; [constructor|].
  constructor.
  - exists a. split; [left; reflexivity | exact Hs].
  - eapply List.Forall_impl; [|exact IH].
    intros s' (a' & Hin & Hs'). exists a'. split; [right; exact Hin | exact Hs'].
Qed.

(** X18: [scanBatch] gives one status per account of the batch, in the
    order of the batch and for the same keys, whether the bulk fetch
    answers or the single fetches of the fallback are used; each status
    has [isReclaimable] equal to [operatorCanClose], and only rows of the
    batch can have changed, none added or removed. A malformed key in the
    batch makes the whole call throw, with the error of the first such
    key, before anything is fetched or written. When the node answers neither the bulk fetch nor any single
    fetch, every account comes back marked 'Failed to fetch account info'
    and nothing is written. *)
Theorem scanBatch_one_status_per_account (conn : Connection.t)
    (accounts : list SponsoredAccount.t) (w : World.t) :
  let keys := map SponsoredAccount.pubkey accounts in
  (forallb (Rpc.validKey (World.rpc w)) keys = true ->
   exists statuses w',
     Scan.scanBatch conn accounts w = (Returned statuses, w')
     /\ map AccountStatus.pubkey statuses = keys
     /\ Forall (fun s => AccountStatus.isReclaimable s = AccountStatus.operatorCanClose s)
               statuses
     /\ scan_frame keys w w'
     /\ World.now w' = World.now w)
  /\ (forallb (Rpc.validKey (World.rpc w)) keys = false ->
      exists key,
        firstRefused (World.rpc w) keys = Some key
        /\ In key keys /\ Rpc.validKey (World.rpc w) key = false
        /\ Scan.scanBatch conn accounts w = (Threw (Rpc.keyError (World.rpc w) key), w))
  /\ (forallb (Rpc.validKey (World.rpc w)) keys = true ->
      (exists msg, Connection.getMultipleAccountsInfo conn keys = inl msg) ->
      (forall a, In a accounts ->
         exists msg, Connection.getAccountInfo conn (SponsoredAccount.pubkey a) = inl msg) ->
      Scan.scanBatch conn accounts w
      = (Returned (map (fun a => Scan.failedStatus (SponsoredAccount.pubkey a)) accounts), w)).
Proof.
  intros keys. subst keys.
  pose proof (scanBatch_run conn accounts w) as Hrun.
  pose proof (firstRefused_forallb (World.rpc w) (map SponsoredAccount.pubkey accounts))
    as Hfirst.
  destruct (forallb _ _).
  - destruct Hrun as (statuses & w' & Hrun & Hall & Hframe & Hnow & _ & Hpath).
    split; [|split; [discriminate|]].
    + intros _. exists statuses, w'. split; [exact Hrun|].
      split; [apply (Forall2_scanned_keys conn w); exact Hall|].
      split; [|split; assumption].
      eapply List.Forall_impl; [|apply (Forall2_scanned_each conn w _ _ Hall)].
      intros s (a & _ & _ & Heq & _). exact Heq.
    + intros _ [msg Hbulk] Hdown. rewrite Hbulk in Hpath. rewrite Hpath.
      apply (fallbackLoop_node_down conn accounts Hdown [] w).
  - split; [discriminate|]. split; [|discriminate].
    intros _. destruct Hrun as (key & Hkey & Hrun).
    destruct Hfirst as (key' & Hkey' & Hin & Hbad).
    assert (key' = key) as -> by congruence.
    exists key. split; [exact Hkey|]. split; [exact Hin|]. split; [exact Hbad | exact Hrun].
Qed.

Lemma slice_batch {A} (l : list A) (j : nat) (batchSize : Z) :
  (j < length l)%nat -> 0 < batchSize ->
  Scan.slice (Z.of_nat j) (Z.min (Z.of_nat j + batchSize) (Z.of_nat (length l))) l
  = take (Z.to_nat batchSize) (drop j l).
Proof.
  intros Hj Hpos. unfold Scan.slice.
  replace (Z.of_nat j <? 0) with false by (symmetry; apply Z.ltb_ge; lia).
  replace (Z.min (Z.of_nat j + batchSize) (Z.of_nat (length l)) <? 0) with false
    by (symmetry; apply Z.ltb_ge; lia).
  replace (Z.to_nat (Z.min (Z.of_nat j) (Z.of_nat (length l)))) with j by lia.
  destruct (Z.le_gt_cases (Z.of_nat j + batchSize) (Z.of_nat (length l))) as [Hle|Hgt].
  - f_equal. lia.
  - rewrite !take_ge; [reflexivity | |]; rewrite length_drop; lia.
Qed.

Lemma classify_run (statuses : list AccountStatus.t) :
  forall result,
  Scan.classify statuses result
  = ScanResult.mk (ScanResult.total result)
      (ScanResult.reclaimable result ++ List.filter AccountStatus.isReclaimable statuses)
      (ScanResult.skipped result
       ++ List.filter (fun s => negb (AccountStatus.isReclaimable s)) statuses)
      (ScanResult.errors result).
Proof.
  unfold Scan.classify.
  induction statuses as [|s statuses IH]; intros result.
  - simpl. rewrite !app_nil_r. destruct result; reflexivity.
  - cbn [fold_left List.filter]. rewrite IH. unfold Scan.push_status.
    destruct (AccountStatus.isReclaimable s); simpl; rewrite <- app_assoc; reflexivity.
Qed.

(** The loop of [scanAccounts] from offset [j] on, for a positive batch
    size: [R], [S] and [E] are what it adds to the three lists and [nb] is
    the number of batches. *)
Lemma scanLoop_run (self : Scan.Self) (conn : Connection.t)
    (accounts : list SponsoredAccount.t) :
  0 < Scan.batchSize self ->
  forall (fuel j : nat) (result : ScanResult.t) (w : World.t),
  (length accounts - j <= fuel)%nat ->
  exists w' R S E nb,
    Scan.scanLoop fuel self conn accounts (Z.of_nat j) result w
    = (Returned (Some (ScanResult.mk (ScanResult.total result)
                         (ScanResult.reclaimable result ++ R)
                         (ScanResult.skipped result ++ S)
                         (ScanResult.errors result ++ E))), w')
    /\ Forall (fun s => AccountStatus.isReclaimable s = true
                        /\ exists a, In a (drop j accounts)
                                     /\ scanned conn w (SponsoredAccount.pubkey a) s) R
    /\ Forall (fun s => AccountStatus.isReclaimable s = false
                        /\ exists a, In a (drop j accounts)
                                     /\ scanned conn w (SponsoredAccount.pubkey a) s) S
    /\ scan_frame (map SponsoredAccount.pubkey (drop j accounts)) w w'
    /\ World.slept w' = World.slept w ++ repeat (Z.max 0 (Scan.rateLimitDelay self)) nb
    /\ (nb * Z.to_nat (Scan.batchSize self)
        < length accounts - j + Z.to_nat (Scan.batchSize self))%nat
    /\ (length accounts - j <= nb * Z.to_nat (Scan.batchSize self))%nat
    /\ (length E <= nb)%nat
    /\ (length R + length S <= length accounts - j)%nat
    /\ (forallb (Rpc.validKey (World.rpc w)) (map SponsoredAccount.pubkey (drop j accounts))
        = true ->
        E = []
        /\ Permutation (map AccountStatus.pubkey (R ++ S))
             (map SponsoredAccount.pubkey (drop j accounts))).
Proof.
  intros Hpos. set (bs := Z.to_nat (Scan.batchSize self)).
  assert (Hbs : (0 < bs)%nat) by (subst bs; lia).
  induction fuel as [|fuel IH]; intros j result w Hfuel.
  - assert (Hj : (length accounts <= j)%nat) by lia.
    exists w, [], [], [], 0%nat. cbn [Scan.scanLoop].
    replace (Z.of_nat j <? Z.of_nat (length accounts)) with false
      by (symmetry; apply Z.ltb_ge; lia).
    rewrite !app_nil_r. split; [destruct result; reflexivity|].
    split; [constructor|]. split; [constructor|].
    split; [apply scan_frame_refl|]. simpl. rewrite ?app_nil_r.
    split; [reflexivity|]. split; [lia|]. split; [lia|]. split; [lia|].
    split; [simpl; lia|].
    intros _. split; [reflexivity|]. rewrite drop_ge by lia. constructor.
  - cbn [Scan.scanLoop].
    destruct (Z.of_nat j <? Z.of_nat (length accounts)) eqn:Hlt.
    2:{ apply Z.ltb_ge in Hlt. assert (Hj : (length accounts <= j)%nat) by lia.
        exists w, [], [], [], 0%nat. rewrite !app_nil_r.
        split; [destruct result; reflexivity|].
        split; [constructor|]. split; [constructor|].
        split; [apply scan_frame_refl|]. simpl. rewrite ?app_nil_r.
        split; [reflexivity|]. split; [lia|]. split; [lia|]. split; [lia|].
        split; [simpl; lia|].
        intros _. split; [reflexivity|]. rewrite drop_ge by lia. constructor. }
    apply Z.ltb_lt in Hlt. assert (Hj : (j < length accounts)%nat) by lia.
    rewrite (slice_batch accounts j (Scan.batchSize self) Hj Hpos). fold bs.
    set (batch := take bs (drop j accounts)).
    assert (Hsplit : drop j accounts = batch ++ drop (j + bs) accounts).
    { subst batch. rewrite <- (drop_drop accounts bs j). symmetry. apply take_drop. }
    assert (Hbatch_in : forall a, In a batch -> In a (drop j accounts)).
    { intros a Ha. rewrite Hsplit. apply in_or_app. left. exact Ha. }
    assert (Hrest_in : forall a, In a (drop (j + bs) accounts) -> In a (drop j accounts)).
    { intros a Ha. rewrite Hsplit. apply in_or_app. right. exact Ha. }
    assert (Hkeys_b : forall k, In k (map SponsoredAccount.pubkey batch) ->
                                In k (map SponsoredAccount.pubkey (drop j accounts))).
    { intros k Hk. apply in_map_iff in Hk. destruct Hk as (a & <- & Ha).
      apply in_map. apply Hbatch_in. exact Ha. }
    assert (Hkeys_r : forall k, In k (map SponsoredAccount.pubkey (drop (j + bs) accounts)) ->
                                In k (map SponsoredAccount.pubkey (drop j accounts))).
    { intros k Hk. apply in_map_iff in Hk. destruct Hk as (a & <- & Ha).
      apply in_map. apply Hrest_in. exact Ha. }
    replace (Z.of_nat j + Scan.batchSize self) with (Z.of_nat (j + bs)) by (subst bs; lia).
    unfold bind at 1. unfold try_catch at 1. unfold bind at 1.
    pose proof (scanBatch_run conn batch w) as Hscan.
    destruct (forallb (Rpc.validKey (World.rpc w)) (map SponsoredAccount.pubkey batch))
      eqn:Hvalid.
    + destruct Hscan as (statuses & w1 & -> & Hall & Hframe1 & Hnow1 & Hslept1 & _).
      unfold ret at 1. unfold bind at 1. unfold Scan.delay, Reclaim.delay, modify.
      rewrite classify_run.
      match goal with |- context [Scan.scanLoop fuel self conn accounts _ ?r ?w2] =>
        destruct (IH (j + bs)%nat r w2) as (w' & R & S & E & nb & -> & HR & HS & Hframe
                                            & Hslept & Hnb1 & Hnb2 & HE & Hlen & Hperm);
          [lia|];
        assert (Hframe2 : scan_frame (map SponsoredAccount.pubkey (drop j accounts)) w w2)
      end.
      { eapply scan_frame_trans.
        - eapply scan_frame_weaken; [exact Hkeys_b | exact Hframe1].
        - apply scan_frame_time. simpl. lia. }
      simpl in Hslept, Hperm.
      exists w',
        (List.filter AccountStatus.isReclaimable statuses ++ R),
        (List.filter (fun s => negb (AccountStatus.isReclaimable s)) statuses ++ S),
        E, (Datatypes.S nb).
      simpl. rewrite <- !app_assoc.
      split; [reflexivity|].
      pose proof (Forall2_scanned_each conn w _ _ Hall) as Heach.
      split.
      { apply Forall_app. split.
        - apply List.Forall_forall. intros s Hs. apply filter_In in Hs.
          destruct Hs as [Hs Hr]. split; [exact Hr|].
          rewrite List.Forall_forall in Heach. destruct (Heach s Hs) as (a & Ha & Hsc).
          exists a. split; [apply Hbatch_in; exact Ha | exact Hsc].
        - eapply List.Forall_impl; [|exact HR].
          intros s (Hr & a & Ha & Hsc). split; [exact Hr|]. exists a.
          split; [apply Hrest_in; exact Ha|].
          apply (scanned_frame _ _ _ _ _ _ Hframe2 Hsc). }
      split.
      { apply Forall_app. split.
        - apply List.Forall_forall. intros s Hs. apply filter_In in Hs.
          destruct Hs as [Hs Hr]. apply negb_true_iff in Hr. split; [exact Hr|].
          rewrite List.Forall_forall in Heach. destruct (Heach s Hs) as (a & Ha & Hsc).
          exists a. split; [apply Hbatch_in; exact Ha | exact Hsc].
        - eapply List.Forall_impl; [|exact HS].
          intros s (Hr & a & Ha & Hsc). split; [exact Hr|]. exists a.
          split; [apply Hrest_in; exact Ha|].
          apply (scanned_frame _ _ _ _ _ _ Hframe2 Hsc). }
      split.
      { eapply scan_frame_trans; [exact Hframe2|].
        eapply scan_frame_weaken; [exact Hkeys_r | exact Hframe]. }
      split; [rewrite Hslept, Hslept1, <- app_assoc; reflexivity|].
      assert (Hcase : (j + bs <= length accounts)%nat \/ nb = 0%nat) by nia.
      split; [destruct Hcase as [Hcase | ->]; lia|]. split; [lia|]. split; [lia|].
      split.
      { pose proof (Permutation_length
                      (filter_partition_perm AccountStatus.isReclaimable statuses)) as Hf.
        pose proof (Forall2_length _ _ _ Hall) as Hl.
        assert (Hb : (length batch <= bs)%nat) by (subst batch; rewrite length_take; lia).
        assert (Hd : length (drop j accounts)
                     = (length batch + length (drop (j + bs) accounts))%nat)
          by (rewrite Hsplit at 1; apply length_app).
        rewrite !length_drop in Hd.
        rewrite !length_app in *. lia. }
      intros Hallvalid. rewrite Hsplit, map_app, forallb_app in Hallvalid.
      apply andb_true_iff in Hallvalid. destruct Hallvalid as [_ Hvalid_rest].
      destruct Hframe1 as (_ & _ & Hrpc1 & _).
      rewrite Hrpc1 in Hperm. destruct (Hperm Hvalid_rest) as [-> Hperm'].
      split; [reflexivity|].
      rewrite Hsplit, !map_app.
      rewrite <- (Forall2_scanned_keys conn w _ _ Hall).
      rewrite map_app in Hperm'.
      transitivity ((map AccountStatus.pubkey (List.filter AccountStatus.isReclaimable statuses)
                     ++ map AccountStatus.pubkey
                          (List.filter (fun s => negb (AccountStatus.isReclaimable s))
                             statuses))
                    ++ (map AccountStatus.pubkey R ++ map AccountStatus.pubkey S)).
      { rewrite <- !app_assoc. apply Permutation_app_head.
        rewrite !app_assoc. apply Permutation_app_tail. apply Permutation_app_comm. }
      apply Permutation_app; [|exact Hperm'].
      rewrite <- map_app. apply Permutation_map. apply filter_partition_perm.
    + destruct Hscan as (refused & _ & Hscan).
      rewrite Hscan. unfold ret at 1. unfold bind at 1. unfold Scan.delay, Reclaim.delay, modify.
      match goal with |- context [Scan.scanLoop fuel self conn accounts _ ?r ?w2] =>
        destruct (IH (j + bs)%nat r w2) as (w' & R & S & E & nb & -> & HR & HS & Hframe
                                            & Hslept & Hnb1 & Hnb2 & HE & Hlen & Hperm);
          [lia|];
        assert (Hframe2 : scan_frame (map SponsoredAccount.pubkey (drop j accounts)) w w2)
          by (apply scan_frame_time; simpl; lia)
      end.
      simpl in Hslept.
      exists w', R, S,
        (String.append "Batch error: " (Rpc.keyError (World.rpc w) refused) :: E),
        (Datatypes.S nb).
      simpl. rewrite <- !app_assoc.
      split; [reflexivity|].
      split.
      { eapply List.Forall_impl; [|exact HR].
        intros s (Hr & a & Ha & Hsc). split; [exact Hr|]. exists a.
        split; [apply Hrest_in; exact Ha|].
        apply (scanned_frame _ _ _ _ _ _ Hframe2 Hsc). }
      split.
      { eapply List.Forall_impl; [|exact HS].
        intros s (Hr & a & Ha & Hsc). split; [exact Hr|]. exists a.
        split; [apply Hrest_in; exact Ha|].
        apply (scanned_frame _ _ _ _ _ _ Hframe2 Hsc). }
      split.
      { eapply scan_frame_trans; [exact Hframe2|].
        eapply scan_frame_weaken; [exact Hkeys_r | exact Hframe]. }
      split; [rewrite Hslept, <- app_assoc; reflexivity|].
      assert (Hcase : (j + bs <= length accounts)%nat \/ nb = 0%nat) by nia.
      split; [destruct Hcase as [Hcase | ->]; lia|]. split; [lia|]. split; [lia|].
      split; [lia|].
      intros Hallvalid. rewrite Hsplit, map_app, forallb_app in Hallvalid.
      apply andb_true_iff in Hallvalid. destruct Hallvalid as [Hb _]. congruence.
Qed.

(** With a batch size that is not positive the loop condition never
    fails: whatever the fuel, it is used up. *)
Lemma scanLoop_never_ends (self : Scan.Self) (conn : Connection.t)
    (accounts : list SponsoredAccount.t) :
  Scan.batchSize self <= 0 ->
  forall (fuel : nat) (i : Z) (result : ScanResult.t) (w : World.t),
  i < Z.of_nat (length accounts) ->
  exists w', Scan.scanLoop fuel self conn accounts i result w = (Returned None, w').
Proof.
  intros Hbs. induction fuel as [|fuel IH]; intros i result w Hi.
  - exists w. cbn [Scan.scanLoop]. rewrite (proj2 (Z.ltb_lt _ _) Hi). reflexivity.
  - cbn [Scan.scanLoop]. rewrite (proj2 (Z.ltb_lt _ _) Hi).
    unfold bind at 1. unfold try_catch at 1. unfold bind at 1.
    destruct (Scan.scanBatch conn _ w) as [[statuses|msg] w1];
      unfold ret at 1; unfold bind at 1; unfold Scan.delay, Reclaim.delay, modify;
      apply IH; lia.
Qed.

(** X19: when [scanAccounts] returns. With a positive batch size the scan
    returns a result, never throws, reports as [total] the number of
    active rows, puts at most that many statuses in its two lists, and
    pauses once per batch, the number of batches being the number of
    active rows divided by the batch size, rounded up; fuel equal to the
    number of active rows is enough. With a batch size of zero or less and
    at least one active row, the loop never ends: whatever the fuel, it is
    used up before the scan returns. *)
Theorem scanAccounts_returns_iff_batch_size_positive (self : Scan.Self)
    (conn : Connection.t) (w : World.t) :
  let n := length (DatabaseManager.getActiveAccounts (World.db w)) in
  let bs := Z.to_nat (Scan.batchSize self) in
  (0 < Scan.batchSize self ->
   forall fuel, (n <= fuel)%nat ->
   exists res w' nb,
     Scan.scanAccounts fuel self conn w = (Returned (Some res), w')
     /\ ScanResult.total res = n
     /\ (length (ScanResult.reclaimable res) + length (ScanResult.skipped res) <= n)%nat
     /\ (length (ScanResult.errors res) <= nb)%nat
     /\ World.slept w' = World.slept w ++ repeat (Z.max 0 (Scan.rateLimitDelay self)) nb
     /\ (n <= nb * bs)%nat /\ (nb * bs < n + bs)%nat)
  /\ (Scan.batchSize self <= 0 -> n <> 0%nat ->
      forall fuel, exists w', Scan.scanAccounts fuel self conn w = (Returned None, w')).
Proof.
  intros n bs. split.
  - intros Hpos fuel Hfuel. unfold Scan.scanAccounts. unfold bind at 1. unfold gets at 1.
    fold n.
    destruct (scanLoop_run self conn (DatabaseManager.getActiveAccounts (World.db w)) Hpos
                fuel 0 (ScanResult.mk n [] [] []) w)
      as (w' & R & S & E & nb & Hrun & _ & _ & _ & Hslept & Hnb1 & Hnb2 & HE & Hlen & _).
    { fold n. lia. }
    change (Z.of_nat 0) with 0 in Hrun. rewrite Hrun. fold n bs in Hnb1, Hnb2, Hlen.
    eexists _, w', nb. split; [reflexivity|]. simpl.
    split; [reflexivity|]. split; [lia|]. split; [exact HE|]. split; [exact Hslept|].
    split; lia.
  - intros Hbs Hn fuel. unfold Scan.scanAccounts. unfold bind at 1. unfold gets at 1.
    apply scanLoop_never_ends; [exact Hbs|]. fold n. lia.
Qed.

(** X20: what a scan reports. With a positive batch size and enough
    fuel, every status in the [reclaimable] list of [scanAccounts] is that
    of an active tracked key and has [isReclaimable] and
    [operatorCanClose] true: the account exists, is a non-executable
    token account, is not whitelisted, and its close authority is the
    operator's key, as decoded from the data the node reported for that
    key during the scan; every status in the [skipped] list is that of an
    active tracked key, is not reclaimable and names a skip reason. When
    all active keys are well formed there is no error and the two lists
    together hold exactly one status per active row. The scan changes only
    rows of active keys: the configuration, the safety manager, the node,
    the transactions, the log, the history and the whitelist are as
    before, no row is added or removed, and an idle clock found in a row
    after the scan was there before it or was set during it. *)
Theorem scanAccounts_reports (self : Scan.Self) (conn : Connection.t) (w : World.t)
    (fuel : nat) :
  0 < Scan.batchSize self ->
  (length (DatabaseManager.getActiveAccounts (World.db w)) <= fuel)%nat ->
  let activeKeys :=
    map SponsoredAccount.pubkey (DatabaseManager.getActiveAccounts (World.db w)) in
  exists res w',
    Scan.scanAccounts fuel self conn w = (Returned (Some res), w')
    /\ Forall (fun s => In (AccountStatus.pubkey s) activeKeys
                        /\ AccountStatus.isReclaimable s = true
                        /\ AccountStatus.operatorCanClose s = true
                        /\ AccountStatus.exists_ s = true
                        /\ AccountStatus.executable s = false
                        /\ AccountStatus.isTokenAccount s = true
                        /\ AccountStatus.closeAuthority s
                           = ConfigManager.operatorPublicKey (World.cfg w)
                        /\ Safety.isWhitelisted w (AccountStatus.pubkey s) = false
                        /\ exists i decoded,
                             reported conn (AccountStatus.pubkey s) i
                             /\ AccountInfo.owner i = TOKEN_PROGRAM_ID
                             /\ AccountInfo.decoded i = Some decoded
                             /\ ConfigManager.operatorPublicKey (World.cfg w)
                                = Some (Scanner.decodedCloseAuthority decoded)
                             /\ AccountStatus.lamports s = AccountInfo.lamports i)
              (ScanResult.reclaimable res)
    /\ Forall (fun s => In (AccountStatus.pubkey s) activeKeys
                        /\ AccountStatus.isReclaimable s = false
                        /\ AccountStatus.operatorCanClose s = false
                        /\ is_Some (AccountStatus.skipReason s))
              (ScanResult.skipped res)
    /\ (forallb (Rpc.validKey (World.rpc w)) activeKeys = true ->
        ScanResult.errors res = []
        /\ Permutation
             (map AccountStatus.pubkey (ScanResult.reclaimable res ++ ScanResult.skipped res))
             activeKeys)
    /\ scan_frame activeKeys w w'.
Proof.
  intros Hpos Hfuel activeKeys.
  unfold Scan.scanAccounts. unfold bind at 1. unfold gets at 1.
  set (accounts := DatabaseManager.getActiveAccounts (World.db w)) in *.
  destruct (scanLoop_run self conn accounts Hpos fuel 0
              (ScanResult.mk (length accounts) [] [] []) w)
    as (w' & R & S & E & nb & Hrun & HR & HS & Hframe & _ & _ & _ & _ & _ & Hperm).
  { lia. }
  change (Z.of_nat 0) with 0 in Hrun. rewrite Hrun. clear Hrun.
  rewrite drop_0 in HR, HS, Hframe, Hperm.
  eexists _, w'. split; [reflexivity|]. simpl.
  split; [|split; [|split; [exact Hperm | exact Hframe]]].
  - eapply List.Forall_impl; [|exact HR].
    intros s (Hr & a & Ha & Hpk & Heq & Hyes & _ & Hchain).
    destruct (Hyes Hr) as (H1 & H2 & H3 & H4 & H5 & H6).
    split; [rewrite Hpk; apply in_map; exact Ha|].
    split; [exact Hr|]. split; [congruence|]. split; [exact H1|]. split; [exact H2|].
    split; [exact H3|]. split; [exact H5|]. split; [rewrite Hpk; exact H6|].
    rewrite Hpk. apply Hchain. exact Hr.
  - eapply List.Forall_impl; [|exact HS].
    intros s (Hr & a & Ha & Hpk & Heq & _ & Hno & _).
    split; [rewrite Hpk; apply in_map; exact Ha|].
    split; [exact Hr|]. split; [congruence|]. apply Hno. exact Hr.
Qed.

(** ** Import of keys *)



(** The loop over the entries of the file: with a [null] among them it
    throws, and otherwise it returns one fresh row for each object that
    has a non-empty, well-formed key. The world is the same either way. *)
Lemma importLoop_run (nowIso : string) (data : list JsonEntry) :
  forall (accounts : list SponsoredAccount.t) (w : World.t),
  if nullFree data then
    exists rows,
      Kora.importLoop data nowIso accounts w = (Returned (accounts ++ rows), w)
      /\ (length rows <= length data)%nat
      /\ Forall fresh_row rows
      /\ (forall pk, In pk (map SponsoredAccount.pubkey rows)
                     <-> exists item, In (EntryObject item) data
                                      /\ ImportedAccount.pubkey item = Some pk
                                      /\ pk <> ""
                                      /\ Rpc.validKey (World.rpc w) pk = true)
  else Kora.importLoop data nowIso accounts w = (Threw Kora.NULL_ENTRY, w).
Proof.
  induction data as [|entry rest IH]; intros accounts w.
  - exists []. simpl. rewrite app_nil_r. split; [reflexivity|]. split; [lia|].
    split; [constructor|]. intros pk. split; [intros [] | intros (item & [] & _)].
  - cbn [Kora.importLoop nullFree forallb].
    destruct entry as [| |item]; cbn [andb]; [reflexivity| |].
    { specialize (IH accounts w). fold (nullFree rest).
      destruct (nullFree rest); [|exact IH].
      destruct IH as (rows & -> & Hlen & Hfresh & Hkeys).
      exists rows. split; [reflexivity|]. split; [simpl; lia|]. split; [exact Hfresh|].
      intros pk. rewrite Hkeys. split.
      - intros (it & Hin & Hrest). exists it. split; [right; exact Hin | exact Hrest].
      - intros (it & [Hhere|Hin] & Hrest); [discriminate|]. exists it. tauto. }
    fold (nullFree rest).
    destruct (ImportedAccount.pubkey item) as [pk0|] eqn:Hpk0; cbn [Reclaim.orNull].
    2:{ specialize (IH accounts w). destruct (nullFree rest); [|exact IH].
        destruct IH as (rows & -> & Hlen & Hfresh & Hkeys).
        exists rows. split; [reflexivity|]. split; [simpl; lia|]. split; [exact Hfresh|].
        intros pk. rewrite Hkeys. split.
        - intros (it & Hin & Hrest). exists it. split; [right; exact Hin | exact Hrest].
        - intros (it & [[= <-]|Hin] & Hit & Hrest); [congruence|]. exists it. tauto. }
    destruct (decide (pk0 = "")) as [Hempty|Hset].
    { rewrite bool_decide_true by exact Hempty.
      specialize (IH accounts w). destruct (nullFree rest); [|exact IH].
      destruct IH as (rows & -> & Hlen & Hfresh & Hkeys).
      exists rows. split; [reflexivity|]. split; [simpl; lia|]. split; [exact Hfresh|].
      intros pk. rewrite Hkeys. split.
      - intros (it & Hin & Hrest). exists it. split; [right; exact Hin | exact Hrest].
      - intros (it & [[= <-]|Hin] & Hit & Hne & Hrest); [congruence|]. exists it. tauto. }
    rewrite bool_decide_false by exact Hset.
    unfold bind, try_catch, Reclaim.newPublicKey, ret.
    destruct (Rpc.validKey (World.rpc w) pk0) eqn:Hvalid.
    + match goal with |- context [Kora.importLoop rest nowIso (accounts ++ [?row]) w] =>
        specialize (IH (accounts ++ [row]) w); destruct (nullFree rest); [|exact IH];
        destruct IH as (rows & -> & Hlen & Hfresh & Hkeys);
          exists (row :: rows)
      end.
      rewrite <- app_assoc. split; [reflexivity|]. split; [simpl; lia|].
      split; [constructor; [repeat split | exact Hfresh]|].
      intros pk. cbn [map In]. rewrite Hkeys. cbn [Kora.newRow SponsoredAccount.pubkey].
      split.
      * intros [<-|(it & Hin & Hrest)].
        -- exists item. split; [left; reflexivity|]. repeat split; assumption.
        -- exists it. split; [right; exact Hin | exact Hrest].
      * intros (it & [[= <-]|Hin] & Hit & Hne & Hok).
        -- left. congruence.
        -- right. exists it. tauto.
    + specialize (IH accounts w). destruct (nullFree rest); [|exact IH].
      destruct IH as (rows & -> & Hlen & Hfresh & Hkeys).
      exists rows. split; [reflexivity|]. split; [simpl; lia|]. split; [exact Hfresh|].
      intros pk. rewrite Hkeys. split.
      * intros (it & Hin & Hrest). exists it. split; [right; exact Hin | exact Hrest].
      * intros (it & [[= <-]|Hin] & Hit & Hne & Hok); [congruence|]. exists it. tauto.
Qed.



(** ** The scheduled run *)

(** The scheduled run, step by step: the scan of the active rows returns,
    and the run ends either in the world the scan left or in the world
    the engine left after it was given the accounts the gate allowed. *)
Lemma scheduledRun_run (fuel : nat) (self : Scan.Self) (conn : Connection.t) (w : World.t) :
  0 < Scan.batchSize self ->
  (length (DatabaseManager.getActiveAccounts (World.db w)) <= fuel)%nat ->
  exists reclaimable w1,
    let safe :=
      List.filter (fun a => SafetyCheckResult.allowed (Safety.checkAccount w1 a)) reclaimable in
    Forall (fun s => AccountStatus.isReclaimable s = true
                     /\ exists a, In a (DatabaseManager.getActiveAccounts (World.db w))
                                  /\ scanned conn w (SponsoredAccount.pubkey a) s) reclaimable
    /\ scan_frame (map SponsoredAccount.pubkey (DatabaseManager.getActiveAccounts (World.db w)))
         (Reclaim.with_safety Safety.resetRunState w) w1
    /\ fst (Cli.scheduledRun fuel self conn w) = Returned (Some tt)
    /\ (snd (Cli.scheduledRun fuel self conn w) = w1
        \/ snd (Cli.scheduledRun fuel self conn w) = snd (Reclaim.reclaimAccounts safe w1)).
Proof.
  intros Hpos Hfuel.
  set (w0 := Reclaim.with_safety Safety.resetRunState w).
  set (accounts := DatabaseManager.getActiveAccounts (World.db w)) in *.
  destruct (scanLoop_run self conn accounts Hpos fuel 0
              (ScanResult.mk (length accounts) [] [] []) w0)
    as (w1 & R & S & E & nb & Hrun & HR & _ & Hframe & _).
  { lia. }
  change (Z.of_nat 0) with 0 in Hrun. rewrite drop_0 in HR, Hframe. simpl in Hrun.
  exists R, w1. cbv zeta.
  split.
  { eapply List.Forall_impl; [|exact HR]. intros s (Hr & a & Ha & Hs).
    split; [exact Hr|]. exists a. split; [exact Ha|].
    destruct Hs as (H1 & H2 & H3 & H4 & H5).
    unfold scanned. split; [exact H1|]. split; [exact H2|]. split; [exact H3|].
    split; [exact H4 | exact H5]. }
  split; [exact Hframe|].
  assert (Heq : Cli.scheduledRun fuel self conn w
                = match Reclaim.reclaimAccounts
                          (List.filter
                             (fun a => SafetyCheckResult.allowed (Safety.checkAccount w1 a)) R)
                          w1 with
                  | (_, w2) =>
                      if (0 <? length (List.filter
                             (fun a => SafetyCheckResult.allowed (Safety.checkAccount w1 a)) R))%nat
                      then (Returned (Some tt), w2) else (Returned (Some tt), w1)
                  end).
  { unfold Cli.scheduledRun. unfold bind at 1. unfold modify at 1.
    unfold try_catch. unfold bind at 1.
    unfold Scan.scanAccounts. unfold bind at 1. unfold gets at 1.
    change (World.db (Reclaim.with_safety Safety.resetRunState w)) with (World.db w).
    fold accounts. fold w0. rewrite Hrun.
    unfold bind at 1. unfold gets at 1. rewrite filterSafeAccounts_safe. simpl.
    destruct (0 <? length _)%nat.
    - unfold bind, ret.
      destruct (Reclaim.reclaimAccounts _ w1) as [[r|e] w2]; reflexivity.
    - destruct (Reclaim.reclaimAccounts _ w1) as [o w2]. reflexivity. }
  rewrite Heq.
  destruct (Reclaim.reclaimAccounts _ w1) as [o w2]. simpl.
  destruct (0 <? length _)%nat; simpl; split; auto.
Qed.

(** X22: what a scheduled run (the callback of the [cron] command) can
    send to the chain. For a positive batch size, fuel for the loop of
    the scan and a store that keeps every row under its own key, the run
    always ends normally, and in
    dry-run mode it submits nothing. Every instruction of every
    transaction it submits is a token-program close, towards the
    configured treasury and signed by the operator, of an account that
    was an active tracked row when the run began, is not whitelisted, was
    reported by the node during this run's scan as owned by the token
    program with data whose close authority decodes to the operator's
    key, and was reported with a zero token balance when the instruction
    was built. Its idle clock was in its row before the run or was set
    during it, and the instant the host reads from it (the stamp taken as
    local time) is at least [minIdleDays] days before the end of the run;
    on a host in UTC that instant is the stamp itself. A system-program
    transfer is never submitted. *)
Theorem scheduledRun_closes_only_reported_idle_accounts (fuel : nat) (self : Scan.Self)
    (conn : Connection.t) (w : World.t) :
  0 < Scan.batchSize self ->
  (length (DatabaseManager.getActiveAccounts (World.db w)) <= fuel)%nat ->
  keyed_by_pubkey (World.db w) ->
  let run := Cli.scheduledRun fuel self conn w in
  let w' := snd run in
  let minIdle :=
    SafetyConfig.minIdleDays (SafetyManager.config (World.safety w)) * MS_PER_DAY in
  fst run = Returned (Some tt)
  /\ World.submitted w' = World.submitted w ++ submitted_since w w'
  /\ (Config.dryRun (World.cfg w) = true -> submitted_since w w' = [])
  /\ forall tx ix, In tx (submitted_since w w') -> In ix tx ->
       exists pubkey operator row info decoded since,
         ix = CloseAccount pubkey (Config.treasuryAddress (World.cfg w)) operator
         /\ Config.operatorKeypair (World.cfg w) = inr operator
         /\ DatabaseManager.getAccount pubkey (World.db w) = Some row
         /\ SponsoredAccount.status row = active
         /\ Safety.isWhitelisted w pubkey = false
         /\ reported conn pubkey info
         /\ AccountInfo.owner info = TOKEN_PROGRAM_ID
         /\ AccountInfo.decoded info = Some decoded
         /\ Scanner.decodedCloseAuthority decoded = operator
         /\ (exists n amount,
               Rpc.getAccount (World.rpc w) n pubkey = TokenAmount amount /\ amount <= 0)
         /\ (SponsoredAccount.reclaimableSince row = Some since
             \/ DatabaseManager.datetime (World.now w) <= since <= World.now w')
         /\ parseDate (World.rpc w) since + minIdle <= World.now w'
         /\ (Rpc.localOffset (World.rpc w) since = 0 -> since + minIdle <= World.now w').
Proof.
  intros Hpos Hfuel Hkeyed run w' minIdle. subst run w' minIdle.
  destruct (scheduledRun_run fuel self conn w Hpos Hfuel)
    as (reclaimable & w1 & HR & Hframe & Hfst & Hsnd).
  cbv zeta in Hsnd.
  pose proof Hframe as (Hcfg & Hsafety & Hrpc & Hsub & _ & _ & _ & Hsome & _ & Hnow & Hclock & _).
  simpl in Hcfg, Hsafety, Hrpc, Hsub, Hsome, Hnow, Hclock.
  split; [exact Hfst|].
  destruct Hsnd as [-> | ->].
  { unfold submitted_since. rewrite Hsub, drop_all, app_nil_r.
    split; [reflexivity|]. split; [reflexivity|]. intros tx ix []. }
  set (safe := List.filter _ reclaimable).
  destruct (reclaimAccounts_submitted safe w1) as (txs & Htxs & Hdry & _ & _ & Hlater & Hall).
  cbv zeta in Htxs, Hall, Hlater.
  assert (Hsince : submitted_since w (snd (Reclaim.reclaimAccounts safe w1)) = txs).
  { unfold submitted_since. rewrite Htxs, Hsub. rewrite drop_app_length. reflexivity. }
  rewrite Hsince.
  split; [rewrite Htxs, Hsub; reflexivity|].
  split; [intros Hd; apply Hdry; rewrite Hcfg; exact Hd|].
  intros tx ix Htx Hix.
  rewrite List.Forall_forall in Hall. destruct (Hall tx Htx) as (_ & _ & Hsent).
  rewrite List.Forall_forall in Hsent. specialize (Hsent ix Hix).
  apply sent_for_approved in Hsent.
  destruct Hsent as ((a' & operator & _ & Hkey & Hfor' & _ & _ & _ & _ & _ & Hbalance)
                     & a & operator0 & Hin & Hfor & Hidle).
  subst safe. apply filter_In in Hin. destruct Hin as [Hin _].
  rewrite List.Forall_forall in HR. destruct (HR a Hin) as (Hr & row & Hrow & Hscanned).
  destruct Hscanned as (Hpk & _ & Hyes & _ & Hchain).
  destruct (Hyes Hr) as (_ & _ & Htoken & _ & _ & Hwl).
  destruct (Hchain Hr) as (info & decoded & Hrep & Howner & Hdec & Hop & _).
  apply In_getActiveAccounts in Hrow. destruct Hrow as [[k Hk] Hactive].
  pose proof (Hkeyed k row Hk) as Hkk. subst k.
  destruct Hfor as [[_ ->] | [Hno _]]; [|congruence].
  destruct Hfor' as [[Htoken' Hix'] | (_ & _ & Hix')]; [|discriminate].
  injection Hix' as Hpk' Hoperator. subst operator0.
  rewrite Hcfg in Hkey.
  unfold idle_long_enough in Hidle. rewrite Hpk in Hidle.
  destruct (DatabaseManager.getAccount (SponsoredAccount.pubkey row) (World.db w1))
    as [row1|] eqn:Hrow1.
  2:{ exfalso. pose proof (proj2 (Hsome (SponsoredAccount.pubkey row))) as Hex.
      rewrite Hk, Hrow1 in Hex. destruct Hex as [x Hx]; [eauto | discriminate]. }
  destruct Hidle as (since & Hsince1 & Hlong).
  exists (SponsoredAccount.pubkey row), operator, row, info, decoded, since.
  rewrite Hcfg, Hpk.
  split; [reflexivity|]. split; [exact Hkey|]. split; [exact Hk|]. split; [exact Hactive|].
  split; [exact Hwl|]. split; [exact Hrep|]. split; [exact Howner|]. split; [exact Hdec|].
  split.
  { unfold ConfigManager.operatorPublicKey in Hop. rewrite Hkey in Hop. congruence. }
  split.
  { destruct (Hbalance Htoken') as (n & amount & Hamount & Hle).
    exists n, amount. rewrite <- Hrpc, <- Hpk, Hpk'. split; [exact Hamount | exact Hle]. }
  rewrite Hsafety, Hrpc in Hlong.
  change (SafetyManager.config (Safety.resetRunState (World.safety w)))
    with (SafetyManager.config (World.safety w)) in Hlong.
  split; [|split; [exact Hlong | unfold parseDate in Hlong; intros Hutc; lia]].
  destruct (Hclock (SponsoredAccount.pubkey row) since) as [Hold | Hnew].
  - rewrite Hrow1. simpl. congruence.
  - rewrite Hk in Hold. simpl in Hold. left. congruence.
  - right. lia.
Qed.

(** ** Rows stay under their key *)

Lemma keyed_addAccount (r : SponsoredAccount.t) (d : Db.t) :
  keyed_by_pubkey d -> keyed_by_pubkey (DatabaseManager.addAccount r d).
Proof.
  intros Hkeyed k r' Hk.
  destruct (decide (k = SponsoredAccount.pubkey r)) as [->|Hdiff].
  - rewrite getAccount_addAccount in Hk. congruence.
  - rewrite getAccount_addAccount_ne in Hk by congruence. apply Hkeyed. exact Hk.
Qed.

Lemma keyed_addAccountsBatch (rows : list SponsoredAccount.t) :
  forall d, keyed_by_pubkey d -> keyed_by_pubkey (DatabaseManager.addAccountsBatch rows d).
Proof.
  unfold DatabaseManager.addAccountsBatch.
  induction rows as [|r rows IH]; intros d Hkeyed; [exact Hkeyed|].
  simpl. apply IH. apply keyed_addAccount. exact Hkeyed.
Qed.

Lemma keyed_emptyDb : keyed_by_pubkey Sample.emptyDb.
Proof. intros k r Hk. unfold DatabaseManager.getAccount in Hk. simpl in Hk.
  rewrite lookup_empty in Hk. discriminate.
Qed.

Lemma keyed_dbWith (r : SponsoredAccount.t) : keyed_by_pubkey (Sample.dbWith r).
Proof.
  intros k r' Hk. unfold DatabaseManager.getAccount, Sample.dbWith in Hk. simpl in Hk.
  apply lookup_singleton_Some in Hk. destruct Hk as [<- <-]. reflexivity.
Qed.

Lemma reclaimAccounts_keyed (accounts : list AccountStatus.t) (w : World.t) :
  keyed_by_pubkey (World.db w) ->
  keyed_by_pubkey (World.db (snd (Reclaim.reclaimAccounts accounts w))).
Proof.
  intros Hkeyed.
  destruct (reclaimAccounts_cases accounts w)
    as [[_ ->] | [(_ & _ & msg & ->) | (_ & _ & _ & ->)]]; [exact Hkeyed | exact Hkeyed |].
  destruct (batchesLoop_rows (Config.treasuryAddress (World.cfg w))
              (Reclaim.createBatches accounts Reclaim.MAX_INSTRUCTIONS)
              (Config.dryRun (World.cfg w)) w) as (res & w' & -> & _ & _ & Hrows & _).
  simpl. intros k r' Hk.
  destruct (Hrows k r' Hk) as (r & Hr & [-> | [t ->]]).
  - apply Hkeyed. exact Hr.
  - simpl. apply Hkeyed. exact Hr.
Qed.

Lemma importFromFile_keyed (file : ImportFile) (nowIso : string) (w : World.t) :
  keyed_by_pubkey (World.db w) ->
  keyed_by_pubkey (World.db (snd (Kora.importFromFile file nowIso w))).
Proof.
  intros Hkeyed. unfold Kora.importFromFile.
  destruct file as [p| | |data]; try exact Hkeyed.
  unfold bind at 1.
  pose proof (importLoop_run nowIso data [] w) as Hloop.
  destruct (nullFree data); [|rewrite Hloop; exact Hkeyed].
  destruct Hloop as (rows & -> & _).
  simpl. destruct (0 <? length rows)%nat; simpl; [|exact Hkeyed].
  apply keyed_addAccountsBatch. exact Hkeyed.
Qed.

Lemma addAccount_keyed (pubkey : string) (programOwner sponsorSig : option string)
    (nowIso : string) (w : World.t) :
  keyed_by_pubkey (World.db w) ->
  keyed_by_pubkey (World.db (snd (Kora.addAccount pubkey programOwner sponsorSig nowIso w))).
Proof.
  intros Hkeyed. unfold Kora.addAccount, bind, try_catch, Reclaim.newPublicKey, throw, ret,
                        modify.
  destruct (Rpc.validKey (World.rpc w) pubkey); simpl; [|exact Hkeyed].
  apply keyed_addAccount. exact Hkeyed.
Qed.

(** X23: an invariant of the store. When every row is stored under the
    key that its own [pubkey] column holds, this is still so after each
    operation that writes rows: the upserts [addAccount] and
    [addAccountsBatch], the import of a file and the addition of a key by
    hand, one scan step, [scanSingleAccount], a whole scan with a
    positive batch size, a run of the reclaim engine and a scheduled
    run. The empty store has the property. *)
Theorem rows_stay_under_their_key (w : World.t) :
  keyed_by_pubkey (World.db w) ->
  (forall r, keyed_by_pubkey (DatabaseManager.addAccount r (World.db w)))
  /\ (forall rows, keyed_by_pubkey (DatabaseManager.addAccountsBatch rows (World.db w)))
  /\ (forall file nowIso,
        keyed_by_pubkey (World.db (snd (Kora.importFromFile file nowIso w))))
  /\ (forall pubkey programOwner sponsorSig nowIso,
        keyed_by_pubkey
          (World.db (snd (Kora.addAccount pubkey programOwner sponsorSig nowIso w))))
  /\ (forall pubkey info, keyed_by_pubkey (World.db (snd (Scanner.scanOne pubkey info w))))
  /\ (forall conn pubkey,
        keyed_by_pubkey (World.db (snd (Scan.scanSingleAccount conn pubkey w))))
  /\ (forall accounts,
        keyed_by_pubkey (World.db (snd (Reclaim.reclaimAccounts accounts w))))
  /\ (forall fuel self conn,
        0 < Scan.batchSize self ->
        (length (DatabaseManager.getActiveAccounts (World.db w)) <= fuel)%nat ->
        keyed_by_pubkey (World.db (snd (Scan.scanAccounts fuel self conn w)))
        /\ keyed_by_pubkey (World.db (snd (Cli.scheduledRun fuel self conn w))))
  /\ keyed_by_pubkey (Db.mk ∅ [] ∅).
Proof.
  intros Hkeyed.
  split; [intros r; apply keyed_addAccount; exact Hkeyed|].
  split; [intros rows; apply keyed_addAccountsBatch; exact Hkeyed|].
  split; [intros file nowIso; apply importFromFile_keyed; exact Hkeyed|].
  split; [intros pubkey programOwner sponsorSig nowIso; apply addAccount_keyed; exact Hkeyed|].
  split.
  { intros pubkey info. apply (scanOne_frame pubkey info w). exact Hkeyed. }
  split.
  { intros conn pubkey. rewrite scanSingleAccount_run.
    destruct (Rpc.validKey (World.rpc w) pubkey); [|exact Hkeyed].
    destruct (Connection.getAccountInfo conn pubkey) as [msg|info] eqn:Hinfo; [exact Hkeyed|].
    destruct (analyzeAccount_scanned conn pubkey info w) as (_ & Hframe & _).
    { intros i ->. left. exact Hinfo. }
    simpl. apply Hframe. exact Hkeyed. }
  split; [intros accounts; apply reclaimAccounts_keyed; exact Hkeyed|].
  split; [|exact keyed_emptyDb].
  intros fuel self conn Hpos Hfuel. split.
  - unfold Scan.scanAccounts. unfold bind at 1. unfold gets at 1.
    destruct (scanLoop_run self conn (DatabaseManager.getActiveAccounts (World.db w)) Hpos
                fuel 0 (ScanResult.mk (length (DatabaseManager.getActiveAccounts (World.db w)))
                          [] [] []) w)
      as (w' & R & S & E & nb & Hrun & _ & _ & Hframe & _).
    { lia. }
    change (Z.of_nat 0) with 0 in Hrun. rewrite Hrun. simpl. apply Hframe. exact Hkeyed.
  - destruct (scheduledRun_run fuel self conn w Hpos Hfuel)
      as (reclaimable & w1 & _ & Hframe & _ & Hsnd).
    assert (Hkeyed1 : keyed_by_pubkey (World.db w1)) by (apply Hframe; exact Hkeyed).
    cbv zeta in Hsnd. destruct Hsnd as [-> | ->]; [exact Hkeyed1|].
    apply reclaimAccounts_keyed. exact Hkeyed1.
Qed.

(** ** The statements above on the sample worlds *)

Lemma createBatches_sizes_witness :
  concat (Reclaim.createBatches Sample.eleven 10) = Sample.eleven
  /\ Forall (fun batch => (1 <= length batch <= 10)%nat)
            (Reclaim.createBatches Sample.eleven 10).
Proof.
  pose proof (createBatches_sizes Sample.eleven 10) as H.
  destruct H as (H1 & H2 & _); [lia|].
  split; [exact H1 | exact H2].
Defined.

Lemma frequent_scans_report_nothing_witness :
  Forall (fun status => AccountStatus.isReclaimable status = false
                        /\ AccountStatus.operatorCanClose status = false)
         (fst (scansAt "A"
                 [(Sample.today + 5 * MS_PER_DAY, Some (Sample.tokenInfo Sample.operator));
                  (Sample.today + 11 * MS_PER_DAY, Some (Sample.tokenInfo Sample.operator));
                  (Sample.today + 17 * MS_PER_DAY, Some (Sample.tokenInfo Sample.operator))]
                 (SampleRun.world 1 30))).
Proof.
  apply (frequent_scans_report_nothing "A"
           [(Sample.today + 5 * MS_PER_DAY, Some (Sample.tokenInfo Sample.operator));
            (Sample.today + 11 * MS_PER_DAY, Some (Sample.tokenInfo Sample.operator));
            (Sample.today + 17 * MS_PER_DAY, Some (Sample.tokenInfo Sample.operator))]
           (SampleRun.world 1 30)
           (Sample.row "A" (Some (Sample.today - 1 * MS_PER_DAY))
              (Some (Sample.today - 30 * MS_PER_DAY)) true)
           (Sample.today - 1 * MS_PER_DAY)).
  - reflexivity.
  - reflexivity.
  - vm_compute. repeat split.
Defined.

Lemma scanAccounts_reports_witness :
  exists res w',
    Scan.scanAccounts 1 SampleRun.scanner SampleRun.connection (SampleRun.world 8 30)
    = (Returned (Some res), w')
    /\ Forall (fun s => AccountStatus.operatorCanClose s = true) (ScanResult.reclaimable res)
    /\ Forall (fun s => AccountStatus.operatorCanClose s = false) (ScanResult.skipped res).
Proof.
  destruct (scanAccounts_reports SampleRun.scanner SampleRun.connection
              (SampleRun.world 8 30) 1) as (res & w' & Hrun & HR & HS & _).
  - reflexivity.
  - vm_compute. lia.
  - exists res, w'. split; [exact Hrun|]. split.
    + eapply List.Forall_impl; [|exact HR]. intros s H. apply H.
    + eapply List.Forall_impl; [|exact HS]. intros s H. apply H.
Defined.

Lemma scheduledRun_closes_only_reported_idle_accounts_witness :
  let run := Cli.scheduledRun 1 SampleRun.scanner SampleRun.connection
               (SampleRun.world 8 30) in
  fst run = Returned (Some tt)
  /\ World.submitted (snd run) = [[CloseAccount "A" Sample.treasury Sample.operator]].
Proof.
  split.
  - apply (scheduledRun_closes_only_reported_idle_accounts 1 SampleRun.scanner
             SampleRun.connection (SampleRun.world 8 30)).
    + reflexivity.
    + vm_compute. lia.
    + apply keyed_dbWith.
  - vm_compute. reflexivity.
Defined.

Lemma rows_stay_under_their_key_witness :
  keyed_by_pubkey
    (World.db (snd (Cli.scheduledRun 1 SampleRun.scanner SampleRun.connection
                      (SampleRun.world 8 30)))).
Proof.
  apply (rows_stay_under_their_key (SampleRun.world 8 30)).
  - apply keyed_dbWith.
  - reflexivity.
  - vm_compute. lia.
Defined.
